(** * distracted: blocking-rule synchronizer and unlock-guard watcher

    A shallow embedding of the DNR blocker (rule translation, unlock
    grants, rule synchronisation), of the AI-agent unlock guard and of
    the guard watcher, with the properties stated for them.

    Conventions of the embedding:
    - a JavaScript string is a [string]: a sequence of code units, each
      read as a Latin-1 code point (0..255);
    - a JavaScript number that holds an identifier, an index, a delay or
      a timestamp is a [Z]; the arithmetic of the source on such numbers
      is exact below 2^53;
    - [Promise]-returning functions are run to completion: an operation
      takes the state of the browser before it and returns the state
      after it together with its result;
    - [Date.now()] is an explicit argument [now]. *)

From Stdlib Require Import ZArith Lia Bool Ascii DecimalString.
From stdpp Require Import gmap strings list fin_maps.

Local Open Scope Z_scope.

(** ** JavaScript string primitives *)

Module JsString.

Definition code (c : ascii) : N := N_of_ascii c.

(** Code units removed by [String.prototype.trim]: the white space and
    line terminator code points below 256. *)
Definition isWhiteSpace (c : ascii) : bool :=
  let n := code c in
  ((9 <=? n) && (n <=? 13) || (n =? 32) || (n =? 160))%N.

(** Upper-case letters of Latin-1: A-Z, and U+00C0..U+00DE but U+00D7. *)
Definition isUpper (c : ascii) : bool :=
  let n := code c in
  ((65 <=? n) && (n <=? 90)
   || (192 <=? n) && (n <=? 222) && negb (n =? 215))%N.

Definition lowerChar (c : ascii) : ascii :=
  if isUpper c then ascii_of_N (code c + 32) else c.

Fixpoint toLowerCase (s : string) : string :=
  match s with
  | EmptyString => EmptyString
  | String c r => String (lowerChar c) (toLowerCase r)
  end.

Fixpoint trimStart (s : string) : string :=
  match s with
  | String c r => if isWhiteSpace c then trimStart r else s
  | EmptyString => EmptyString
  end.

Fixpoint allWhiteSpace (s : string) : bool :=
  match s with
  | EmptyString => true
  | String c r => isWhiteSpace c && allWhiteSpace r
  end.

Fixpoint trimEnd (s : string) : string :=
  match s with
  | EmptyString => EmptyString
  | String c r => if allWhiteSpace s then EmptyString else String c (trimEnd r)
  end.

Definition trim (s : string) : string := trimEnd (trimStart s).

(** [stripPrefix p s] is [Some r] when [s = p +:+ r]. *)
Fixpoint stripPrefix (p s : string) : option string :=
  match p, s with
  | EmptyString, _ => Some s
  | String a p', String b s' =>
      if Ascii.eqb a b then stripPrefix p' s' else None
  | String _ _, EmptyString => None
  end.

Definition startsWith (s p : string) : bool :=
  match stripPrefix p s with Some _ => true | None => false end.

(** [s.slice(n)] for [0 <= n]. *)
Fixpoint slice (n : nat) (s : string) : string :=
  match n, s with
  | O, _ => s
  | S n', String _ r => slice n' r
  | S _, EmptyString => EmptyString
  end.

(** [s.replace(/^p/, "")] for a literal prefix [p]. *)
Definition removePrefix (p s : string) : string :=
  match stripPrefix p s with Some r => r | None => s end.

(** [s.replace(/^https?:\/\//, "")]. *)
Definition removeScheme (s : string) : string :=
  match stripPrefix "http://" s with
  | Some r => r
  | None => removePrefix "https://" s
  end.

End JsString.

Import JsString.

(** ** RuleTranslator: patterns to provider rules *)

(** [patternToDnrFilter]. *)
Definition patternToDnrFilter (pattern : string) : string :=
  let normalized :=
    removePrefix "www." (removeScheme (trim (toLowerCase pattern))) in
  if startsWith normalized "*." then
    let domain := slice 2 normalized in
    "||" +:+ domain
  else
    "||" +:+ normalized.

(** The character class [[.+?^${}()|[\]\\]] of [urlFilterToRegex]. *)
Definition isRegexSpecial (c : ascii) : bool :=
  match c with
  | "."%char | "+"%char | "?"%char | "^"%char | "$"%char
  | "{"%char | "}"%char | "("%char | ")"%char | "|"%char
  | "["%char | "]"%char | "\"%char => true
  | _ => false
  end.

(** [pattern.replace(/[.+?^${}()|[\]\\]/g, "\\$&")]. *)
Fixpoint escapeSpecials (s : string) : string :=
  match s with
  | EmptyString => EmptyString
  | String c r =>
      if isRegexSpecial c then String "\"%char (String c (escapeSpecials r))
      else String c (escapeSpecials r)
  end.

(** [pattern.replace(/\*/g, ".*")]. *)
Fixpoint expandWildcards (s : string) : string :=
  match s with
  | EmptyString => EmptyString
  | String c r =>
      if Ascii.eqb c "*"%char then String "."%char (String "*"%char (expandWildcards r))
      else String c (expandWildcards r)
  end.

(** [urlFilterToRegex]. *)
Definition urlFilterToRegex (urlFilter : string) : string :=
  let pattern := removePrefix "||" urlFilter in
  let pattern := escapeSpecials pattern in
  let pattern := expandWildcards pattern in
  "^(https?://(www\.)?" +:+ pattern +:+ ".*)$".

(** ** Regular expressions of the provider

    A [regexFilter] is a string that the provider reads as a regular
    expression and searches for in the request URL. The syntax below is
    the fragment [urlFilterToRegex] can produce: literals, escaped
    characters, [.], groups, [|], the postfix operators [*], [?] and [+],
    and the anchors [^] and [$]. *)

Module Regex.

Inductive re : Type :=
| Fail
| Eps
| Chr (c : ascii)
| Dot
| AnyUnit
| Bol
| Eol
| Cat (a b : re)
| Alt (a b : re)
| Star (a : re).

Definition Opt (r : re) : re := Alt r Eps.
Definition Plus (r : re) : re := Cat r (Star r).

(** *** Reading the concrete syntax *)

(** A group under construction: the alternatives already closed by a
    [|], and the items of the current alternative, last one first. *)
Record frame := { alts : option re; items : list re }.

Definition emptyFrame : frame := {| alts := None; items := [] |}.

Definition push (r : re) (f : frame) : frame :=
  {| alts := alts f; items := r :: items f |}.

Definition seqOf (rs : list re) : re :=
  fold_left (fun acc r => Cat r acc) rs Eps.

Definition closeFrame (f : frame) : re :=
  match alts f with
  | None => seqOf (items f)
  | Some a => Alt a (seqOf (items f))
  end.

Definition postfix (op : re -> re) (f : frame) : option frame :=
  match items f with
  | x :: xs => Some {| alts := alts f; items := op x :: xs |}
  | [] => None
  end.

Definition isEscapable (c : ascii) : bool :=
  match c with
  | "."%char | "+"%char | "?"%char | "^"%char | "$"%char
  | "{"%char | "}"%char | "("%char | ")"%char | "|"%char
  | "["%char | "]"%char | "\"%char | "*"%char | "/"%char => true
  | _ => false
  end.

Fixpoint parseFrom (s : string) (top : frame) (stack : list frame) : option re :=
  match s with
  | EmptyString =>
      match stack with
      | [] => Some (closeFrame top)
      | _ :: _ => None
      end
  | String "\"%char (String d r) =>
      if isEscapable d then parseFrom r (push (Chr d) top) stack else None
  | String "\"%char EmptyString => None
  | String "("%char r => parseFrom r emptyFrame (top :: stack)
  | String ")"%char r =>
      match stack with
      | parent :: st => parseFrom r (push (closeFrame top) parent) st
      | [] => None
      end
  | String "|"%char r =>
      parseFrom r {| alts := Some (closeFrame top); items := [] |} stack
  | String "*"%char r =>
      match postfix Star top with Some f => parseFrom r f stack | None => None end
  | String "?"%char r =>
      match postfix Opt top with Some f => parseFrom r f stack | None => None end
  | String "+"%char r =>
      match postfix Plus top with Some f => parseFrom r f stack | None => None end
  | String "."%char r => parseFrom r (push Dot top) stack
  | String "^"%char r => parseFrom r (push Bol top) stack
  | String "$"%char r => parseFrom r (push Eol top) stack
  | String "["%char _ | String "]"%char _
  | String "{"%char _ | String "}"%char _ => None
  | String c r => parseFrom r (push (Chr c) top) stack
  end.

Definition parse (s : string) : option re := parseFrom s emptyFrame [].

(** *** Matching, by derivatives

    [atStart] and [atEnd] say whether the current position is the
    start and the end of the subject; the anchors consult them. *)

Fixpoint nullable (atStart atEnd : bool) (r : re) : bool :=
  match r with
  | Fail => false
  | Eps => true
  | Chr _ | Dot | AnyUnit => false
  | Bol => atStart
  | Eol => atEnd
  | Cat a b => nullable atStart atEnd a && nullable atStart atEnd b
  | Alt a b => nullable atStart atEnd a || nullable atStart atEnd b
  | Star _ => true
  end.

Definition mkCat (a b : re) : re :=
  match a, b with
  | Fail, _ | _, Fail => Fail
  | Eps, _ => b
  | _, _ => Cat a b
  end.

Definition mkAlt (a b : re) : re :=
  match a, b with
  | Fail, _ => b
  | _, Fail => a
  | _, _ => Alt a b
  end.

Definition isNewline (c : ascii) : bool := Ascii.eqb c "010"%char.

(** The derivative by [c], read at a position that is not the end. *)
Fixpoint deriv (atStart : bool) (c : ascii) (r : re) : re :=
  match r with
  | Fail | Eps | Bol | Eol => Fail
  | Chr a => if Ascii.eqb a c then Eps else Fail
  | Dot => if isNewline c then Fail else Eps
  | AnyUnit => Eps
  | Cat a b =>
      mkAlt (mkCat (deriv atStart c a) b)
            (if nullable atStart false a then deriv atStart c b else Fail)
  | Alt a b => mkAlt (deriv atStart c a) (deriv atStart c b)
  | Star a => mkCat (deriv atStart c a) (Star a)
  end.

Fixpoint matchFrom (atStart : bool) (r : re) (w : string) : bool :=
  match w with
  | EmptyString => nullable atStart true r
  | String c w' => matchFrom false (deriv atStart c r) w'
  end.

(** The expression is searched for anywhere in the subject. *)
Definition search (r : re) (w : string) : bool :=
  matchFrom true (Cat (Star AnyUnit) (Cat r (Star AnyUnit))) w.

(** [test src url]: does the regular expression written [src] match
    [url]? [None] when [src] is outside the fragment read here. *)
Definition test (src url : string) : option bool :=
  match parse src with
  | Some r => Some (search r url)
  | None => None
  end.

End Regex.

(** ** Data model of the DNR blocker *)

Record SiteRule := { pattern : string; allow : bool }.

Record BlockedSite := { id : string; enabled : bool; rules : list SiteRule }.

Record UnlockState := { siteId : string; expiresAt : Z }.

(** A [Browser.declarativeNetRequest.Rule] as [createSiteRules] builds it. *)
Record Rule := {
  rule_id : Z;
  priority : Z;
  action_type : string;
  regexFilter : string;
  resourceTypes : list string
}.

(** The argument of [updateDynamicRules]. *)
Record UpdateRuleOptions := { removeRuleIds : list Z; addRules : list Rule }.

Record Tab := { tab_id : option Z; tab_url : option string }.

(** What the blocker reads and writes in the browser: the stored sites,
    the provider's dynamic rules, session storage, the alarms, the open
    tabs, and the requests made to [updateDynamicRules] so far. *)
Record Browser := {
  blockedSites : list BlockedSite;
  dynamicRules : list Rule;
  session : gmap string UnlockState;
  alarms : gmap string Z;
  tabs : list Tab;
  updateCalls : list UpdateRuleOptions
}.

Definition setDynamicRules (rs : list Rule) (log : list UpdateRuleOptions) (b : Browser) : Browser :=
  {| blockedSites := blockedSites b; dynamicRules := rs; session := session b;
     alarms := alarms b; tabs := tabs b; updateCalls := log |}.

Definition setSession (s : gmap string UnlockState) (b : Browser) : Browser :=
  {| blockedSites := blockedSites b; dynamicRules := dynamicRules b; session := s;
     alarms := alarms b; tabs := tabs b; updateCalls := updateCalls b |}.

Definition setAlarms (a : gmap string Z) (b : Browser) : Browser :=
  {| blockedSites := blockedSites b; dynamicRules := dynamicRules b; session := session b;
     alarms := a; tabs := tabs b; updateCalls := updateCalls b |}.

(** [browser.declarativeNetRequest.updateDynamicRules]: one request; the
    rules whose identifier is listed are removed, then the new rules are
    added. *)
Definition updateDynamicRules (o : UpdateRuleOptions) (b : Browser) : Browser :=
  setDynamicRules
    (List.filter (fun r => negb (bool_decide (rule_id r ∈ removeRuleIds o))) (dynamicRules b)
       ++ addRules o)
    (updateCalls b ++ [o]) b.

(** [browser.storage.session.set({[key]: state})] and [remove(key)]. *)
Definition sessionSet (key : string) (st : UnlockState) (b : Browser) : Browser :=
  setSession (<[key := st]> (session b)) b.

Definition sessionRemove (key : string) (b : Browser) : Browser :=
  setSession (delete key (session b)) b.

(** [browser.alarms.create(name, {when})] replaces an alarm of the same
    name; [browser.alarms.clear(name)] cancels it. *)
Definition alarmsCreate (name : string) (when : Z) (b : Browser) : Browser :=
  setAlarms (<[name := when]> (alarms b)) b.

Definition alarmsClear (name : string) (b : Browser) : Browser :=
  setAlarms (delete name (alarms b)) b.

Section Dnr.

(** The constants of [@/lib/consts] and the helpers of [@/lib/storage]
    and [../utils] that the blocker imports. *)
Variable RULE_ID_BASE : Z.
Variable MAX_RULES_PER_SITE : Z.
Variable UNLOCK_PREFIX : string.
Variable ALARM_PREFIX : string.
Variable urlMatchesSiteRules : string -> BlockedSite -> bool.
Variable isInternalUrl : string -> bool.

(** [getRuleId]. *)
Definition getRuleId (siteIndex patternIndex : Z) : Z :=
  RULE_ID_BASE + siteIndex * MAX_RULES_PER_SITE + patternIndex.

(** [createSiteRules]. *)
Definition createSiteRules (site : BlockedSite) (siteIndex : nat) : list Rule :=
  if negb (enabled site) then []
  else
    let blockPatterns := List.filter (fun r => negb (allow r)) (rules site) in
    imap (fun patternIndex rule =>
            let regexFilter := urlFilterToRegex (patternToDnrFilter (pattern rule)) in
            {| rule_id := getRuleId (Z.of_nat siteIndex) (Z.of_nat patternIndex);
               priority := 1;
               action_type := "block";
               regexFilter := regexFilter;
               resourceTypes := ["main_frame"] |})
         blockPatterns.

(** [getUnlockedSiteIds]: a scan of all of session storage. *)
Definition getUnlockedSiteIds (now : Z) (b : Browser) : gset string :=
  foldl (fun (unlockedIds : gset string) '(key, state) =>
           if startsWith key UNLOCK_PREFIX then
             if bool_decide (expiresAt state > now)
             then unlockedIds ∪ {[ siteId state ]}
             else unlockedIds
           else unlockedIds)
        ∅ (map_to_list (session b)).

(** The rules one site contributes in [syncDnrRules]. *)
Definition siteContribution (unlockedSiteIds : gset string)
    (index : nat) (site : BlockedSite) : list Rule :=
  if negb (enabled site) then []
  else if bool_decide (id site ∈ unlockedSiteIds) then []
  else createSiteRules site index.

(** The list [newRules] that [syncDnrRules] builds. *)
Definition computeNewRules (now : Z) (b : Browser) : list Rule :=
  let unlockedSiteIds := getUnlockedSiteIds now b in
  mjoin (imap (siteContribution unlockedSiteIds) (blockedSites b)).

(** [syncDnrRules]. *)
Definition syncDnrRules (now : Z) (b : Browser) : Browser :=
  let existingRuleIds := map rule_id (dynamicRules b) in
  let newRules := computeNewRules now b in
  updateDynamicRules {| removeRuleIds := existingRuleIds; addRules := newRules |} b.

(** [grantAccess]; [now] is read by [grantAccess], [nowSync] by the
    synchronisation it runs. *)
Definition grantAccess (now nowSync : Z) (siteId : string)
    (durationMinutes : option Z) (b : Browser) : Browser * Z :=
  let durationMs := (default 60 durationMinutes) * 60 * 1000 in
  let expiresAt := now + durationMs in
  let state := {| siteId := siteId; expiresAt := expiresAt |} in
  let b := sessionSet (UNLOCK_PREFIX +:+ siteId) state b in
  let b := syncDnrRules nowSync b in
  let alarmName := ALARM_PREFIX +:+ siteId in
  let b := alarmsCreate alarmName expiresAt b in
  (b, expiresAt).

(** [findTabsOnBlockedSite]. *)
Definition findTabsOnBlockedSite (siteId : string) (b : Browser) : list Z :=
  match List.find (fun s => String.eqb (id s) siteId) (blockedSites b) with
  | None => []
  | Some site =>
      omap (fun tab =>
              match tab_id tab, tab_url tab with
              | Some i, Some url =>
                  if (i =? 0) || String.eqb url "" then None
                  else if isInternalUrl url then None
                  else if urlMatchesSiteRules url site then Some i
                  else None
              | _, _ => None
              end)
           (tabs b)
  end.

(** [revokeAccess]. *)
Definition revokeAccess (nowSync : Z) (siteId : string) (b : Browser) : Browser * list Z :=
  let b := sessionRemove (UNLOCK_PREFIX +:+ siteId) b in
  let b := alarmsClear (ALARM_PREFIX +:+ siteId) b in
  let b := syncDnrRules nowSync b in
  (b, findTabsOnBlockedSite siteId b).

(** [isSiteUnlocked]. *)
Definition isSiteUnlocked (now : Z) (siteId : string) (b : Browser) : Browser * bool :=
  match session b !! (UNLOCK_PREFIX +:+ siteId) with
  | None => (b, false)
  | Some state =>
      if expiresAt state <=? now
      then (sessionRemove (UNLOCK_PREFIX +:+ siteId) b, false)
      else (b, true)
  end.

(** [getUnlockState]. *)
Definition getUnlockState (now : Z) (siteId : string) (b : Browser)
    : Browser * option UnlockState :=
  match session b !! (UNLOCK_PREFIX +:+ siteId) with
  | None => (b, None)
  | Some state =>
      if expiresAt state <=? now
      then (sessionRemove (UNLOCK_PREFIX +:+ siteId) b, None)
      else (b, Some state)
  end.

End Dnr.

(** ** GuardCheck: the AI-agent unlock guard *)

Inductive Reason : Type :=
| invalid_url | server_error | offline | idle | waiting.

Record UnlockGuardState := {
  active : bool;
  reason : option Reason;
  message : option string
}.

(** The settings object of the method, read as
    [{ serverUrl?: string; allowWhileWaitingForInput?: boolean }]. *)
Record AiAgentSettings := {
  serverUrl : option string;
  allowWhileWaitingForInput : option bool
}.

(** What [getAiAgentStatus] and [parseAiAgentStateMessage] report. *)
Record AgentStatus := {
  st_active : bool;
  st_waitingForInput : Z;
  st_reason : option Reason;
  st_statusCode : option Z
}.

(** An unlock guard, [UnlockGuardDefinition]; a rejected promise of
    [check] is [None]. *)
Record UnlockGuardDefinition (Settings Payload : Type) := {
  check : Settings -> option UnlockGuardState;
  getWebSocketUrl : option (Settings -> option string);
  parseWebSocketMessage : option (Payload -> Settings -> option UnlockGuardState);
  pollIntervalMs : option Z
}.
Arguments check {Settings Payload} _ _.
Arguments getWebSocketUrl {Settings Payload} _.
Arguments parseWebSocketMessage {Settings Payload} _.
Arguments pollIntervalMs {Settings Payload} _.

Definition CLAUDE_POLL_INTERVAL_MS : Z := 5000.

(** [`${n}`] for an integer. *)
Definition numberToString (n : Z) : string :=
  DecimalString.NilZero.string_of_int (Z.to_int n).

Section AiAgentGuard.

(** The client of the companion server, [@/lib/ai-agent-client]: the
    status request (with [None] for a rejected promise), the reading of
    a pushed message, and the address of the stream. *)
Variable Payload : Type.
Variable getAiAgentStatus : string -> option AgentStatus.
Variable parseAiAgentStateMessage : Payload -> option AgentStatus.
Variable resolveAiAgentWebSocketUrl : string -> option string.

(** [config?.serverUrl ?? ""]. *)
Definition serverUrlOf (settings : option AiAgentSettings) : string :=
  default "" (settings ≫= serverUrl).

(** Truth value of [config?.allowWhileWaitingForInput]. *)
Definition allowsWaiting (settings : option AiAgentSettings) : bool :=
  default false (settings ≫= allowWhileWaitingForInput).

(** Truth value of [result.statusCode]. *)
Definition statusCodeSuffix (c : option Z) : string :=
  match c with
  | Some n => if n =? 0 then "" else " (" +:+ numberToString n +:+ ")"
  | None => ""
  end.

(** [UNLOCK_GUARDS.claude.check]. *)
Definition claudeCheck (settings : option AiAgentSettings) : option UnlockGuardState :=
  match getAiAgentStatus (serverUrlOf settings) with
  | None => None
  | Some result =>
      if negb (st_active result) && (st_waitingForInput result >? 0) && allowsWaiting settings
      then Some {| active := true; reason := None; message := None |}
      else if (st_waitingForInput result >? 0) && negb (st_active result)
      then Some {| active := false; reason := Some waiting;
                   message := Some "AI agent is waiting for your input." |}
      else Some
        {| active := st_active result;
           reason := st_reason result;
           message :=
             match st_reason result with
             | Some invalid_url => Some "Distracted server URL is invalid."
             | Some server_error =>
                 Some ("Distracted server error"
                         +:+ statusCodeSuffix (st_statusCode result) +:+ ".")
             | Some offline => Some "Distracted server is offline."
             | _ => if st_active result then None else Some "AI agent is idle."
             end |}
  end.

(** [UNLOCK_GUARDS.claude.getWebSocketUrl]. *)
Definition claudeGetWebSocketUrl (settings : option AiAgentSettings) : option string :=
  resolveAiAgentWebSocketUrl (serverUrlOf settings).

(** [UNLOCK_GUARDS.claude.parseWebSocketMessage]. *)
Definition claudeParseWebSocketMessage (payload : Payload)
    (settings : option AiAgentSettings) : option UnlockGuardState :=
  match parseAiAgentStateMessage payload with
  | None => None
  | Some result =>
      if negb (st_active result) && (st_waitingForInput result >? 0) && allowsWaiting settings
      then Some {| active := true; reason := None; message := None |}
      else if (st_waitingForInput result >? 0) && negb (st_active result)
      then Some {| active := false; reason := Some waiting;
                   message := Some "AI agent is waiting for your input." |}
      else Some
        {| active := st_active result;
           reason := st_reason result;
           message := if st_active result then None else Some "AI agent is idle." |}
  end.

(** [UNLOCK_GUARDS.claude]. *)
Definition claudeGuard : UnlockGuardDefinition (option AiAgentSettings) Payload :=
  {| check := claudeCheck;
     getWebSocketUrl := Some claudeGetWebSocketUrl;
     parseWebSocketMessage := Some claudeParseWebSocketMessage;
     pollIntervalMs := Some CLAUDE_POLL_INTERVAL_MS |}.

End AiAgentGuard.

(** ** GuardWatcher

    The watcher is a closure over eight mutable variables, driven by the
    timers and the socket of the JavaScript runtime. A [Session] pairs
    the variables ([Vars]) with the part of the runtime the watcher
    owns ([Runtime]). Every callback of the source is a function on
    sessions; [step] is the event loop running one of them. *)

Inductive ReadyState : Type := CONNECTING | OPEN | CLOSING | CLOSED.

Record Vars := {
  stopped : bool;
  socket : option nat;
  pollTimer : option nat;
  heartbeatTimer : option nat;
  wsPingTimer : option nat;
  reconnectTimer : option nat;
  reconnectAttempts : Z;
  lastState : option UnlockGuardState
}.

(** Timer and socket handles are positive numbers handed out in order,
    so a handle that is set is truthy. [liveTimers] are the timers that
    can still fire; [readyState] is that of each [WebSocket]; [emitted]
    are the calls of [onState], oldest first; [inflight] counts the
    checks started and not yet settled; [intervals] and [timeouts] log
    the delays passed to [setInterval] and [setTimeout]; [sent] logs the
    sockets pinged. *)
Record Runtime := {
  liveTimers : list nat;
  readyState : nat -> ReadyState;
  nextHandle : nat;
  emitted : list UnlockGuardState;
  inflight : nat;
  intervals : list Z;
  timeouts : list Z;
  sent : list nat
}.

Record Session := { vars : Vars; rt : Runtime }.

Module Rt.

Definition initial : Runtime :=
  {| liveTimers := []; readyState := fun _ => CLOSED; nextHandle := 1;
     emitted := []; inflight := 0; intervals := []; timeouts := []; sent := [] |}.

Definition setInterval (delay : Z) (r : Runtime) : nat * Runtime :=
  (nextHandle r,
   {| liveTimers := liveTimers r ++ [nextHandle r]; readyState := readyState r;
      nextHandle := S (nextHandle r); emitted := emitted r; inflight := inflight r;
      intervals := intervals r ++ [delay]; timeouts := timeouts r; sent := sent r |}).

Definition setTimeout (delay : Z) (r : Runtime) : nat * Runtime :=
  (nextHandle r,
   {| liveTimers := liveTimers r ++ [nextHandle r]; readyState := readyState r;
      nextHandle := S (nextHandle r); emitted := emitted r; inflight := inflight r;
      intervals := intervals r; timeouts := timeouts r ++ [delay]; sent := sent r |}).

(** [clearInterval], [clearTimeout], and the expiry of a timeout. *)
Definition clearTimer (t : nat) (r : Runtime) : Runtime :=
  {| liveTimers := filter (fun u => u <> t) (liveTimers r);
     readyState := readyState r; nextHandle := nextHandle r; emitted := emitted r;
     inflight := inflight r; intervals := intervals r; timeouts := timeouts r;
     sent := sent r |}.

Definition setReadyState (k : nat) (st : ReadyState) (r : Runtime) : Runtime :=
  {| liveTimers := liveTimers r;
     readyState := fun j => if Nat.eqb j k then st else readyState r j;
     nextHandle := nextHandle r; emitted := emitted r; inflight := inflight r;
     intervals := intervals r; timeouts := timeouts r; sent := sent r |}.

(** [new WebSocket(wsUrl)]. *)
Definition newWebSocket (r : Runtime) : nat * Runtime :=
  (nextHandle r,
   {| liveTimers := liveTimers r;
      readyState := fun j => if Nat.eqb j (nextHandle r) then CONNECTING else readyState r j;
      nextHandle := S (nextHandle r); emitted := emitted r; inflight := inflight r;
      intervals := intervals r; timeouts := timeouts r; sent := sent r |}).

(** [socket.close()]: a socket that is connecting or open starts
    closing; otherwise nothing happens. *)
Definition close (k : nat) (r : Runtime) : Runtime :=
  match readyState r k with
  | CONNECTING | OPEN => setReadyState k CLOSING r
  | CLOSING | CLOSED => r
  end.

Definition onState (st : UnlockGuardState) (r : Runtime) : Runtime :=
  {| liveTimers := liveTimers r; readyState := readyState r; nextHandle := nextHandle r;
     emitted := emitted r ++ [st]; inflight := inflight r;
     intervals := intervals r; timeouts := timeouts r; sent := sent r |}.

Definition setInflight (n : nat) (r : Runtime) : Runtime :=
  {| liveTimers := liveTimers r; readyState := readyState r; nextHandle := nextHandle r;
     emitted := emitted r; inflight := n;
     intervals := intervals r; timeouts := timeouts r; sent := sent r |}.

Definition send (k : nat) (r : Runtime) : Runtime :=
  {| liveTimers := liveTimers r; readyState := readyState r; nextHandle := nextHandle r;
     emitted := emitted r; inflight := inflight r;
     intervals := intervals r; timeouts := timeouts r; sent := sent r ++ [k] |}.

Definition isLive (t : nat) (r : Runtime) : bool :=
  existsb (Nat.eqb t) (liveTimers r).

Definition isActive (st : ReadyState) : bool :=
  match st with CONNECTING | OPEN => true | CLOSING | CLOSED => false end.

End Rt.

Module V.

Definition initial : Vars :=
  {| stopped := false; socket := None; pollTimer := None; heartbeatTimer := None;
     wsPingTimer := None; reconnectTimer := None; reconnectAttempts := 0;
     lastState := None |}.

Definition setStopped (x : bool) (v : Vars) : Vars :=
  {| stopped := x; socket := socket v; pollTimer := pollTimer v;
     heartbeatTimer := heartbeatTimer v; wsPingTimer := wsPingTimer v;
     reconnectTimer := reconnectTimer v; reconnectAttempts := reconnectAttempts v;
     lastState := lastState v |}.

Definition setSocket (x : option nat) (v : Vars) : Vars :=
  {| stopped := stopped v; socket := x; pollTimer := pollTimer v;
     heartbeatTimer := heartbeatTimer v; wsPingTimer := wsPingTimer v;
     reconnectTimer := reconnectTimer v; reconnectAttempts := reconnectAttempts v;
     lastState := lastState v |}.

Definition setPollTimer (x : option nat) (v : Vars) : Vars :=
  {| stopped := stopped v; socket := socket v; pollTimer := x;
     heartbeatTimer := heartbeatTimer v; wsPingTimer := wsPingTimer v;
     reconnectTimer := reconnectTimer v; reconnectAttempts := reconnectAttempts v;
     lastState := lastState v |}.

Definition setHeartbeatTimer (x : option nat) (v : Vars) : Vars :=
  {| stopped := stopped v; socket := socket v; pollTimer := pollTimer v;
     heartbeatTimer := x; wsPingTimer := wsPingTimer v;
     reconnectTimer := reconnectTimer v; reconnectAttempts := reconnectAttempts v;
     lastState := lastState v |}.

Definition setWsPingTimer (x : option nat) (v : Vars) : Vars :=
  {| stopped := stopped v; socket := socket v; pollTimer := pollTimer v;
     heartbeatTimer := heartbeatTimer v; wsPingTimer := x;
     reconnectTimer := reconnectTimer v; reconnectAttempts := reconnectAttempts v;
     lastState := lastState v |}.

Definition setReconnectTimer (x : option nat) (v : Vars) : Vars :=
  {| stopped := stopped v; socket := socket v; pollTimer := pollTimer v;
     heartbeatTimer := heartbeatTimer v; wsPingTimer := wsPingTimer v;
     reconnectTimer := x; reconnectAttempts := reconnectAttempts v;
     lastState := lastState v |}.

Definition setReconnectAttempts (x : Z) (v : Vars) : Vars :=
  {| stopped := stopped v; socket := socket v; pollTimer := pollTimer v;
     heartbeatTimer := heartbeatTimer v; wsPingTimer := wsPingTimer v;
     reconnectTimer := reconnectTimer v; reconnectAttempts := x;
     lastState := lastState v |}.

Definition setLastState (x : option UnlockGuardState) (v : Vars) : Vars :=
  {| stopped := stopped v; socket := socket v; pollTimer := pollTimer v;
     heartbeatTimer := heartbeatTimer v; wsPingTimer := wsPingTimer v;
     reconnectTimer := reconnectTimer v; reconnectAttempts := reconnectAttempts v;
     lastState := x |}.

End V.

Definition onVars (f : Vars -> Vars) (s : Session) : Session :=
  {| vars := f (vars s); rt := rt s |}.

Definition onRt (f : Runtime -> Runtime) (s : Session) : Session :=
  {| vars := vars s; rt := f (rt s) |}.

(** The result of a check that threw: [{ active: false, reason: "offline" }]. *)
Definition offlineState : UnlockGuardState :=
  {| active := false; reason := Some offline; message := None |}.

(** The events of a session: the three interval timers, the reconnect
    timeout, the four events of a socket, the settling of a check, and
    a call of the handle's [stop]. A settled check carries the state it
    resolved to, or [None] when it threw. *)
Inductive event : Type :=
| PollTick
| HeartbeatTick
| PingTick
| ReconnectTimeout
| SocketOpen (k : nat)
| SocketMessage (k : nat) (data : string)
| SocketClose (k : nat)
| SocketError (k : nat)
| CheckSettled (outcome : option UnlockGuardState)
| StopCalled.

(** The callbacks of the source, whatever makes them run. *)
Inductive callback : Type :=
| PollCallback
| HeartbeatCallback
| PingCallback
| ReconnectCallback
| OpenListener
| MessageListener (data : string)
| CloseListener
| ErrorListener
| CheckContinuation (outcome : option UnlockGuardState)
| StopHandle.

Section Watcher.

Variables Settings Payload : Type.
Variable guard : UnlockGuardDefinition Settings Payload.
Variable settings : Settings.
Variable heartbeatMs : Z.
Variable pollIntervalMsOption : option Z.

(** [JSON.parse], which throws ([None]) on malformed text. *)
Variable jsonParse : string -> option Payload.

(** [emitState]. *)
Definition emitState (state : UnlockGuardState) (s : Session) : Session :=
  if stopped (vars s) then s
  else onRt (Rt.onState state) (onVars (V.setLastState (Some state)) s).

Definition clearIfSet (t : option nat) (s : Session) : Session :=
  match t with
  | Some i => onRt (Rt.clearTimer i) s
  | None => s
  end.

(** [stop]. *)
Definition stop (s : Session) : Session :=
  if stopped (vars s) then s
  else
    let s := onVars (V.setStopped true) s in
    let s := clearIfSet (pollTimer (vars s)) s in
    let s := clearIfSet (heartbeatTimer (vars s)) s in
    let s := clearIfSet (wsPingTimer (vars s)) s in
    let s := clearIfSet (reconnectTimer (vars s)) s in
    match socket (vars s) with
    | Some k => onVars (V.setSocket None) (onRt (Rt.close k) s)
    | None => s
    end.

(** [handleGuardState]. *)
Definition handleGuardState (state : UnlockGuardState) (s : Session) : Session :=
  let s := emitState state s in
  if negb (active state) then stop s else s.

(** [runCheck] up to its [await]: the check is started. *)
Definition runCheck (s : Session) : Session :=
  onRt (fun r => Rt.setInflight (S (inflight r)) r) s.

(** [runCheck] after its [await]. *)
Definition checkSettled (outcome : option UnlockGuardState) (s : Session) : Session :=
  match outcome with
  | Some state => handleGuardState state s
  | None => handleGuardState offlineState s
  end.

(** [startPolling]. *)
Definition startPolling (s : Session) : Session :=
  let interval := default (default 5000 (pollIntervalMs guard)) pollIntervalMsOption in
  let s := runCheck s in
  let '(t, r) := Rt.setInterval interval (rt s) in
  {| vars := V.setPollTimer (Some t) (vars s); rt := r |}.

(** The callback of the heartbeat interval. *)
Definition heartbeatTick (s : Session) : Session :=
  match lastState (vars s) with
  | Some l => if active l then emitState l s else s
  | None => s
  end.

(** [startHeartbeat]. *)
Definition startHeartbeat (s : Session) : Session :=
  let '(t, r) := Rt.setInterval heartbeatMs (rt s) in
  {| vars := V.setHeartbeatTimer (Some t) (vars s); rt := r |}.

(** [Math.min(10_000, 500 * 2 ** Math.min(6, reconnectAttempts))]. *)
Definition backoffMs (reconnectAttempts : Z) : Z :=
  Z.min 10000 (500 * 2 ^ Z.min 6 reconnectAttempts).

(** [scheduleReconnect]. *)
Definition scheduleReconnect (s : Session) : Session :=
  if stopped (vars s) then s
  else
    match reconnectTimer (vars s) with
    | Some _ => s
    | None =>
        let s := onVars (fun v => V.setReconnectAttempts (reconnectAttempts v + 1) v) s in
        let '(t, r) := Rt.setTimeout (backoffMs (reconnectAttempts (vars s))) (rt s) in
        {| vars := V.setReconnectTimer (Some t) (vars s); rt := r |}
    end.

(** [connect]; its listeners are [openListener] to [errorListener]. *)
Definition connect (s : Session) : Session :=
  if stopped (vars s) then s
  else
    let s := match socket (vars s) with
             | Some k => onRt (Rt.close k) s
             | None => s
             end in
    let '(k, r) := Rt.newWebSocket (rt s) in
    {| vars := V.setSocket (Some k) (vars s); rt := r |}.

(** The callback of the reconnect timeout. *)
Definition reconnectFired (s : Session) : Session :=
  connect (onVars (V.setReconnectTimer None) s).

Definition openListener (s : Session) : Session :=
  runCheck (onVars (V.setReconnectAttempts 0) s).

Definition messageListener (data : string) (s : Session) : Session :=
  match jsonParse data with
  | None => s
  | Some payload =>
      match parseWebSocketMessage guard with
      | None => s
      | Some parse =>
          match parse payload settings with
          | Some state => handleGuardState state s
          | None => s
          end
      end
  end.

(** The callback of the ping interval. *)
Definition pingTick (s : Session) : Session :=
  if stopped (vars s) then s
  else
    match socket (vars s) with
    | None => s
    | Some k =>
        match readyState (rt s) k with
        | OPEN => onRt (Rt.send k) s
        | _ => s
        end
    end.

Definition runCallback (c : callback) (s : Session) : Session :=
  match c with
  | PollCallback => runCheck s
  | HeartbeatCallback => heartbeatTick s
  | PingCallback => pingTick s
  | ReconnectCallback => reconnectFired s
  | OpenListener => openListener s
  | MessageListener data => messageListener data s
  | CloseListener => scheduleReconnect s
  | ErrorListener => scheduleReconnect s
  | CheckContinuation outcome => checkSettled outcome s
  | StopHandle => stop s
  end.

(** Truth value of [wsUrl]. *)
Definition wsUrlOf : option string :=
  match getWebSocketUrl guard with
  | Some f =>
      match f settings with
      | Some url => if String.eqb url "" then None else Some url
      | None => None
      end
  | None => None
  end.

(** The body of [startGuardWatcher] once the guard is found. *)
Definition startSession : Session :=
  let s := {| vars := V.initial; rt := Rt.initial |} in
  match wsUrlOf with
  | Some _ =>
      let s := startPolling s in
      let s := connect s in
      let '(t, r) := Rt.setInterval 10000 (rt s) in
      let s := {| vars := V.setWsPingTimer (Some t) (vars s); rt := r |} in
      startHeartbeat s
  | None => startPolling s
  end.

Definition timerIsLive (t : option nat) (s : Session) : bool :=
  match t with
  | Some i => Rt.isLive i (rt s)
  | None => false
  end.

(** One turn of the event loop. An event that cannot occur in [s] (a
    tick of a timer that is not live, an event of a socket in the
    wrong state, a settling with no check in flight) leaves [s] as it
    is. *)
Definition step (e : event) (s : Session) : Session :=
  match e with
  | PollTick =>
      if timerIsLive (pollTimer (vars s)) s then runCallback PollCallback s else s
  | HeartbeatTick =>
      if timerIsLive (heartbeatTimer (vars s)) s then runCallback HeartbeatCallback s else s
  | PingTick =>
      if timerIsLive (wsPingTimer (vars s)) s then runCallback PingCallback s else s
  | ReconnectTimeout =>
      match reconnectTimer (vars s) with
      | Some t =>
          if Rt.isLive t (rt s)
          then runCallback ReconnectCallback (onRt (Rt.clearTimer t) s)
          else s
      | None => s
      end
  | SocketOpen k =>
      match readyState (rt s) k with
      | CONNECTING => runCallback OpenListener (onRt (Rt.setReadyState k OPEN) s)
      | _ => s
      end
  | SocketMessage k data =>
      match readyState (rt s) k with
      | OPEN => runCallback (MessageListener data) s
      | _ => s
      end
  | SocketClose k =>
      match readyState (rt s) k with
      | CLOSED => s
      | _ => runCallback CloseListener (onRt (Rt.setReadyState k CLOSED) s)
      end
  | SocketError k =>
      match readyState (rt s) k with
      | CLOSED => s
      | _ => runCallback ErrorListener s
      end
  | CheckSettled outcome =>
      match inflight (rt s) with
      | O => s
      | S n => runCallback (CheckContinuation outcome) (onRt (Rt.setInflight n) s)
      end
  | StopCalled => runCallback StopHandle s
  end.

Definition run (es : list event) (s : Session) : Session :=
  foldl (fun acc e => step e acc) s es.

(** Anything that can happen to a session: a turn of the event loop, or
    a callback that runs although its timer or socket is gone. *)
Definition happen (a : event + callback) (s : Session) : Session :=
  match a with
  | inl e => step e s
  | inr c => runCallback c s
  end.

Definition happenAll (l : list (event + callback)) (s : Session) : Session :=
  foldl (fun acc a => happen a acc) s l.

End Watcher.

Arguments startPolling {Settings Payload} _ _ _.
Arguments messageListener {Settings Payload} _ _ _ _ _.
Arguments runCallback {Settings Payload} _ _ _ _ _.
Arguments wsUrlOf {Settings Payload} _ _.
Arguments startSession {Settings Payload} _ _ _ _.
Arguments step {Settings Payload} _ _ _ _ _.
Arguments run {Settings Payload} _ _ _ _ _.
Arguments happen {Settings Payload} _ _ _ _ _.
Arguments happenAll {Settings Payload} _ _ _ _ _.

(** [startGuardWatcher]: [None] when the method has no guard. *)
Definition startGuardWatcher {Settings Payload : Type}
    (guard : option (UnlockGuardDefinition Settings Payload))
    (settings : Settings) (heartbeatMs : option Z) (pollIntervalMs : option Z) : option Session :=
  match guard with
  | None => None
  | Some g => Some (startSession g settings (default 5000 heartbeatMs) pollIntervalMs)
  end.

(** ** Vocabulary of the statements *)

(** Surface forms of a pattern. *)
Definition startsWithSpace (p : string) : bool :=
  match p with
  | String c _ => isWhiteSpace c
  | EmptyString => false
  end.

Definition hasScheme (p : string) : bool :=
  startsWith (toLowerCase p) "http://" || startsWith (toLowerCase p) "https://".

Definition hasWww (p : string) : bool := startsWith (toLowerCase p) "www.".

Definition hasWildcard (p : string) : bool := startsWith (toLowerCase p) "*.".

Fixpoint noWhiteSpace (s : string) : bool :=
  match s with
  | EmptyString => true
  | String c r => negb (isWhiteSpace c) && noWhiteSpace r
  end.

(** The value of [normalized] in [patternToDnrFilter]. *)
Definition normalizePattern (p : string) : string :=
  removePrefix "www." (removeScheme (trim (toLowerCase p))).

(** Two patterns with the same filter, and so the same [regexFilter]. *)
Definition sameTranslation (p q : string) : Prop :=
  patternToDnrFilter p = patternToDnrFilter q /\
  urlFilterToRegex (patternToDnrFilter p) = urlFilterToRegex (patternToDnrFilter q).

(** Every grant of session storage is stored under the key of its own
    site. *)
Definition keyedBySite (UNLOCK_PREFIX : string) (s : gmap string UnlockState) : Prop :=
  forall key st, s !! key = Some st -> startsWith key UNLOCK_PREFIX = true ->
    key = UNLOCK_PREFIX +:+ siteId st.

(** A browser with nothing stored. *)
Definition emptyBrowser : Browser :=
  {| blockedSites := []; dynamicRules := []; session := ∅; alarms := ∅;
     tabs := []; updateCalls := [] |}.

(** The vocabulary of the statements on the watcher. *)
Section WatcherVocabulary.

Variables Settings Payload : Type.
Variable guard : UnlockGuardDefinition Settings Payload.
Variable settings : Settings.
Variable heartbeatMs : Z.
Variable pollIntervalMsOption : option Z.
Variable jsonParse : string -> option Payload.

(** The sessions a started watcher can be in. *)
Definition reachable (s : Session) : Prop :=
  exists es : list event,
    s = run guard settings jsonParse es
          (startSession guard settings heartbeatMs pollIntervalMsOption).

(** The state that event [e] hands to [handleGuardState] in session [s]:
    the state a check settled with (the offline state when it threw),
    or the state read from a message of an open socket. *)
Definition delivered (e : event) (s : Session) : option UnlockGuardState :=
  match e with
  | CheckSettled outcome =>
      match inflight (rt s) with
      | O => None
      | S _ => Some (default offlineState outcome)
      end
  | SocketMessage k data =>
      match readyState (rt s) k with
      | OPEN =>
          match jsonParse data, parseWebSocketMessage guard with
          | Some payload, Some parse => parse payload settings
          | _, _ => None
          end
      | _ => None
      end
  | _ => None
  end.

End WatcherVocabulary.

Arguments reachable {Settings Payload} _ _ _ _ _ _.
Arguments delivered {Settings Payload} _ _ _ _ _.

(** A guard for worked examples: the guard of the AI-agent method with a
    companion server that reports an idle agent and offers a stream. *)
Definition exampleStatus : AgentStatus :=
  {| st_active := false; st_waitingForInput := 0;
     st_reason := Some idle; st_statusCode := None |}.

Definition exampleGuard : UnlockGuardDefinition (option AiAgentSettings) unit :=
  claudeGuard unit (fun _ => Some exampleStatus) (fun _ => Some exampleStatus)
    (fun _ => Some "ws://localhost:8765/ws").

Definition exampleSettings : option AiAgentSettings :=
  Some {| serverUrl := Some "http://localhost:8765"; allowWhileWaitingForInput := None |}.

Definition exampleSession : Session :=
  startSession exampleGuard exampleSettings 5000 None.

(** Five socket closes in a row, each followed by the reconnect timeout
    it schedules and never by an open. The handles are those of a
    session started with a stream: the first socket is 2, and every
    reconnect takes the next two handles for its timeout and its
    socket. *)
Definition fiveCloses : list event :=
  [ SocketClose 2; ReconnectTimeout; SocketClose 6; ReconnectTimeout;
    SocketClose 8; ReconnectTimeout; SocketClose 10; ReconnectTimeout;
    SocketClose 12 ].

(** [t] is the handle of one of the three interval timers. *)
Definition isIntervalHandle (t : nat) (v : Vars) : Prop :=
  pollTimer v = Some t \/ heartbeatTimer v = Some t \/ wsPingTimer v = Some t.

(** The timers and the socket of the runtime are those the variables of
    the watcher refer to; after [stop] there is none. *)
Definition tracked (s : Session) : Prop :=
  if stopped (vars s) then
    liveTimers (rt s) = [] /\ socket (vars s) = None /\
    (forall k, Rt.isActive (readyState (rt s) k) = false)
  else
    (forall t, t ∈ liveTimers (rt s) <->
               isIntervalHandle t (vars s) \/ reconnectTimer (vars s) = Some t) /\
    (forall t, isIntervalHandle t (vars s) -> (t < nextHandle (rt s))%nat) /\
    (forall t, reconnectTimer (vars s) = Some t -> ~ isIntervalHandle t (vars s)) /\
    (forall k, Rt.isActive (readyState (rt s) k) = true -> socket (vars s) = Some k).

(** Two sessions that agree on everything [tracked] reads. *)
Definition sameShape (s s' : Session) : Prop :=
  stopped (vars s') = stopped (vars s) /\
  socket (vars s') = socket (vars s) /\
  pollTimer (vars s') = pollTimer (vars s) /\
  heartbeatTimer (vars s') = heartbeatTimer (vars s) /\
  wsPingTimer (vars s') = wsPingTimer (vars s) /\
  reconnectTimer (vars s') = reconnectTimer (vars s) /\
  liveTimers (rt s') = liveTimers (rt s) /\
  readyState (rt s') = readyState (rt s) /\
  nextHandle (rt s') = nextHandle (rt s).

(** ** The rest of the DNR blocker *)

(** [clearAllRules]: the request lists the identifiers to remove and
    adds no rule. *)
Definition clearAllRules (b : Browser) : Browser :=
  updateDynamicRules
    {| removeRuleIds := map rule_id (dynamicRules b); addRules := [] |} b.

Section DnrLifecycle.

Variable RULE_ID_BASE : Z.
Variable MAX_RULES_PER_SITE : Z.
Variable UNLOCK_PREFIX : string.
Variable ALARM_PREFIX : string.
Variable urlMatchesSiteRules : string -> BlockedSite -> bool.
Variable isInternalUrl : string -> bool.

(** [handleRelockAlarm]. *)
Definition handleRelockAlarm (nowSync : Z) (alarmName : string) (b : Browser)
    : Browser * option (string * list Z) :=
  if negb (startsWith alarmName ALARM_PREFIX) then (b, None)
  else
    let siteId := slice (String.length ALARM_PREFIX) alarmName in
    let r := revokeAccess RULE_ID_BASE MAX_RULES_PER_SITE UNLOCK_PREFIX ALARM_PREFIX
               urlMatchesSiteRules isInternalUrl nowSync siteId b in
    (r.1, Some (siteId, r.2)).

(** The body of the loop of [initializeDnr], for one entry of the
    snapshot of session storage. *)
Definition pruneExpired (now : Z) (b : Browser) (entry : string * UnlockState) : Browser :=
  let '(key, state) := entry in
  if startsWith key UNLOCK_PREFIX then
    if expiresAt state <=? now
    then alarmsClear (ALARM_PREFIX +:+ siteId state) (sessionRemove key b)
    else b
  else b.

(** [initializeDnr]; [now] is read before the loop, [nowSync] by the
    synchronisation that ends it. *)
Definition initializeDnr (now nowSync : Z) (b : Browser) : Browser :=
  let b := foldl (pruneExpired now) b (map_to_list (session b)) in
  syncDnrRules RULE_ID_BASE MAX_RULES_PER_SITE UNLOCK_PREFIX nowSync b.

End DnrLifecycle.

(** ** The OpenCode plugin

    The plugin keeps one module variable, [currentSessionId], and posts
    hooks to the companion server; [hooks] logs the payloads handed to
    [sendHook], oldest first. *)

Inductive HookEventName : Type :=
| UserPromptSubmit | PreToolUse | Stop | SessionStart | SessionEnd.

Section OpenCodePlugin.

(** The arguments of a tool, [Record<string, unknown>]. *)
Variable ToolInput : Type.

Record HookPayload := {
  session_id : string;
  hook_event_name : HookEventName;
  tool_name : option string;
  tool_input : option ToolInput;
  cwd : option string;
  source : string
}.

(** What the plugin reads of an event: its type, and the optional
    [sessionId] and [status]. *)
Record PluginEvent := {
  ev_type : string;
  ev_sessionId : option string;
  ev_status : option string
}.

Record PluginState := {
  currentSessionId : option string;
  hooks : list HookPayload
}.

(** Truth value of an optional string: set and not empty. *)
Definition truthy (o : option string) : bool :=
  match o with
  | Some s => negb (String.eqb s "")
  | None => false
  end.

Definition setCurrentSessionId (o : option string) (st : PluginState) : PluginState :=
  {| currentSessionId := o; hooks := hooks st |}.

(** [sendHook]: the request is fired and its outcome ignored. *)
Definition sendHook (payload : HookPayload) (st : PluginState) : PluginState :=
  {| currentSessionId := currentSessionId st; hooks := hooks st ++ [payload] |}.

(** [`opencode-${Date.now()}`]. *)
Definition freshSessionId (now : Z) : string := "opencode-" +:+ numberToString now.

(** [getSessionId]. *)
Definition getSessionId (now : Z) (event : PluginEvent) (st : PluginState)
    : string * PluginState :=
  if truthy (ev_sessionId event) then
    (default "" (ev_sessionId event), setCurrentSessionId (ev_sessionId event) st)
  else if truthy (currentSessionId st) then
    (default "" (currentSessionId st), st)
  else
    (freshSessionId now, setCurrentSessionId (Some (freshSessionId now)) st).

Definition sessionHook (sessionId : string) (name : HookEventName) (directory : string)
    : HookPayload :=
  {| session_id := sessionId; hook_event_name := name; tool_name := None;
     tool_input := None; cwd := Some directory; source := "opencode" |}.

(** The [event] handler of the plugin. *)
Definition onEvent (directory : string) (now : Z) (event : PluginEvent) (st : PluginState)
    : PluginState :=
  let '(sessionId, st) := getSessionId now event st in
  if String.eqb (ev_type event) "session.created" then
    sendHook (sessionHook sessionId SessionStart directory) st
  else if String.eqb (ev_type event) "session.deleted" then
    setCurrentSessionId None (sendHook (sessionHook sessionId SessionEnd directory) st)
  else if String.eqb (ev_type event) "session.idle" then
    sendHook (sessionHook sessionId Stop directory) st
  else if String.eqb (ev_type event) "session.status" then
    match ev_status event with
    | Some status =>
        if String.eqb status "running" || String.eqb status "active"
        then sendHook (sessionHook sessionId UserPromptSubmit directory) st
        else st
    | None => st
    end
  else st.

(** The ["tool.execute.before"] handler of the plugin. *)
Definition onToolExecuteBefore (now : Z) (tool : string) (args : ToolInput)
    (st : PluginState) : PluginState :=
  let sessionId :=
    if truthy (currentSessionId st) then default "" (currentSessionId st)
    else freshSessionId now in
  sendHook {| session_id := sessionId; hook_event_name := PreToolUse;
              tool_name := Some tool; tool_input := Some args; cwd := None;
              source := "opencode" |} st.

End OpenCodePlugin.

Arguments session_id {ToolInput} _.
Arguments hook_event_name {ToolInput} _.
Arguments tool_name {ToolInput} _.
Arguments currentSessionId {ToolInput} _.
Arguments hooks {ToolInput} _.
Arguments getSessionId {ToolInput} _ _ _.
Arguments onEvent {ToolInput} _ _ _ _.
Arguments onToolExecuteBefore {ToolInput} _ _ _ _.

(** A stored site and a browser for worked examples. *)
Definition exampleSite : BlockedSite :=
  {| id := "site-1"; enabled := true;
     rules := [ {| pattern := "example.com"; allow := false |};
                {| pattern := "example.com/ok"; allow := true |};
                {| pattern := "*.example.org"; allow := false |} ] |}.

Definition exampleBrowser : Browser :=
  {| blockedSites := [ exampleSite ]; dynamicRules := []; session := ∅; alarms := ∅;
     tabs := []; updateCalls := [] |}.

Definition otherSite : BlockedSite :=
  {| id := "site-2"; enabled := true;
     rules := [ {| pattern := "news.com"; allow := false |} ] |}.

Definition twoSiteBrowser : Browser :=
  {| blockedSites := [ exampleSite; otherSite ]; dynamicRules := []; session := ∅;
     alarms := ∅;
     tabs := [ {| tab_id := Some 7; tab_url := Some "https://news.com/today" |};
               {| tab_id := Some 8; tab_url := Some "https://example.com/" |};
               {| tab_id := None; tab_url := Some "https://news.com/" |} ];
     updateCalls := [] |}.

(** The block patterns of a site, as [createSiteRules] selects them. *)
Definition blockPatternsOf (site : BlockedSite) : list SiteRule :=
  List.filter (fun r => negb (allow r)) (rules site).

(** A guard without a stream, for worked examples. *)
Definition examplePollGuard : UnlockGuardDefinition (option AiAgentSettings) unit :=
  {| check := claudeCheck (fun _ => Some exampleStatus);
     getWebSocketUrl := None; parseWebSocketMessage := None;
     pollIntervalMs := Some 5000 |}.

(** ** Invariants of a watcher session *)

Definition allActive (l : list UnlockGuardState) : Prop :=
  Forall (fun st => active st = true) l.

(** The states handed to the consumer are active, but possibly the last
    one, after which the session is stopped; [lastState] is the last of
    them. *)
Definition emissionOrder (s : Session) : Prop :=
  allActive (removelast (emitted (rt s))) /\
  (stopped (vars s) = false -> allActive (emitted (rt s))) /\
  lastState (vars s) = last (emitted (rt s)).

(** [s'] has emitted what [s] has, and runs only if [s] does. *)
Definition quiet (s s' : Session) : Prop :=
  emitted (rt s') = emitted (rt s) /\
  lastState (vars s') = lastState (vars s) /\
  (stopped (vars s') = false -> stopped (vars s) = false).

(** The reconnect counter is not negative and every delay asked of
    [setTimeout] lies between one and ten seconds. *)
Definition backoffBounded (s : Session) : Prop :=
  0 <= reconnectAttempts (vars s) /\
  Forall (fun d => 1000 <= d <= 10000) (timeouts (rt s)).

(** A session that polls and does nothing else. *)
Definition pollOnly (s : Session) : Prop :=
  socket (vars s) = None /\ heartbeatTimer (vars s) = None /\
  wsPingTimer (vars s) = None /\ reconnectTimer (vars s) = None /\
  (forall k, readyState (rt s) k = CLOSED) /\
  timeouts (rt s) = [] /\ sent (rt s) = [] /\
  length (intervals (rt s)) = 1%nat.

(** [s'] is stopped and its logs are those of [s]. *)
Definition frozen (s s' : Session) : Prop :=
  stopped (vars s') = true /\
  emitted (rt s') = emitted (rt s) /\
  timeouts (rt s') = timeouts (rt s) /\
  intervals (rt s') = intervals (rt s) /\
  sent (rt s') = sent (rt s).

(** ** What a regular expression matches

    [Sem r atStart atEnd w]: the expression [r] matches the whole of
    [w], read at a position that is the start of the subject when
    [atStart] and followed by the end of the subject when [atEnd]. *)

Module RegexSem.

Import Regex.

(** The flag [f] if [w] is empty, false otherwise. *)
Definition flagIfEmpty (f : bool) (w : string) : bool :=
  match w with
  | EmptyString => f
  | String _ _ => false
  end.

Inductive Sem : re -> bool -> bool -> string -> Prop :=
| SemEps s e : Sem Eps s e ""
| SemChr c s e : Sem (Chr c) s e (String c "")
| SemDot c s e : isNewline c = false -> Sem Dot s e (String c "")
| SemAnyUnit c s e : Sem AnyUnit s e (String c "")
| SemBol e : Sem Bol true e ""
| SemEol s : Sem Eol s true ""
| SemCat a b s e w1 w2 :
    Sem a s (flagIfEmpty e w2) w1 -> Sem b (flagIfEmpty s w1) e w2 ->
    Sem (Cat a b) s e (w1 +:+ w2)
| SemAltL a b s e w : Sem a s e w -> Sem (Alt a b) s e w
| SemAltR a b s e w : Sem b s e w -> Sem (Alt a b) s e w
| SemStarNil a s e : Sem (Star a) s e ""
| SemStarCons a s e c w1 w2 :
    Sem a s (flagIfEmpty e w2) (String c w1) -> Sem (Star a) false e w2 ->
    Sem (Star a) s e (String c w1 +:+ w2).

(** The items of a group, in order. *)
Definition sequence (l : list re) : re := foldr Cat Eps l.

Definition pushAll (l : list re) (f : frame) : frame :=
  fold_left (fun acc r => push r acc) l f.

(** What one character of a filter becomes in the expression: [*] is
    [.*], any other character is itself. *)
Definition itemOf (c : ascii) : re :=
  if Ascii.eqb c "*"%char then Star Dot else Chr c.

Fixpoint itemsOf (s : string) : list re :=
  match s with
  | EmptyString => []
  | String c r => itemOf c :: itemsOf r
  end.

Fixpoint literal (s : string) : list re :=
  match s with
  | EmptyString => []
  | String c r => Chr c :: literal r
  end.

(** [https?://(www\.)?]. *)
Definition urlPrefixItems : list re :=
  literal "http" ++ [Opt (Chr "s"%char)] ++ literal "://"
    ++ [Opt (sequence (literal "www."))].

(** The expression [urlFilterToRegex] writes for a filter of body [d]. *)
Definition regexOfBody (d : string) : re :=
  Cat Bol (Cat (sequence (urlPrefixItems ++ itemsOf d ++ [Star Dot])) (Cat Eol Eps)).

Fixpoint noStar (s : string) : bool :=
  match s with
  | EmptyString => true
  | String c r => negb (Ascii.eqb c "*"%char) && noStar r
  end.

Fixpoint noNewline (s : string) : bool :=
  match s with
  | EmptyString => true
  | String c r => negb (isNewline c) && noNewline r
  end.

(** The start of a URL: [http://] or [https://], then [www.] or
    nothing. *)
Definition urlPrefixText (secure www : bool) : string :=
  "http" +:+ ((if secure then "s" else "") +:+ ("://" +:+ (if www then "www." else ""))).

End RegexSem.

(** The body of the filter of a pattern: the filter without its [||]. *)
Definition filterBody (p : string) : string := removePrefix "||" (patternToDnrFilter p).

(** * Properties *)

(** ** Worked examples of the translation *)

Example patternToDnrFilter_ex1 :
  patternToDnrFilter "  HTTPS://WWW.Example.com " = "||example.com".
Proof. reflexivity. Qed.

Example urlFilterToRegex_ex1 :
  urlFilterToRegex "||example.com" = "^(https?://(www\.)?example\.com.*)$".
Proof. reflexivity. Qed.

Example urlFilterToRegex_ex2 :
  urlFilterToRegex "||a*b.c/d?e" = "^(https?://(www\.)?a.*b\.c/d\?e.*)$".
Proof. reflexivity. Qed.

Example regex_ex1 :
  Regex.test "^(https?://(www\.)?example\.com.*)$" "https://www.example.com/a?b" = Some true.
Proof. vm_compute. reflexivity. Qed.

Example regex_ex2 :
  Regex.test "^(https?://(www\.)?example\.com.*)$" "https://wwwxexample.com/" = Some false.
Proof. vm_compute. reflexivity. Qed.

Example regex_ex3 :
  Regex.test "a(b|cd)*e$" "xxacdbcde" = Some true /\
  Regex.test "a(b|cd)*e$" "xxacdbcdex" = Some false /\
  Regex.test "^ab+c" "abbbcz" = Some true /\
  Regex.test "^ab+c" "zabbbc" = Some false /\
  Regex.test "a\*b" "xa*b" = Some true /\
  Regex.test "a\*b" "xaab" = Some false.
Proof. vm_compute. repeat split; reflexivity. Qed.

(** ** Strings *)

Section StringFacts.

Lemma isWhiteSpace_lowerChar c : isWhiteSpace (lowerChar c) = isWhiteSpace c.
Proof. destruct c as [[] [] [] [] [] [] [] []]; reflexivity. Qed.

Lemma toLowerCase_app a b :
  toLowerCase (a +:+ b) = toLowerCase a +:+ toLowerCase b.
Proof. induction a as [|c a IH]; simpl; [reflexivity | now rewrite IH]. Qed.

Lemma allWhiteSpace_toLowerCase s : allWhiteSpace (toLowerCase s) = allWhiteSpace s.
Proof.
  induction s as [|c s IH]; simpl; [reflexivity|].
  now rewrite isWhiteSpace_lowerChar, IH.
Qed.

Lemma allWhiteSpace_app a b :
  allWhiteSpace (a +:+ b) = allWhiteSpace a && allWhiteSpace b.
Proof.
  induction a as [|c a IH]; simpl; [reflexivity|].
  now rewrite IH, andb_assoc.
Qed.

Lemma trimEnd_allWhiteSpace s : allWhiteSpace s = true -> trimEnd s = "".
Proof. destruct s as [|c s]; [reflexivity|]. intros H. unfold trimEnd. now rewrite H. Qed.

Lemma trimStart_allWhiteSpace s : allWhiteSpace s = true -> trimStart s = "".
Proof.
  induction s as [|c s IH]; simpl; [reflexivity|].
  intros [Hc Hs]%andb_true_iff. rewrite Hc. auto.
Qed.

Lemma trimEnd_app_space s r :
  allWhiteSpace r = true -> trimEnd (s +:+ r) = trimEnd s.
Proof.
  intros Hr. induction s as [|c s IH].
  - simpl. now apply trimEnd_allWhiteSpace.
  - change (trimEnd (String c (s +:+ r)) = trimEnd (String c s)).
    cbn [trimEnd]. rewrite IH.
    change (allWhiteSpace (String c (s +:+ r)))
      with (isWhiteSpace c && allWhiteSpace (s +:+ r)).
    change (allWhiteSpace (String c s)) with (isWhiteSpace c && allWhiteSpace s).
    now rewrite allWhiteSpace_app, Hr, andb_true_r.
Qed.

Lemma trimStart_space_app l s :
  allWhiteSpace l = true -> trimStart (l +:+ s) = trimStart s.
Proof.
  induction l as [|c l IH]; simpl; [reflexivity|].
  intros [Hc Hl]%andb_true_iff. rewrite Hc. auto.
Qed.

Lemma trim_trimStart_app_space p r :
  allWhiteSpace r = true -> trimEnd (trimStart (p +:+ r)) = trimEnd (trimStart p).
Proof.
  intros Hr. induction p as [|c p IH].
  - change ("" +:+ r) with r. now rewrite (trimStart_allWhiteSpace r Hr).
  - change (String c p +:+ r) with (String c (p +:+ r)).
    cbn [trimStart]. destruct (isWhiteSpace c); [exact IH|].
    change (String c (p +:+ r)) with (String c p +:+ r).
    now apply trimEnd_app_space.
Qed.

(** Surrounding white space does not survive [trim]. *)
Lemma trim_surrounded l p r :
  allWhiteSpace l = true -> allWhiteSpace r = true ->
  trim (l +:+ p +:+ r) = trim p.
Proof.
  intros Hl Hr. unfold trim.
  rewrite (trimStart_space_app l _ Hl). now apply trim_trimStart_app_space.
Qed.

Lemma trimStart_no_space s : startsWithSpace s = false -> trimStart s = s.
Proof. destruct s as [|c s]; simpl; [reflexivity|]. now intros ->. Qed.

Lemma trimEnd_noWhiteSpace_app a s :
  noWhiteSpace a = true -> trimEnd (a +:+ s) = a +:+ trimEnd s.
Proof.
  induction a as [|c a IH]; [reflexivity|].
  intros [Hc Ha]%andb_true_iff. apply negb_true_iff in Hc.
  change (String c a +:+ s) with (String c (a +:+ s)).
  cbn [trimEnd allWhiteSpace]. rewrite Hc. simpl. now rewrite IH.
Qed.

Lemma stripPrefix_app a s : stripPrefix a (a +:+ s) = Some s.
Proof.
  induction a as [|c a IH]; simpl; [now destruct s|].
  now rewrite Ascii.eqb_refl.
Qed.

Lemma stripPrefix_trimEnd a s r :
  stripPrefix a (trimEnd s) = Some r -> exists r', stripPrefix a s = Some r'.
Proof.
  revert s r. induction a as [|c a IH]; intros s r.
  - destruct s; simpl; eauto.
  - destruct s as [|b s]; [discriminate|].
    cbn [trimEnd]. destruct (allWhiteSpace (String b s)); [discriminate|].
    simpl. destruct (Ascii.eqb c b); [|discriminate]. apply IH.
Qed.

Lemma startsWith_trimEnd a s :
  startsWith s a = false -> startsWith (trimEnd s) a = false.
Proof.
  unfold startsWith. intros H.
  destruct (stripPrefix a (trimEnd s)) as [r|] eqn:E; [|reflexivity].
  apply stripPrefix_trimEnd in E as [r' E]. now rewrite E in H.
Qed.

Lemma removePrefix_absent a s : startsWith s a = false -> removePrefix a s = s.
Proof. unfold startsWith, removePrefix. now destruct (stripPrefix a s). Qed.

Lemma removeScheme_absent s :
  startsWith s "http://" = false -> startsWith s "https://" = false ->
  removeScheme s = s.
Proof.
  intros H1 H2. unfold removeScheme.
  rewrite (removePrefix_absent _ _ H2).
  unfold startsWith in H1. now destruct (stripPrefix "http://" s).
Qed.

End StringFacts.

(** ** RuleTranslator *)

Section Translation.

Lemma patternToDnrFilter_normalized p :
  patternToDnrFilter p =
    if startsWith (normalizePattern p) "*."
    then "||" +:+ slice 2 (normalizePattern p)
    else "||" +:+ normalizePattern p.
Proof. reflexivity. Qed.

Lemma sameTranslation_normalized p q :
  normalizePattern p = normalizePattern q -> sameTranslation p q.
Proof.
  intros H. unfold sameTranslation.
  rewrite !patternToDnrFilter_normalized, H. split; reflexivity.
Qed.

Lemma startsWithSpace_toLowerCase p :
  startsWithSpace (toLowerCase p) = startsWithSpace p.
Proof. destruct p; simpl; [reflexivity | apply isWhiteSpace_lowerChar]. Qed.

(** A pattern with no leading white space: [trim] only cuts its end. *)
Lemma trim_lower_plain p :
  startsWithSpace p = false ->
  trim (toLowerCase p) = trimEnd (toLowerCase p).
Proof.
  intros H. unfold trim. rewrite trimStart_no_space; [reflexivity|].
  now rewrite startsWithSpace_toLowerCase.
Qed.

(** A prefix [a] in lower case and free of white space stays in front
    of the trimmed, lower-cased pattern. *)
Lemma trim_lower_prefixed a p :
  toLowerCase a = a -> noWhiteSpace a = true -> startsWithSpace a = false ->
  a <> "" ->
  trim (toLowerCase (a +:+ p)) = a +:+ trimEnd (toLowerCase p).
Proof.
  intros Ha Hws Hsp Hne. rewrite toLowerCase_app, Ha. unfold trim.
  rewrite trimStart_no_space.
  - now apply trimEnd_noWhiteSpace_app.
  - destruct a; [contradiction | exact Hsp].
Qed.

Lemma normalizePattern_plain p :
  startsWithSpace p = false -> hasScheme p = false ->
  normalizePattern p = removePrefix "www." (trimEnd (toLowerCase p)).
Proof.
  intros Hsp [H1 H2]%orb_false_iff. unfold normalizePattern.
  rewrite (trim_lower_plain p Hsp).
  now rewrite removeScheme_absent by now apply startsWith_trimEnd.
Qed.

Lemma normalizePattern_http p :
  normalizePattern ("http://" +:+ p) = removePrefix "www." (trimEnd (toLowerCase p)).
Proof.
  unfold normalizePattern.
  rewrite (trim_lower_prefixed "http://") by (reflexivity || discriminate).
  unfold removeScheme. now rewrite stripPrefix_app.
Qed.

Lemma normalizePattern_https p :
  normalizePattern ("https://" +:+ p) = removePrefix "www." (trimEnd (toLowerCase p)).
Proof.
  unfold normalizePattern.
  rewrite (trim_lower_prefixed "https://") by (reflexivity || discriminate).
  unfold removeScheme.
  change (stripPrefix "http://" ("https://" +:+ trimEnd (toLowerCase p))) with (@None string).
  unfold removePrefix at 2. now rewrite stripPrefix_app.
Qed.

Lemma normalizePattern_www p :
  normalizePattern ("www." +:+ p) = trimEnd (toLowerCase p).
Proof.
  unfold normalizePattern.
  rewrite (trim_lower_prefixed "www.") by (reflexivity || discriminate).
  change (removeScheme ("www." +:+ trimEnd (toLowerCase p)))
    with ("www." +:+ trimEnd (toLowerCase p)).
  unfold removePrefix. now rewrite stripPrefix_app.
Qed.

Lemma normalizePattern_wildcard p :
  normalizePattern ("*." +:+ p) = "*." +:+ trimEnd (toLowerCase p).
Proof.
  unfold normalizePattern.
  now rewrite (trim_lower_prefixed "*.") by (reflexivity || discriminate).
Qed.

Lemma patternToDnrFilter_wildcard p :
  patternToDnrFilter ("*." +:+ p) = "||" +:+ trimEnd (toLowerCase p).
Proof. rewrite patternToDnrFilter_normalized, normalizePattern_wildcard. reflexivity. Qed.

End Translation.

(** C10 (as amended). The filter of a pattern, and with it the regular
    expression of its rule, does not change with letter case or with
    surrounding white space. It does not change with a leading [http://]
    or [https://] when the pattern itself starts with neither white
    space nor a scheme; nor with a leading [www.] when in addition the
    pattern does not start with [www.]; and [*.d] and [d] have the same
    filter when in addition [d] does not start with [*.]. *)
Theorem pattern_translation_surface_forms (p : string) :
  (forall q, toLowerCase q = toLowerCase p -> sameTranslation q p) /\
  (forall l r, allWhiteSpace l = true -> allWhiteSpace r = true ->
     sameTranslation (l +:+ p +:+ r) p) /\
  (startsWithSpace p = false -> hasScheme p = false ->
     sameTranslation ("http://" +:+ p) p /\ sameTranslation ("https://" +:+ p) p) /\
  (startsWithSpace p = false -> hasScheme p = false -> hasWww p = false ->
     sameTranslation ("www." +:+ p) p) /\
  (startsWithSpace p = false -> hasScheme p = false -> hasWww p = false ->
   hasWildcard p = false ->
     sameTranslation ("*." +:+ p) p).
Proof.
  split; [|split; [|split; [|split]]].
  - intros q Hq. apply sameTranslation_normalized. unfold normalizePattern. now rewrite Hq.
  - intros l r Hl Hr. apply sameTranslation_normalized. unfold normalizePattern.
    rewrite !toLowerCase_app.
    now rewrite trim_surrounded by now rewrite allWhiteSpace_toLowerCase.
  - intros Hsp Hsc. split; apply sameTranslation_normalized.
    + now rewrite normalizePattern_http, normalizePattern_plain.
    + now rewrite normalizePattern_https, normalizePattern_plain.
  - intros Hsp Hsc Hw. apply sameTranslation_normalized.
    rewrite normalizePattern_www, normalizePattern_plain by assumption.
    symmetry. apply removePrefix_absent. now apply startsWith_trimEnd.
  - intros Hsp Hsc Hw Hwild.
    assert (Hn : normalizePattern p = trimEnd (toLowerCase p)).
    { rewrite normalizePattern_plain by assumption.
      apply removePrefix_absent. now apply startsWith_trimEnd. }
    assert (Hf : patternToDnrFilter ("*." +:+ p) = patternToDnrFilter p).
    { rewrite patternToDnrFilter_wildcard, (patternToDnrFilter_normalized p), Hn.
      now rewrite (startsWith_trimEnd "*." _ Hwild). }
    unfold sameTranslation. now rewrite Hf.
Qed.

Lemma pattern_translation_surface_forms_witness :
  sameTranslation "EXAMPLE.com" "example.com" /\
  sameTranslation "  example.com " "example.com" /\
  sameTranslation "http://example.com" "example.com" /\
  sameTranslation "https://example.com" "example.com" /\
  sameTranslation "www.example.com" "example.com" /\
  sameTranslation "*.example.com" "example.com".
Proof.
  destruct (pattern_translation_surface_forms "example.com") as (Hc & Hs & Hh & Hw & Hd).
  split; [apply Hc; reflexivity|].
  split; [apply (Hs "  " " "); reflexivity|].
  split; [apply Hh; reflexivity|].
  split; [apply Hh; reflexivity|].
  split; [apply Hw; reflexivity|].
  apply Hd; reflexivity.
Defined.

(** C10 (as stated) fails: the prefixes are removed once, in a fixed
    order. [*.www.example.com] keeps its [www.], which the bare
    [www.example.com] loses; a second [www.] or a second scheme stays. *)
Lemma pattern_translation_not_invariant :
  patternToDnrFilter ("*." +:+ "www.example.com") <> patternToDnrFilter "www.example.com" /\
  patternToDnrFilter ("www." +:+ "www.example.com") <> patternToDnrFilter "www.example.com" /\
  patternToDnrFilter ("https://" +:+ "http://example.com") <> patternToDnrFilter "http://example.com".
Proof. repeat split; discriminate. Qed.

(** The regular expression of a [*.d] pattern, for every [d]: after the
    scheme it allows [www.] and nothing else in front of the domain. *)
Lemma wildcard_regex_shape (d : string) :
  urlFilterToRegex (patternToDnrFilter ("*." +:+ d)) =
    "^(https?://(www\.)?"
      +:+ expandWildcards (escapeSpecials (trimEnd (toLowerCase d))) +:+ ".*)$".
Proof.
  rewrite patternToDnrFilter_wildcard. unfold urlFilterToRegex, removePrefix.
  now rewrite stripPrefix_app.
Qed.

(** C4 (what the code does). The rule made from the block
    pattern [*.example.com] matches the domain and its [www.] variant,
    and does not match a request to the subdomain [foo.example.com]. *)
Theorem wildcard_rule_misses_subdomain (RULE_ID_BASE MAX_RULES_PER_SITE : Z) :
  let site := {| id := "site-1"; enabled := true;
                 rules := [ {| pattern := "*.example.com"; allow := false |} ] |} in
  let filters := map regexFilter (createSiteRules RULE_ID_BASE MAX_RULES_PER_SITE site 0) in
  filters = [ "^(https?://(www\.)?example\.com.*)$" ] /\
  map (fun f => Regex.test f "https://example.com/") filters = [ Some true ] /\
  map (fun f => Regex.test f "https://www.example.com/") filters = [ Some true ] /\
  map (fun f => Regex.test f "https://foo.example.com/") filters = [ Some false ] /\
  map (fun f => Regex.test f "http://a.b.example.com/page") filters = [ Some false ].
Proof. cbv zeta. repeat split; vm_compute; reflexivity. Qed.

Section RuleIds.

Variables RULE_ID_BASE MAX_RULES_PER_SITE : Z.

Lemma getRuleId_decompose siteIndex patternIndex :
  0 <= patternIndex < MAX_RULES_PER_SITE ->
  (getRuleId RULE_ID_BASE MAX_RULES_PER_SITE siteIndex patternIndex - RULE_ID_BASE) / MAX_RULES_PER_SITE = siteIndex /\
  (getRuleId RULE_ID_BASE MAX_RULES_PER_SITE siteIndex patternIndex - RULE_ID_BASE) mod MAX_RULES_PER_SITE = patternIndex.
Proof.
  intros H. unfold getRuleId.
  replace (RULE_ID_BASE + siteIndex * MAX_RULES_PER_SITE + patternIndex - RULE_ID_BASE)
    with (patternIndex + siteIndex * MAX_RULES_PER_SITE) by ring.
  split.
  - rewrite Z.div_add by lia. rewrite Z.div_small by lia. lia.
  - rewrite Z.mod_add by lia. now apply Z.mod_small.
Qed.

(** C8. Two distinct pairs of a site index and a pattern index below
    the per-site cap never get the same rule identifier. *)
Theorem getRuleId_injective (s1 p1 s2 p2 : Z) :
  0 <= p1 < MAX_RULES_PER_SITE ->
  0 <= p2 < MAX_RULES_PER_SITE ->
  (s1, p1) <> (s2, p2) ->
  getRuleId RULE_ID_BASE MAX_RULES_PER_SITE s1 p1
  <> getRuleId RULE_ID_BASE MAX_RULES_PER_SITE s2 p2.
Proof.
  intros H1 H2 Hne Heq. apply Hne.
  destruct (getRuleId_decompose s1 p1 H1) as [Hs1 Hp1].
  destruct (getRuleId_decompose s2 p2 H2) as [Hs2 Hp2].
  rewrite Heq in Hs1, Hp1. congruence.
Qed.

End RuleIds.

Lemma getRuleId_injective_witness :
  getRuleId 1000 100 1 99 <> getRuleId 1000 100 2 0 /\
  getRuleId 1000 100 0 7 <> getRuleId 1000 100 3 7.
Proof.
  split; apply getRuleId_injective; try lia; intros [=].
Defined.

(** ** BlockingSynchronizer and UnlockStateStore *)

Section DnrProperties.

Variables RULE_ID_BASE MAX_RULES_PER_SITE : Z.
Variables UNLOCK_PREFIX ALARM_PREFIX : string.

Lemma filter_listed_ids (l : list Rule) (ids : list Z) :
  (forall r, r ∈ l -> rule_id r ∈ ids) ->
  List.filter (fun r => negb (bool_decide (rule_id r ∈ ids))) l = [].
Proof.
  induction l as [|r l IH]; intros H; [reflexivity|].
  simpl. rewrite bool_decide_eq_true_2 by (apply H; left).
  simpl. apply IH. intros r' Hr'. apply H. now right.
Qed.

(** Removing the identifiers of all the rules leaves no rule. *)
Lemma updateDynamicRules_remove_all (b : Browser) (rs : list Rule) :
  dynamicRules
    (updateDynamicRules {| removeRuleIds := map rule_id (dynamicRules b); addRules := rs |} b)
  = rs.
Proof.
  unfold updateDynamicRules. simpl.
  rewrite filter_listed_ids; [reflexivity|].
  intros r Hr. apply list_elem_of_fmap. eauto.
Qed.

Lemma unlocked_scan (l : list (string * UnlockState)) (now : Z) (acc : gset string) sid :
  sid ∈ foldl (fun (unlockedIds : gset string) '(key, state) =>
                 if startsWith key UNLOCK_PREFIX then
                   if bool_decide (expiresAt state > now)
                   then unlockedIds ∪ {[ siteId state ]}
                   else unlockedIds
                 else unlockedIds) acc l
  <-> sid ∈ acc \/
      exists key st, (key, st) ∈ l /\ startsWith key UNLOCK_PREFIX = true /\
                     expiresAt st > now /\ siteId st = sid.
Proof.
  revert acc. induction l as [|[key st] l IH]; intros acc; simpl.
  - split; [auto|]. intros [H|(k & s & H & _)]; [exact H|]. inversion H.
  - rewrite IH. clear IH. split.
    + intros [H|(k & s & H & Hr)].
      * destruct (startsWith key UNLOCK_PREFIX) eqn:Ep; [|auto].
        case_bool_decide as Ee; [|auto].
        apply elem_of_union in H as [H|H]; [auto|].
        apply elem_of_singleton in H. right. exists key, st.
        split; [left|]. auto.
      * right. exists k, s. split; [now right | exact Hr].
    + intros [H|(k & s & H & Hp & He & Hs)].
      * left. destruct (startsWith key UNLOCK_PREFIX); [|exact H].
        case_bool_decide; [|exact H]. apply elem_of_union. now left.
      * apply elem_of_cons in H as [H|H].
        -- inversion H; subst k s. left. rewrite Hp.
           rewrite bool_decide_eq_true_2 by exact He.
           apply elem_of_union. right. now apply elem_of_singleton.
        -- right. exists k, s. auto.
Qed.

(** The sites [getUnlockedSiteIds] reports: those named by a grant
    stored under a prefixed key and not yet expired. *)
Lemma getUnlockedSiteIds_spec (now : Z) (b : Browser) (sid : string) :
  sid ∈ getUnlockedSiteIds UNLOCK_PREFIX now b <->
  exists key st, session b !! key = Some st /\ startsWith key UNLOCK_PREFIX = true /\
                 expiresAt st > now /\ siteId st = sid.
Proof.
  unfold getUnlockedSiteIds. rewrite unlocked_scan. split.
  - intros [H|(k & s & H & Hr)]; [now apply not_elem_of_empty in H|].
    exists k, s. split; [now apply elem_of_map_to_list | exact Hr].
  - intros (k & s & H & Hr). right. exists k, s.
    split; [now apply elem_of_map_to_list | exact Hr].
Qed.

Lemma siteContribution_skipped unlocked index site :
  enabled site = false \/ id site ∈ unlocked ->
  siteContribution RULE_ID_BASE MAX_RULES_PER_SITE unlocked index site = [].
Proof.
  unfold siteContribution. intros [H|H].
  - now rewrite H.
  - destruct (enabled site); [|reflexivity]. simpl.
    now rewrite bool_decide_eq_true_2.
Qed.

Lemma siteContribution_kept unlocked index site :
  enabled site = true -> id site ∉ unlocked ->
  siteContribution RULE_ID_BASE MAX_RULES_PER_SITE unlocked index site
  = createSiteRules RULE_ID_BASE MAX_RULES_PER_SITE site index.
Proof.
  unfold siteContribution. intros -> H. simpl.
  now rewrite bool_decide_eq_false_2.
Qed.

(** C1. One call of [syncDnrRules] makes one request to the provider:
    it removes the identifiers of all the dynamic rules there are and
    adds the rules computed from the stored sites and from the grants of
    session storage that have not expired. The provider then holds
    exactly the new rules. A site that is disabled or unlocked
    contributes no rule, and every new rule is a rule of an enabled site
    that is not unlocked. *)
Theorem syncDnrRules_replaces_rule_set (now : Z) (b : Browser) :
  let unlocked := getUnlockedSiteIds UNLOCK_PREFIX now b in
  let newRules := computeNewRules RULE_ID_BASE MAX_RULES_PER_SITE UNLOCK_PREFIX now b in
  let b' := syncDnrRules RULE_ID_BASE MAX_RULES_PER_SITE UNLOCK_PREFIX now b in
  updateCalls b' =
    updateCalls b ++ [ {| removeRuleIds := map rule_id (dynamicRules b);
                          addRules := newRules |} ] /\
  dynamicRules b' = newRules /\
  newRules =
    mjoin (imap (fun index site =>
                   if enabled site && negb (bool_decide (id site ∈ unlocked))
                   then createSiteRules RULE_ID_BASE MAX_RULES_PER_SITE site index
                   else [])
                (blockedSites b)) /\
  (forall sid, sid ∈ unlocked <->
     exists key st, session b !! key = Some st /\ startsWith key UNLOCK_PREFIX = true /\
                    expiresAt st > now /\ siteId st = sid) /\
  (forall index site, blockedSites b !! index = Some site ->
     enabled site = false \/ id site ∈ unlocked ->
     siteContribution RULE_ID_BASE MAX_RULES_PER_SITE unlocked index site = []) /\
  (forall r, r ∈ newRules <->
     exists index site, blockedSites b !! index = Some site /\ enabled site = true /\
       (id site ∉ unlocked) /\
       r ∈ createSiteRules RULE_ID_BASE MAX_RULES_PER_SITE site index).
Proof.
  cbv zeta. split; [reflexivity|].
  split; [apply updateDynamicRules_remove_all|].
  split.
  { unfold computeNewRules. f_equal. apply imap_ext. intros i site _.
    unfold siteContribution. destruct (enabled site); [|reflexivity].
    simpl. now destruct (bool_decide _). }
  split; [apply getUnlockedSiteIds_spec|].
  split; [intros i site _; apply siteContribution_skipped|].
  intros r. unfold computeNewRules. rewrite list_elem_of_join. split.
  - intros (l & Hr & Hl). apply elem_of_lookup_imap in Hl as (i & site & -> & Hi).
    exists i, site. split; [exact Hi|].
    unfold siteContribution in Hr.
    destruct (enabled site) eqn:Een; simpl in Hr; [|inversion Hr].
    case_bool_decide as Hu; [inversion Hr|]. auto.
  - intros (i & site & Hi & Een & Hu & Hr).
    exists (createSiteRules RULE_ID_BASE MAX_RULES_PER_SITE site i). split; [exact Hr|].
    apply elem_of_lookup_imap. exists i, site. split; [|exact Hi].
    symmetry. now apply siteContribution_kept.
Qed.


Lemma append_inj_r (a x y : string) : a +:+ x = a +:+ y -> x = y.
Proof. induction a as [|c a IH]; simpl; [auto|]. intros [= H]. auto. Qed.

Lemma startsWith_append (a x : string) : startsWith (a +:+ x) a = true.
Proof. unfold startsWith. now rewrite stripPrefix_app. Qed.

Lemma keyedBySite_empty : keyedBySite UNLOCK_PREFIX ∅.
Proof. intros key st H. now rewrite lookup_empty in H. Qed.

Lemma keyedBySite_insert s sid e :
  keyedBySite UNLOCK_PREFIX s ->
  keyedBySite UNLOCK_PREFIX
    (<[UNLOCK_PREFIX +:+ sid := {| siteId := sid; expiresAt := e |}]> s).
Proof.
  intros Hs key st H Hp.
  destruct (decide (UNLOCK_PREFIX +:+ sid = key)) as [<-|Hne].
  - rewrite lookup_insert_eq in H. now inversion H.
  - rewrite lookup_insert_ne in H by exact Hne. now apply Hs.
Qed.

Lemma keyedBySite_delete s key :
  keyedBySite UNLOCK_PREFIX s -> keyedBySite UNLOCK_PREFIX (delete key s).
Proof.
  intros Hs k st H Hp. apply lookup_delete_Some in H as [_ H]. now apply Hs.
Qed.

(** Under [keyedBySite] a site has at most one stored grant. *)
Lemma keyedBySite_unique s k1 k2 st1 st2 :
  keyedBySite UNLOCK_PREFIX s ->
  s !! k1 = Some st1 -> s !! k2 = Some st2 ->
  startsWith k1 UNLOCK_PREFIX = true -> startsWith k2 UNLOCK_PREFIX = true ->
  siteId st1 = siteId st2 ->
  k1 = k2 /\ st1 = st2.
Proof.
  intros Hs H1 H2 P1 P2 E.
  assert (k1 = k2) as ->.
  { rewrite (Hs _ _ H1 P1), (Hs _ _ H2 P2). now rewrite E. }
  split; [reflexivity | congruence].
Qed.

Lemma session_syncDnrRules now b :
  session (syncDnrRules RULE_ID_BASE MAX_RULES_PER_SITE UNLOCK_PREFIX now b) = session b.
Proof. reflexivity. Qed.

Lemma alarms_syncDnrRules now b :
  alarms (syncDnrRules RULE_ID_BASE MAX_RULES_PER_SITE UNLOCK_PREFIX now b) = alarms b.
Proof. reflexivity. Qed.

(** What one [grantAccess] leaves in session storage and in the alarms. *)
Lemma grantAccess_effect now nowSync sid d b :
  let e := now + default 60 d * 60 * 1000 in
  let r := grantAccess RULE_ID_BASE MAX_RULES_PER_SITE UNLOCK_PREFIX ALARM_PREFIX
             now nowSync sid d b in
  r.2 = e /\
  session r.1 = <[UNLOCK_PREFIX +:+ sid := {| siteId := sid; expiresAt := e |}]> (session b) /\
  alarms r.1 = <[ALARM_PREFIX +:+ sid := e]> (alarms b).
Proof. cbv zeta. repeat split; reflexivity. Qed.

Lemma grantAccess_keyedBySite now nowSync sid d b :
  keyedBySite UNLOCK_PREFIX (session b) ->
  keyedBySite UNLOCK_PREFIX
    (session (grantAccess RULE_ID_BASE MAX_RULES_PER_SITE UNLOCK_PREFIX ALARM_PREFIX
                now nowSync sid d b).1).
Proof.
  intros H. destruct (grantAccess_effect now nowSync sid d b) as (_ & -> & _).
  now apply keyedBySite_insert.
Qed.

Lemma revokeAccess_keyedBySite urlMatchesSiteRules isInternalUrl nowSync sid b :
  keyedBySite UNLOCK_PREFIX (session b) ->
  keyedBySite UNLOCK_PREFIX
    (session (revokeAccess RULE_ID_BASE MAX_RULES_PER_SITE UNLOCK_PREFIX ALARM_PREFIX
                urlMatchesSiteRules isInternalUrl nowSync sid b).1).
Proof. intros H. simpl. now apply keyedBySite_delete. Qed.

Lemma isSiteUnlocked_keyedBySite now sid b :
  keyedBySite UNLOCK_PREFIX (session b) ->
  keyedBySite UNLOCK_PREFIX (session (isSiteUnlocked UNLOCK_PREFIX now sid b).1).
Proof.
  intros H. unfold isSiteUnlocked.
  destruct (session b !! (UNLOCK_PREFIX +:+ sid)) as [st|]; [|exact H].
  destruct (expiresAt st <=? now); [|exact H]. simpl. now apply keyedBySite_delete.
Qed.

Lemma getUnlockState_absent now sid b :
  session b !! (UNLOCK_PREFIX +:+ sid) = None ->
  getUnlockState UNLOCK_PREFIX now sid b = (b, None).
Proof. intros H. unfold getUnlockState. now rewrite H. Qed.

(** C6. [isSiteUnlocked] answers true exactly when a grant is stored for
    the site and expires after now. When the stored grant has expired
    the answer is false, the grant is deleted from session storage, and
    [getUnlockState] then finds none, whenever it is asked. *)
Theorem isSiteUnlocked_lazy_expiry (now : Z) (sid : string) (b : Browser) :
  let key := UNLOCK_PREFIX +:+ sid in
  let r := isSiteUnlocked UNLOCK_PREFIX now sid b in
  (r.2 = true <-> exists st, session b !! key = Some st /\ expiresAt st > now) /\
  (forall st, session b !! key = Some st -> expiresAt st <= now ->
     r.2 = false /\
     session r.1 = delete key (session b) /\
     forall later, getUnlockState UNLOCK_PREFIX later sid r.1 = (r.1, None)) /\
  (forall st, session b !! key = Some st -> expiresAt st > now -> r.1 = b) /\
  (session b !! key = None -> r = (b, false)).
Proof.
  cbv zeta. unfold isSiteUnlocked.
  destruct (session b !! (UNLOCK_PREFIX +:+ sid)) as [st|] eqn:E.
  - destruct (expiresAt st <=? now) eqn:L.
    + apply Z.leb_le in L. simpl. split; [|split; [|split]].
      * split; [discriminate|]. intros (st' & [= <-] & H). lia.
      * intros st' [= <-] _. split; [reflexivity|]. split; [reflexivity|].
        intros later. apply getUnlockState_absent. simpl. apply lookup_delete_eq.
      * intros st' [= <-] H. lia.
      * discriminate.
    + apply Z.leb_gt in L. simpl. split; [|split; [|split]].
      * split; [|reflexivity]. intros _. exists st. split; [reflexivity | lia].
      * intros st' [= <-] H. lia.
      * reflexivity.
      * discriminate.
  - simpl. split; [|split; [|split]]; try discriminate; try reflexivity.
    split; [discriminate|]. intros (st & H & _). discriminate.
Qed.

(** C9. After two grants for one site, session storage holds under the
    key of the site the second grant only, the alarm of the site rings
    at the second expiry only, and the rest of both stores is as before
    the first grant. No other stored grant names the site, and
    [getUnlockState] reports the second expiry or nothing. *)
Theorem grantAccess_last_write_wins
    (b : Browser) (sid : string) (now1 sync1 now2 sync2 : Z) (d1 d2 : option Z) :
  keyedBySite UNLOCK_PREFIX (session b) ->
  let b1 := (grantAccess RULE_ID_BASE MAX_RULES_PER_SITE UNLOCK_PREFIX ALARM_PREFIX
               now1 sync1 sid d1 b).1 in
  let r2 := grantAccess RULE_ID_BASE MAX_RULES_PER_SITE UNLOCK_PREFIX ALARM_PREFIX
              now2 sync2 sid d2 b1 in
  let e2 := now2 + default 60 d2 * 60 * 1000 in
  let g2 := {| siteId := sid; expiresAt := e2 |} in
  r2.2 = e2 /\
  session r2.1 = <[UNLOCK_PREFIX +:+ sid := g2]> (session b) /\
  alarms r2.1 = <[ALARM_PREFIX +:+ sid := e2]> (alarms b) /\
  (forall key st, session r2.1 !! key = Some st ->
     startsWith key UNLOCK_PREFIX = true -> siteId st = sid ->
     key = UNLOCK_PREFIX +:+ sid /\ st = g2) /\
  (forall now, (getUnlockState UNLOCK_PREFIX now sid r2.1).2
               = if e2 <=? now then None else Some g2) /\
  keyedBySite UNLOCK_PREFIX (session r2.1).
Proof.
  intros Hk. cbv zeta.
  set (b1 := (grantAccess _ _ _ _ now1 sync1 sid d1 b).1).
  destruct (grantAccess_effect now1 sync1 sid d1 b) as (_ & Hs1 & Ha1).
  destruct (grantAccess_effect now2 sync2 sid d2 b1) as (He2 & Hs2 & Ha2).
  fold b1 in Hs1, Ha1.
  rewrite Hs1, insert_insert_eq in Hs2. rewrite Ha1, insert_insert_eq in Ha2.
  assert (Hk2 : keyedBySite UNLOCK_PREFIX
                  (session (grantAccess RULE_ID_BASE MAX_RULES_PER_SITE UNLOCK_PREFIX
                              ALARM_PREFIX now2 sync2 sid d2 b1).1)).
  { rewrite Hs2. now apply keyedBySite_insert. }
  assert (Hl : session (grantAccess RULE_ID_BASE MAX_RULES_PER_SITE UNLOCK_PREFIX
                          ALARM_PREFIX now2 sync2 sid d2 b1).1
               !! (UNLOCK_PREFIX +:+ sid)
               = Some {| siteId := sid; expiresAt := now2 + default 60 d2 * 60 * 1000 |}).
  { rewrite Hs2. apply lookup_insert_eq. }
  split; [exact He2|]. split; [exact Hs2|]. split; [exact Ha2|].
  split; [|split; [|exact Hk2]].
  - intros key st H Hp Hsid.
    destruct (keyedBySite_unique _ _ _ _ _ Hk2 H Hl Hp (startsWith_append _ _) Hsid)
      as [-> ->]. split; reflexivity.
  - intros now. unfold getUnlockState. rewrite Hl. simpl.
    now destruct (_ <=? now).
Qed.

End DnrProperties.

Lemma grantAccess_last_write_wins_witness :
  let r2 := grantAccess 1000 100 "unlock_" "relock_" 200000 200001 "site-1" None
              (grantAccess 1000 100 "unlock_" "relock_" 0 1 "site-1" (Some 30) emptyBrowser).1 in
  r2.2 = 3800000 /\
  session r2.1 !! "unlock_site-1" = Some {| siteId := "site-1"; expiresAt := 3800000 |} /\
  alarms r2.1 !! "relock_site-1" = Some 3800000.
Proof.
  destruct (grantAccess_last_write_wins 1000 100 "unlock_" "relock_" emptyBrowser "site-1"
              0 1 200000 200001 (Some 30) None (keyedBySite_empty "unlock_"))
    as (He & Hs & Ha & _).
  cbv zeta. split; [exact He|].
  split; [rewrite Hs | rewrite Ha]; apply lookup_insert_eq.
Defined.

Lemma isSiteUnlocked_lazy_expiry_witness :
  let b := sessionSet "unlock_site-1" {| siteId := "site-1"; expiresAt := 100 |} emptyBrowser in
  (isSiteUnlocked "unlock_" 50 "site-1" b).2 = true /\
  (isSiteUnlocked "unlock_" 100 "site-1" b).2 = false /\
  (getUnlockState "unlock_" 100 "site-1" (isSiteUnlocked "unlock_" 100 "site-1" b).1).2 = None.
Proof.
  cbv zeta.
  set (b := sessionSet "unlock_site-1" {| siteId := "site-1"; expiresAt := 100 |} emptyBrowser).
  assert (Hl : session b !! ("unlock_" +:+ "site-1")
               = Some {| siteId := "site-1"; expiresAt := 100 |})
    by apply lookup_insert_eq.
  split; [|split].
  - apply (isSiteUnlocked_lazy_expiry "unlock_" 50 "site-1" b).
    eexists. split; [exact Hl | simpl; lia].
  - destruct (isSiteUnlocked_lazy_expiry "unlock_" 100 "site-1" b) as (_ & H & _).
    apply (H _ Hl). simpl. lia.
  - destruct (isSiteUnlocked_lazy_expiry "unlock_" 100 "site-1" b) as (_ & H & _).
    destruct (H _ Hl) as (_ & _ & Hg); [simpl; lia|].
    now rewrite (Hg 100).
Defined.

(** ** GuardCheck *)

Section GuardCheckProperties.

Variable Payload : Type.
Variable getAiAgentStatus : string -> option AgentStatus.
Variable parseAiAgentStateMessage : Payload -> option AgentStatus.

(** The decision shared by [check] and [parseWebSocketMessage] when no
    agent is at work and one at least waits for input. *)
Lemma claudeParseWebSocketMessage_waiting
    (settings : option AiAgentSettings) (payload : Payload) (result : AgentStatus) :
  parseAiAgentStateMessage payload = Some result ->
  st_active result = false ->
  st_waitingForInput result > 0 ->
  claudeParseWebSocketMessage Payload parseAiAgentStateMessage payload settings =
    if allowsWaiting settings
    then Some {| active := true; reason := None; message := None |}
    else Some {| active := false; reason := Some waiting;
                 message := Some "AI agent is waiting for your input." |}.
Proof.
  intros Hr Ha Hw. unfold claudeParseWebSocketMessage. rewrite Hr, Ha.
  assert ((st_waitingForInput result >? 0) = true) as -> by now apply Z.gtb_lt; lia.
  simpl. now destruct (allowsWaiting settings).
Qed.

(** C5. When the status response reports no agent at work and a positive
    number of agents waiting for input, [check] answers inactive with
    reason [waiting] unless the settings set
    [allowWhileWaitingForInput], and active when they do. *)
Theorem claudeCheck_waiting_for_input
    (settings : option AiAgentSettings) (result : AgentStatus) :
  getAiAgentStatus (serverUrlOf settings) = Some result ->
  st_active result = false ->
  st_waitingForInput result > 0 ->
  (allowsWaiting settings = false ->
     claudeCheck getAiAgentStatus settings =
       Some {| active := false; reason := Some waiting;
               message := Some "AI agent is waiting for your input." |}) /\
  (allowsWaiting settings = true ->
     claudeCheck getAiAgentStatus settings =
       Some {| active := true; reason := None; message := None |}).
Proof.
  intros Hr Ha Hw. unfold claudeCheck. rewrite Hr, Ha.
  assert ((st_waitingForInput result >? 0) = true) as -> by now apply Z.gtb_lt; lia.
  simpl. split; intros ->; reflexivity.
Qed.

End GuardCheckProperties.

Lemma claudeCheck_waiting_for_input_witness :
  let status := {| st_active := false; st_waitingForInput := 2;
                   st_reason := Some idle; st_statusCode := None |} in
  let server := fun _ : string => Some status in
  claudeCheck server
    (Some {| serverUrl := Some "http://localhost:8765";
             allowWhileWaitingForInput := None |})
    = Some {| active := false; reason := Some waiting;
              message := Some "AI agent is waiting for your input." |} /\
  claudeCheck server
    (Some {| serverUrl := Some "http://localhost:8765";
             allowWhileWaitingForInput := Some true |})
    = Some {| active := true; reason := None; message := None |}.
Proof.
  cbv zeta. split.
  - eapply claudeCheck_waiting_for_input; [reflexivity | reflexivity | simpl; lia | reflexivity].
  - eapply claudeCheck_waiting_for_input; [reflexivity | reflexivity | simpl; lia | reflexivity].
Defined.

(** ** GuardWatcher *)

Ltac open_session s :=
  let v := fresh "v" in
  let r := fresh "r" in
  destruct s as [v r]; destruct v, r; simpl in *.

Section WatcherProperties.

Variables Settings Payload : Type.
Variable guard : UnlockGuardDefinition Settings Payload.
Variable settings : Settings.
Variable heartbeatMs : Z.
Variable pollIntervalMsOption : option Z.
Variable jsonParse : string -> option Payload.

Lemma vars_clearIfSet t s : vars (clearIfSet t s) = vars s.
Proof. now destruct t. Qed.

Lemma emitted_clearIfSet t s : emitted (rt (clearIfSet t s)) = emitted (rt s).
Proof. now destruct t. Qed.

Lemma stop_when_stopped s : stopped (vars s) = true -> stop s = s.
Proof. intros H. unfold stop. now rewrite H. Qed.

Lemma stopped_stop s : stopped (vars (stop s)) = true.
Proof.
  unfold stop. destruct (stopped (vars s)) eqn:E; [exact E|].
  cbv zeta. rewrite !vars_clearIfSet.
  destruct (socket _); simpl; now rewrite !vars_clearIfSet.
Qed.

Lemma emitted_stop s : emitted (rt (stop s)) = emitted (rt s).
Proof.
  unfold stop. destruct (stopped (vars s)); [reflexivity|].
  cbv zeta. rewrite !vars_clearIfSet.
  destruct (socket _) as [k|]; simpl.
  - unfold Rt.close. destruct (readyState _ k); simpl; now rewrite !emitted_clearIfSet.
  - now rewrite !emitted_clearIfSet.
Qed.

Lemma emitState_when_stopped st s : stopped (vars s) = true -> emitState st s = s.
Proof. intros H. unfold emitState. now rewrite H. Qed.

Lemma handleGuardState_when_stopped st s :
  stopped (vars s) = true -> handleGuardState st s = s.
Proof.
  intros H. unfold handleGuardState. rewrite (emitState_when_stopped st s H).
  destruct (negb (active st)); [now apply stop_when_stopped | reflexivity].
Qed.

(** A callback that runs in a stopped session leaves it stopped and
    emits nothing. *)
Lemma runCallback_when_stopped c s :
  stopped (vars s) = true ->
  stopped (vars (runCallback guard settings jsonParse c s)) = true /\
  emitted (rt (runCallback guard settings jsonParse c s)) = emitted (rt s).
Proof.
  intros H. destruct c; simpl.
  - now split.
  - unfold heartbeatTick. destruct (lastState (vars s)) as [l|]; [|now split].
    destruct (active l); [|now split]. now rewrite emitState_when_stopped.
  - unfold pingTick. now rewrite H.
  - unfold reconnectFired, connect. simpl. now rewrite H.
  - now split.
  - unfold messageListener. destruct (jsonParse data); [|now split].
    destruct (parseWebSocketMessage guard) as [parse|]; [|now split].
    destruct (parse _ _); [|now split]. now rewrite handleGuardState_when_stopped.
  - unfold scheduleReconnect. now rewrite H.
  - unfold scheduleReconnect. now rewrite H.
  - unfold checkSettled.
    destruct outcome; now rewrite handleGuardState_when_stopped.
  - now rewrite stop_when_stopped.
Qed.

Lemma step_when_stopped e s :
  stopped (vars s) = true ->
  stopped (vars (step guard settings jsonParse e s)) = true /\
  emitted (rt (step guard settings jsonParse e s)) = emitted (rt s).
Proof.
  intros H. destruct e; cbn [step].
  - destruct (timerIsLive _ s); [now apply runCallback_when_stopped | now split].
  - destruct (timerIsLive _ s); [now apply runCallback_when_stopped | now split].
  - destruct (timerIsLive _ s); [now apply runCallback_when_stopped | now split].
  - destruct (reconnectTimer (vars s)) as [t|]; [|now split].
    destruct (Rt.isLive t (rt s)); [|now split].
    now apply (runCallback_when_stopped ReconnectCallback (onRt (Rt.clearTimer t) s)).
  - destruct (readyState (rt s) k);
      first [ now split
            | now apply (runCallback_when_stopped OpenListener
                           (onRt (Rt.setReadyState k OPEN) s)) ].
  - destruct (readyState (rt s) k);
      first [ now split | now apply runCallback_when_stopped ].
  - destruct (readyState (rt s) k);
      first [ now split
            | now apply (runCallback_when_stopped CloseListener
                           (onRt (Rt.setReadyState k CLOSED) s)) ].
  - destruct (readyState (rt s) k);
      first [ now split | now apply runCallback_when_stopped ].
  - destruct (inflight (rt s)) as [|n]; [now split|].
    now apply (runCallback_when_stopped (CheckContinuation outcome) (onRt (Rt.setInflight n) s)).
  - now apply runCallback_when_stopped.
Qed.

Lemma happenAll_cons a l s :
  happenAll guard settings jsonParse (a :: l) s
  = happenAll guard settings jsonParse l (happen guard settings jsonParse a s).
Proof. reflexivity. Qed.

Lemma run_cons e es s :
  run guard settings jsonParse (e :: es) s
  = run guard settings jsonParse es (step guard settings jsonParse e s).
Proof. reflexivity. Qed.

Lemma happenAll_when_stopped l s :
  stopped (vars s) = true ->
  stopped (vars (happenAll guard settings jsonParse l s)) = true /\
  emitted (rt (happenAll guard settings jsonParse l s)) = emitted (rt s).
Proof.
  revert s. induction l as [|a l IH]; intros s H; [now split|].
  rewrite happenAll_cons.
  assert (Ha : stopped (vars (happen guard settings jsonParse a s)) = true /\
               emitted (rt (happen guard settings jsonParse a s)) = emitted (rt s)).
  { destruct a; [now apply step_when_stopped | now apply runCallback_when_stopped]. }
  destruct Ha as [Hs He]. destruct (IH _ Hs) as [Hs' He']. split; [exact Hs'|].
  now rewrite He'.
Qed.

(** C7. Once [stop] has been called, whatever happens next (turns of the
    event loop, or callbacks of timers, of sockets and of checks in
    flight that run all the same) the consumer is called no more:
    the calls of [onState] are those made before [stop]. *)
Theorem no_emission_after_stop (s : Session) (l : list (event + callback)) :
  emitted (rt (happenAll guard settings jsonParse l (stop s))) = emitted (rt s) /\
  stopped (vars (happenAll guard settings jsonParse l (stop s))) = true.
Proof.
  destruct (happenAll_when_stopped l (stop s) (stopped_stop s)) as [Hs He].
  split; [|exact Hs]. rewrite He. apply emitted_stop.
Qed.

(** *** The runtime holds what the variables refer to *)

Lemma tracked_sameShape s s' : sameShape s s' -> tracked s -> tracked s'.
Proof.
  unfold sameShape, tracked, isIntervalHandle.
  intros (-> & -> & -> & -> & -> & -> & -> & -> & ->). auto.
Qed.

Lemma sameShape_refl s : sameShape s s.
Proof. unfold sameShape. repeat split. Qed.

Lemma elem_of_clearTimer t u r :
  t ∈ liveTimers (Rt.clearTimer u r) <-> t ∈ liveTimers r /\ t <> u.
Proof. unfold Rt.clearTimer. simpl. rewrite list_elem_of_filter. tauto. Qed.

Lemma elem_of_clearIfSet t o s :
  t ∈ liveTimers (rt (clearIfSet o s)) <-> t ∈ liveTimers (rt s) /\ o <> Some t.
Proof.
  destruct o as [u|]; unfold clearIfSet, onRt; cbn [rt].
  - rewrite elem_of_clearTimer. split; intros [H1 H2]; split; congruence.
  - split; [intros H; split; [exact H | discriminate] | tauto].
Qed.

Lemma readyState_clearIfSet o s : readyState (rt (clearIfSet o s)) = readyState (rt s).
Proof. now destruct o. Qed.

Lemma liveTimers_close k r : liveTimers (Rt.close k r) = liveTimers r.
Proof. unfold Rt.close. now destruct (readyState r k). Qed.

Lemma isActive_close k r j :
  Rt.isActive (readyState (Rt.close k r) j) = true ->
  Rt.isActive (readyState r j) = true /\ j <> k.
Proof.
  unfold Rt.close. destruct (readyState r k) eqn:E; simpl.
  - destruct (Nat.eqb_spec j k) as [->|Hne]; [discriminate | auto].
  - destruct (Nat.eqb_spec j k) as [->|Hne]; [discriminate | auto].
  - intros H. split; [exact H|]. intros ->. now rewrite E in H.
  - intros H. split; [exact H|]. intros ->. now rewrite E in H.
Qed.

(** What [stop] leaves of a running session. *)
Lemma stop_running s :
  tracked s -> stopped (vars s) = false ->
  liveTimers (rt (stop s)) = [] /\
  socket (vars (stop s)) = None /\
  (forall k, Rt.isActive (readyState (rt (stop s)) k) = false).
Proof.
  intros Ht Hs. unfold tracked in Ht. rewrite Hs in Ht.
  destruct Ht as (Hlive & _ & _ & Hsock).
  unfold stop. rewrite Hs. cbv zeta. rewrite !vars_clearIfSet.
  change (vars (onVars (V.setStopped true) s)) with (V.setStopped true (vars s)).
  cbn [V.setStopped pollTimer heartbeatTimer wsPingTimer reconnectTimer socket].
  set (s4 := clearIfSet _ (clearIfSet _ (clearIfSet _ (clearIfSet _ _)))).
  assert (Hnone : liveTimers (rt s4) = []).
  { apply elem_of_nil_inv. intros t Ht. unfold s4 in Ht.
    rewrite !elem_of_clearIfSet in Ht.
    destruct Ht as ((((Hin & Hp) & Hh) & Hw) & Hr).
    change (liveTimers (rt (onVars (V.setStopped true) s))) with (liveTimers (rt s)) in Hin.
    apply Hlive in Hin. unfold isIntervalHandle in Hin. tauto. }
  assert (Hrs : readyState (rt s4) = readyState (rt s)).
  { unfold s4. now rewrite !readyState_clearIfSet. }
  destruct (socket (vars s)) as [k|] eqn:Ek; simpl.
  - rewrite liveTimers_close. split; [exact Hnone|]. split; [reflexivity|].
    intros j. destruct (Rt.isActive (readyState (Rt.close k (rt s4)) j)) eqn:Ea; [|reflexivity].
    apply isActive_close in Ea as [Ea Hne]. rewrite Hrs in Ea.
    apply Hsock in Ea. congruence.
  - split; [exact Hnone|].
    split; [unfold s4; rewrite !vars_clearIfSet; exact Ek|].
    intros j. rewrite Hrs.
    destruct (Rt.isActive (readyState (rt s) j)) eqn:Ea; [|reflexivity].
    apply Hsock in Ea. congruence.
Qed.

Lemma lastState_stop s : lastState (vars (stop s)) = lastState (vars s).
Proof.
  unfold stop. destruct (stopped (vars s)); [reflexivity|].
  cbv zeta. rewrite !vars_clearIfSet.
  destruct (socket _); simpl; now rewrite !vars_clearIfSet.
Qed.

Lemma tracked_stop s : tracked s -> tracked (stop s).
Proof.
  intros Ht. destruct (stopped (vars s)) eqn:Hs.
  - now rewrite stop_when_stopped.
  - unfold tracked at 1. rewrite stopped_stop. now apply stop_running.
Qed.

Lemma sameShape_emitState st s : sameShape s (emitState st s).
Proof.
  unfold emitState. destruct (stopped (vars s)); [apply sameShape_refl|].
  unfold sameShape. repeat split.
Qed.

Lemma tracked_handleGuardState st s : tracked s -> tracked (handleGuardState st s).
Proof.
  intros Ht. unfold handleGuardState.
  assert (He : tracked (emitState st s))
    by exact (tracked_sameShape _ _ (sameShape_emitState st s) Ht).
  destruct (negb (active st)); [now apply tracked_stop | exact He].
Qed.

(** An inactive state handed to a running session: it is emitted, then
    the session is torn down. *)
Lemma handleGuardState_inactive st s :
  tracked s -> stopped (vars s) = false -> active st = false ->
  emitted (rt (handleGuardState st s)) = emitted (rt s) ++ [st] /\
  lastState (vars (handleGuardState st s)) = Some st /\
  stopped (vars (handleGuardState st s)) = true /\
  liveTimers (rt (handleGuardState st s)) = [] /\
  socket (vars (handleGuardState st s)) = None /\
  (forall k, Rt.isActive (readyState (rt (handleGuardState st s)) k) = false).
Proof.
  intros Ht Hs Ha. unfold handleGuardState. rewrite Ha. simpl.
  assert (He : tracked (emitState st s))
    by exact (tracked_sameShape _ _ (sameShape_emitState st s) Ht).
  assert (Hr : stopped (vars (emitState st s)) = false).
  { unfold emitState. now rewrite Hs. }
  destruct (stop_running _ He Hr) as (H1 & H2 & H3).
  split; [|split; [|split; [apply stopped_stop | auto]]].
  - rewrite emitted_stop. unfold emitState. now rewrite Hs.
  - rewrite lastState_stop. unfold emitState. now rewrite Hs.
Qed.

Lemma tracked_scheduleReconnect s : tracked s -> tracked (scheduleReconnect s).
Proof.
  intros Ht. open_session s. unfold tracked, scheduleReconnect, isIntervalHandle in *.
  simpl in *. destruct stopped0; [exact Ht|].
  destruct reconnectTimer0 as [t0|]; [exact Ht|]. simpl.
  destruct Ht as (Hlive & Hlt & _ & Hsock).
  split; [|split; [|split]].
  - intros t. rewrite elem_of_app, list_elem_of_singleton, Hlive. split.
    + intros [[H|H]|H]; [now left | discriminate | right; now subst t].
    + intros [H|H]; [now left; left | right; now inversion H].
  - intros t H. apply Hlt in H. lia.
  - intros t [= <-] H. apply Hlt in H. lia.
  - exact Hsock.
Qed.

Lemma tracked_connect s : tracked s -> tracked (connect s).
Proof.
  intros Ht. unfold connect. destruct (stopped (vars s)) eqn:Hs; [exact Ht|].
  unfold tracked in *. rewrite Hs in Ht. destruct Ht as (Hlive & Hlt & Hrc & Hsock).
  destruct (socket (vars s)) as [k|] eqn:Ek; cbn; rewrite Hs.
  - rewrite liveTimers_close. split; [exact Hlive|].
    assert (Hn : nextHandle (Rt.close k (rt s)) = nextHandle (rt s)).
    { unfold Rt.close. now destruct (readyState (rt s) k). }
    rewrite Hn. split; [|split; [exact Hrc|]].
    + intros t H. apply Hlt in H. lia.
    + intros j. destruct (Nat.eqb_spec j (nextHandle (rt s))) as [->|Hne]; [reflexivity|].
      intros [Ha Hjk]%isActive_close. apply Hsock in Ha. congruence.
  - split; [exact Hlive|]. split; [|split; [exact Hrc|]].
    + intros t H. apply Hlt in H. lia.
    + intros j. destruct (Nat.eqb_spec j (nextHandle (rt s))) as [->|Hne]; [reflexivity|].
      intros Ha. apply Hsock in Ha. congruence.
Qed.

(** The reconnect timeout has fired: it is live no more and the
    variable is reset. *)
Lemma tracked_expire s t :
  tracked s -> reconnectTimer (vars s) = Some t ->
  tracked (onVars (V.setReconnectTimer None) (onRt (Rt.clearTimer t) s)).
Proof.
  intros Ht Hr. open_session s. unfold tracked, isIntervalHandle in *. simpl in *.
  subst reconnectTimer0. destruct stopped0.
  - destruct Ht as (-> & Hs & Ha). auto.
  - destruct Ht as (Hlive & Hlt & Hrc & Hsock).
    split; [|split; [exact Hlt | split; [discriminate | exact Hsock]]].
    intros u. rewrite list_elem_of_filter, Hlive. split.
    + intros [Hne [H|[= ->]]]; [auto | contradiction].
    + intros [H|H]; [|discriminate]. split; [|auto].
      intros ->. exact (Hrc t eq_refl H).
Qed.

Lemma tracked_setReadyState_open s k :
  tracked s -> readyState (rt s) k = CONNECTING ->
  tracked (onRt (Rt.setReadyState k OPEN) s).
Proof.
  intros Ht Hk. open_session s. unfold tracked in *. simpl in *. destruct stopped0.
  - destruct Ht as (_ & _ & Ha). specialize (Ha k). now rewrite Hk in Ha.
  - destruct Ht as (Hlive & Hlt & Hrc & Hsock).
    split; [exact Hlive | split; [exact Hlt | split; [exact Hrc|]]].
    intros j. destruct (Nat.eqb_spec j k) as [->|Hne]; [|apply Hsock].
    intros _. apply Hsock. now rewrite Hk.
Qed.

Lemma tracked_setReadyState_closed s k :
  tracked s -> tracked (onRt (Rt.setReadyState k CLOSED) s).
Proof.
  intros Ht. open_session s. unfold tracked in *. simpl in *. destruct stopped0.
  - destruct Ht as (Hl & Hs & Ha). split; [exact Hl | split; [exact Hs|]].
    intros j. destruct (Nat.eqb j k); [reflexivity | apply Ha].
  - destruct Ht as (Hlive & Hlt & Hrc & Hsock).
    split; [exact Hlive | split; [exact Hlt | split; [exact Hrc|]]].
    intros j. destruct (Nat.eqb j k); [discriminate | apply Hsock].
Qed.

Lemma tracked_runCallback c s :
  tracked s -> c <> ReconnectCallback ->
  tracked (runCallback guard settings jsonParse c s).
Proof.
  intros Ht Hc. destruct c; simpl.
  - refine (tracked_sameShape _ _ _ Ht). unfold sameShape. repeat split.
  - unfold heartbeatTick. destruct (lastState (vars s)) as [l|]; [|exact Ht].
    destruct (active l); [|exact Ht].
    exact (tracked_sameShape _ _ (sameShape_emitState l s) Ht).
  - unfold pingTick. destruct (stopped (vars s)); [exact Ht|].
    destruct (socket (vars s)) as [k|]; [|exact Ht].
    destruct (readyState (rt s) k);
      first [ exact Ht
            | refine (tracked_sameShape _ _ _ Ht); unfold sameShape; repeat split ].
  - contradiction.
  - refine (tracked_sameShape _ _ _ Ht). unfold sameShape. repeat split.
  - unfold messageListener. destruct (jsonParse data); [|exact Ht].
    destruct (parseWebSocketMessage guard) as [parse|]; [|exact Ht].
    destruct (parse _ _); [|exact Ht]. now apply tracked_handleGuardState.
  - now apply tracked_scheduleReconnect.
  - now apply tracked_scheduleReconnect.
  - unfold checkSettled. destruct outcome; now apply tracked_handleGuardState.
  - now apply tracked_stop.
Qed.

Lemma tracked_step e s : tracked s -> tracked (step guard settings jsonParse e s).
Proof.
  intros Ht. destruct e; cbn [step].
  - destruct (timerIsLive _ s); [now apply tracked_runCallback | exact Ht].
  - destruct (timerIsLive _ s); [now apply tracked_runCallback | exact Ht].
  - destruct (timerIsLive _ s); [now apply tracked_runCallback | exact Ht].
  - destruct (reconnectTimer (vars s)) as [t|] eqn:Er; [|exact Ht].
    destruct (Rt.isLive t (rt s)); [|exact Ht].
    cbn [runCallback]. unfold reconnectFired.
    apply tracked_connect. now apply tracked_expire.
  - destruct (readyState (rt s) k) eqn:Ek; try exact Ht.
    apply tracked_runCallback; [|discriminate].
    now apply tracked_setReadyState_open.
  - destruct (readyState (rt s) k); try exact Ht.
    now apply tracked_runCallback.
  - destruct (readyState (rt s) k); try exact Ht;
      (apply tracked_runCallback; [|discriminate]);
      now apply tracked_setReadyState_closed.
  - destruct (readyState (rt s) k); try exact Ht; now apply tracked_runCallback.
  - destruct (inflight (rt s)) as [|n]; [exact Ht|].
    apply tracked_runCallback; [|discriminate].
    refine (tracked_sameShape _ _ _ Ht). unfold sameShape. repeat split.
  - now apply tracked_runCallback.
Qed.

Lemma tracked_startSession :
  tracked (startSession guard settings heartbeatMs pollIntervalMsOption).
Proof.
  unfold startSession. destruct (wsUrlOf guard settings); cbn.
  - unfold tracked, isIntervalHandle. cbn.
    split; [|split; [|split]].
    + intros t. rewrite !elem_of_cons, elem_of_nil. split.
      * intros [->|[->|[->|[]]]]; auto.
      * intros [[[= <-]|[[= <-]|[= <-]]]|[=]]; auto.
    + intros t [[= <-]|[[= <-]|[= <-]]]; lia.
    + discriminate.
    + intros j. destruct (Nat.eqb_spec j 2) as [->|]; [reflexivity | discriminate].
  - unfold tracked, isIntervalHandle. cbn.
    split; [|split; [|split]].
    + intros t. rewrite !elem_of_cons, elem_of_nil. split.
      * intros [->|[]]; auto.
      * intros [[[= <-]|[[=]|[=]]]|[=]]; auto.
    + intros t [[= <-]|[[=]|[=]]]; lia.
    + discriminate.
    + discriminate.
Qed.

Lemma tracked_run es s : tracked s -> tracked (run guard settings jsonParse es s).
Proof.
  revert s. induction es as [|e es IH]; intros s Ht; [exact Ht|].
  rewrite run_cons. apply IH. now apply tracked_step.
Qed.

Lemma reachable_tracked s :
  reachable guard settings heartbeatMs pollIntervalMsOption jsonParse s -> tracked s.
Proof. intros [es ->]. apply tracked_run, tracked_startSession. Qed.

Lemma delivered_step e s st :
  delivered guard settings jsonParse e s = Some st ->
  exists s0, step guard settings jsonParse e s = handleGuardState st s0 /\
             sameShape s s0 /\ emitted (rt s0) = emitted (rt s).
Proof.
  intros H. destruct e; try discriminate; cbn [delivered step] in *.
  - destruct (readyState (rt s) k); try discriminate.
    exists s. split; [|split; [apply sameShape_refl | reflexivity]].
    cbn [runCallback]. unfold messageListener.
    destruct (jsonParse data); [|discriminate].
    destruct (parseWebSocketMessage guard) as [parse|]; [|discriminate].
    now rewrite H.
  - destruct (inflight (rt s)) as [|n]; [discriminate|].
    exists (onRt (Rt.setInflight n) s).
    split; [|split; [unfold sameShape; repeat split | reflexivity]].
    cbn [runCallback]. unfold checkSettled. inversion H. now destruct outcome.
Qed.

(** C2. In a running session of a started watcher, when a settled check
    or a message of the open socket delivers a state that is not
    active, the watcher emits that state and stops: no timer stays
    live, no socket stays connecting or open, and nothing is emitted
    from then on. *)
Theorem inactive_result_stops_watcher (s : Session) (e : event) (st : UnlockGuardState) :
  reachable guard settings heartbeatMs pollIntervalMsOption jsonParse s ->
  stopped (vars s) = false ->
  delivered guard settings jsonParse e s = Some st ->
  active st = false ->
  let s' := step guard settings jsonParse e s in
  emitted (rt s') = emitted (rt s) ++ [st] /\
  stopped (vars s') = true /\
  liveTimers (rt s') = [] /\
  socket (vars s') = None /\
  (forall k, Rt.isActive (readyState (rt s') k) = false) /\
  (forall l, emitted (rt (happenAll guard settings jsonParse l s')) = emitted (rt s')).
Proof.
  intros Hreach Hrun Hd Ha. cbv zeta.
  apply reachable_tracked in Hreach.
  destruct (delivered_step e s st Hd) as (s0 & -> & Hshape & Hem).
  assert (Ht0 : tracked s0) by exact (tracked_sameShape _ _ Hshape Hreach).
  assert (Hr0 : stopped (vars s0) = false).
  { destruct Hshape as (-> & _). exact Hrun. }
  destruct (handleGuardState_inactive st s0 Ht0 Hr0 Ha) as (H1 & _ & H3 & H4 & H5 & H6).
  rewrite Hem in H1.
  repeat (split; [assumption|]).
  intros l. now apply happenAll_when_stopped.
Qed.

(** *** Reconnect backoff *)

Lemma scheduleReconnect_delay s :
  stopped (vars s) = false -> reconnectTimer (vars s) = None ->
  timeouts (rt (scheduleReconnect s))
  = timeouts (rt s) ++ [backoffMs (reconnectAttempts (vars s) + 1)].
Proof. intros Hs Hr. unfold scheduleReconnect. now rewrite Hs, Hr. Qed.

Lemma backoffMs_at_least_1000 n : 1 <= n -> 1000 <= backoffMs n.
Proof.
  intros H. unfold backoffMs.
  assert (2 ^ 1 <= 2 ^ Z.min 6 n) by (apply Z.pow_le_mono_r; lia).
  change (2 ^ 1) with 2 in *. lia.
Qed.

(** C3 (what the code does). On five closes in a row the delays of the
    reconnects are 1000, 2000, 4000, 8000 and 10000 ms, the sixth is
    10000 ms, and the close that follows an open is retried after
    1000 ms: the counter is incremented before the delay is computed,
    so no reconnect waits 500 ms. *)
Theorem reconnect_delays_start_at_1000 (url : string) :
  wsUrlOf guard settings = Some url ->
  let s0 := startSession guard settings heartbeatMs pollIntervalMsOption in
  timeouts (rt (run guard settings jsonParse fiveCloses s0))
    = [1000; 2000; 4000; 8000; 10000] /\
  timeouts (rt (run guard settings jsonParse
                  (fiveCloses ++ [ReconnectTimeout; SocketClose 14]) s0))
    = [1000; 2000; 4000; 8000; 10000; 10000] /\
  timeouts (rt (run guard settings jsonParse
                  (fiveCloses ++ [ReconnectTimeout; SocketOpen 14; SocketClose 14]) s0))
    = [1000; 2000; 4000; 8000; 10000; 1000] /\
  timeouts (rt (run guard settings jsonParse [SocketOpen 2; SocketClose 2] s0)) = [1000].
Proof.
  intros Hws. cbv zeta. unfold startSession. rewrite Hws.
  repeat split; vm_compute; reflexivity.
Qed.

End WatcherProperties.

Lemma inactive_result_stops_watcher_witness :
  let s' := step exampleGuard exampleSettings (fun _ => Some tt)
              (CheckSettled (Some offlineState)) exampleSession in
  emitted (rt s') = [offlineState] /\ stopped (vars s') = true /\
  liveTimers (rt s') = [] /\ socket (vars s') = None.
Proof.
  destruct (inactive_result_stops_watcher _ _ exampleGuard exampleSettings 5000 None
              (fun _ => Some tt) exampleSession (CheckSettled (Some offlineState))
              offlineState)
    as (H1 & H2 & H3 & H4 & _).
  - exists []. reflexivity.
  - reflexivity.
  - reflexivity.
  - reflexivity.
  - cbv zeta. split; [exact H1|]. split; [exact H2|]. split; [exact H3 | exact H4].
Defined.

Lemma reconnect_delays_start_at_1000_witness :
  timeouts (rt (run exampleGuard exampleSettings (fun _ => Some tt) fiveCloses exampleSession))
    = [1000; 2000; 4000; 8000; 10000].
Proof.
  apply (reconnect_delays_start_at_1000 _ _ exampleGuard exampleSettings 5000 None
           (fun _ => Some tt) "ws://localhost:8765/ws").
  reflexivity.
Defined.

(** * More properties of the code *)

(** ** Synchronisation *)

Section SyncProperties.

Variables RULE_ID_BASE MAX_RULES_PER_SITE : Z.
Variables UNLOCK_PREFIX ALARM_PREFIX : string.

Lemma dynamicRules_syncDnrRules now b :
  dynamicRules (syncDnrRules RULE_ID_BASE MAX_RULES_PER_SITE UNLOCK_PREFIX now b)
  = computeNewRules RULE_ID_BASE MAX_RULES_PER_SITE UNLOCK_PREFIX now b.
Proof. apply updateDynamicRules_remove_all. Qed.

Lemma computeNewRules_same_stores now b b' :
  blockedSites b' = blockedSites b -> session b' = session b ->
  computeNewRules RULE_ID_BASE MAX_RULES_PER_SITE UNLOCK_PREFIX now b'
  = computeNewRules RULE_ID_BASE MAX_RULES_PER_SITE UNLOCK_PREFIX now b.
Proof.
  intros Hs He. unfold computeNewRules, getUnlockedSiteIds. now rewrite Hs, He.
Qed.

(** X1. The rule set [syncDnrRules] installs depends on the stored sites
    and on session storage only, not on the rules installed before; so
    a second synchronisation at the same time installs the same rules. *)
Theorem syncDnrRules_declarative (now : Z) (b b' : Browser) :
  blockedSites b' = blockedSites b ->
  session b' = session b ->
  dynamicRules (syncDnrRules RULE_ID_BASE MAX_RULES_PER_SITE UNLOCK_PREFIX now b')
  = dynamicRules (syncDnrRules RULE_ID_BASE MAX_RULES_PER_SITE UNLOCK_PREFIX now b) /\
  dynamicRules (syncDnrRules RULE_ID_BASE MAX_RULES_PER_SITE UNLOCK_PREFIX now
                  (syncDnrRules RULE_ID_BASE MAX_RULES_PER_SITE UNLOCK_PREFIX now b))
  = dynamicRules (syncDnrRules RULE_ID_BASE MAX_RULES_PER_SITE UNLOCK_PREFIX now b).
Proof.
  intros Hs He. rewrite !dynamicRules_syncDnrRules. split.
  - now apply computeNewRules_same_stores.
  - now apply computeNewRules_same_stores.
Qed.

(** *** The rules of one site *)

Lemma imap_const_seq {A B : Type} (g : nat -> B) (l : list A) (n : nat) :
  imap (fun k _ => g (n + k)%nat) l = map g (seq n (length l)).
Proof.
  revert n. induction l as [|x l IH]; intros n; [reflexivity|].
  simpl. rewrite Nat.add_0_r. f_equal.
  rewrite <- IH. apply imap_ext. intros k y _. simpl. f_equal. lia.
Qed.

Lemma createSiteRules_ids site index :
  enabled site = true ->
  map rule_id (createSiteRules RULE_ID_BASE MAX_RULES_PER_SITE site index)
  = map (fun k => getRuleId RULE_ID_BASE MAX_RULES_PER_SITE (Z.of_nat index) (Z.of_nat k))
        (seq 0 (length (blockPatternsOf site))).
Proof.
  intros He. unfold createSiteRules. rewrite He. simpl.
  change (List.filter (fun r => negb (allow r)) (rules site)) with (blockPatternsOf site).
  change (map rule_id ?l) with (rule_id <$> l).
  rewrite fmap_imap. unfold compose. simpl.
  exact (imap_const_seq
           (fun k => getRuleId RULE_ID_BASE MAX_RULES_PER_SITE (Z.of_nat index) (Z.of_nat k))
           (blockPatternsOf site) 0).
Qed.

Lemma createSiteRules_filters site index :
  enabled site = true ->
  map regexFilter (createSiteRules RULE_ID_BASE MAX_RULES_PER_SITE site index)
  = map (fun r => urlFilterToRegex (patternToDnrFilter (pattern r))) (blockPatternsOf site).
Proof.
  intros He. unfold createSiteRules. rewrite He. simpl.
  change (List.filter (fun r => negb (allow r)) (rules site)) with (blockPatternsOf site).
  change (map regexFilter ?l) with (regexFilter <$> l).
  rewrite fmap_imap. unfold compose. simpl.
  exact (imap_const (fun r => urlFilterToRegex (patternToDnrFilter (pattern r)))
           (blockPatternsOf site)).
Qed.

(** X2. An enabled site gets one rule for each of its patterns that is
    not an allow pattern, in their order, with the regular expression of
    the pattern and the identifiers of the site counted from zero; every
    rule blocks main-frame requests with priority 1. A site with allow
    patterns only, or a disabled site, gets no rule. *)
Theorem createSiteRules_shape (site : BlockedSite) (index : nat) :
  let rs := createSiteRules RULE_ID_BASE MAX_RULES_PER_SITE site index in
  (enabled site = false -> rs = []) /\
  (enabled site = true ->
     map regexFilter rs
       = map (fun r => urlFilterToRegex (patternToDnrFilter (pattern r)))
             (blockPatternsOf site) /\
     map rule_id rs
       = map (fun k => getRuleId RULE_ID_BASE MAX_RULES_PER_SITE
                         (Z.of_nat index) (Z.of_nat k))
             (seq 0 (length (blockPatternsOf site)))) /\
  ((forall r, r ∈ rules site -> allow r = true) -> rs = []) /\
  (forall r, r ∈ rs ->
     priority r = 1 /\ action_type r = "block" /\ resourceTypes r = ["main_frame"]).
Proof.
  cbv zeta. split; [|split; [|split]].
  - intros He. unfold createSiteRules. now rewrite He.
  - intros He. split; [now apply createSiteRules_filters | now apply createSiteRules_ids].
  - intros Hall. unfold createSiteRules. destruct (enabled site); [|reflexivity]. simpl.
    assert (Hnil : List.filter (fun r => negb (allow r)) (rules site) = []).
    { induction (rules site) as [|r l IH]; [reflexivity|]. simpl.
      rewrite (Hall r) by (left). simpl. apply IH. intros r' Hr'. apply Hall. now right. }
    now rewrite Hnil.
  - intros r Hr. unfold createSiteRules in Hr.
    destruct (enabled site); simpl in Hr; [|inversion Hr].
    apply elem_of_lookup_imap in Hr as (k & p & -> & _). repeat split.
Qed.

End SyncProperties.

Lemma createSiteRules_shape_witness :
  map regexFilter (createSiteRules 1000 100 exampleSite 3)
    = [ "^(https?://(www\.)?example\.com.*)$"; "^(https?://(www\.)?example\.org.*)$" ] /\
  map rule_id (createSiteRules 1000 100 exampleSite 3) = [ 1300; 1301 ].
Proof.
  destruct (createSiteRules_shape 1000 100 exampleSite 3) as (_ & H & _).
  destruct (H eq_refl) as [Hf Hi]. split; [rewrite Hf | rewrite Hi]; reflexivity.
Defined.

Lemma syncDnrRules_declarative_witness :
  dynamicRules (syncDnrRules 1000 100 "unlock_" 0
                  (syncDnrRules 1000 100 "unlock_" 0 exampleBrowser))
  = dynamicRules (syncDnrRules 1000 100 "unlock_" 0 exampleBrowser).
Proof.
  apply (syncDnrRules_declarative 1000 100 "unlock_" 0 exampleBrowser
           (syncDnrRules 1000 100 "unlock_" 0 exampleBrowser)); reflexivity.
Defined.

Section RuleIdRanges.

Variables RULE_ID_BASE MAX_RULES_PER_SITE : Z.
Variable UNLOCK_PREFIX : string.

Lemma siteContribution_ids unlocked index site x :
  (enabled site = true -> Z.of_nat (length (blockPatternsOf site)) <= MAX_RULES_PER_SITE) ->
  x ∈ map rule_id (siteContribution RULE_ID_BASE MAX_RULES_PER_SITE unlocked index site) ->
  RULE_ID_BASE + Z.of_nat index * MAX_RULES_PER_SITE <= x
    < RULE_ID_BASE + Z.of_nat (S index) * MAX_RULES_PER_SITE.
Proof.
  intros Hcap Hx. unfold siteContribution in Hx.
  destruct (enabled site) eqn:He; simpl in Hx; [|inversion Hx].
  case_bool_decide; [inversion Hx|].
  rewrite (createSiteRules_ids _ _ _ _ He) in Hx.
  apply list_elem_of_fmap in Hx as (k & -> & Hk). apply elem_of_seq in Hk.
  specialize (Hcap eq_refl). unfold getRuleId. lia.
Qed.

Lemma siteContribution_ids_NoDup unlocked index site :
  NoDup (map rule_id (siteContribution RULE_ID_BASE MAX_RULES_PER_SITE unlocked index site)).
Proof.
  unfold siteContribution. destruct (enabled site) eqn:He; simpl; [|constructor].
  case_bool_decide; [constructor|].
  rewrite (createSiteRules_ids _ _ _ _ He).
  assert (Hinj : Inj eq eq
            (fun k : nat => getRuleId RULE_ID_BASE MAX_RULES_PER_SITE
                              (Z.of_nat index) (Z.of_nat k))).
  { intros k1 k2 Hk. unfold getRuleId in Hk. lia. }
  apply (NoDup_fmap_2 _). apply NoDup_seq.
Qed.

Lemma contributions_ids unlocked (sites : list BlockedSite) (n : nat) :
  0 <= MAX_RULES_PER_SITE ->
  (forall site, site ∈ sites -> enabled site = true ->
     Z.of_nat (length (blockPatternsOf site)) <= MAX_RULES_PER_SITE) ->
  NoDup (map rule_id
           (mjoin (imap (fun i s => siteContribution RULE_ID_BASE MAX_RULES_PER_SITE
                                      unlocked (n + i) s) sites))) /\
  (forall x,
     x ∈ map rule_id
           (mjoin (imap (fun i s => siteContribution RULE_ID_BASE MAX_RULES_PER_SITE
                                      unlocked (n + i) s) sites)) ->
     RULE_ID_BASE + Z.of_nat n * MAX_RULES_PER_SITE <= x).
Proof.
  intros Hm. revert n. induction sites as [|site sites IH]; intros n Hcap.
  - simpl. split; [constructor|]. intros x Hx. inversion Hx.
  - assert (Hhead : enabled site = true ->
                    Z.of_nat (length (blockPatternsOf site)) <= MAX_RULES_PER_SITE).
    { apply Hcap. left. }
    destruct (IH (S n)) as [Hnd Hlow].
    { intros s Hs. apply Hcap. now right. }
    cbn [imap mjoin list_join]. rewrite Nat.add_0_r, map_app.
    assert (Hext : imap ((fun i s => siteContribution RULE_ID_BASE MAX_RULES_PER_SITE
                                       unlocked (n + i) s) ∘ S) sites
                   = imap (fun i s => siteContribution RULE_ID_BASE MAX_RULES_PER_SITE
                                        unlocked (S n + i) s) sites).
    { apply imap_ext. intros i s _. simpl. f_equal. lia. }
    rewrite Hext. split.
    + apply NoDup_app. split; [apply siteContribution_ids_NoDup|]. split; [|exact Hnd].
      intros x Hx Hx'. apply (siteContribution_ids _ _ _ _ Hhead) in Hx.
      apply Hlow in Hx'. lia.
    + intros x [Hx|Hx]%elem_of_app.
      * apply (siteContribution_ids _ _ _ _ Hhead) in Hx. lia.
      * apply Hlow in Hx. lia.
Qed.

(** X3. When no enabled site has more block patterns than
    [MAX_RULES_PER_SITE], the rules of one synchronisation have pairwise
    distinct identifiers, whatever the number of sites. *)
Theorem computeNewRules_ids_distinct (now : Z) (b : Browser) :
  0 <= MAX_RULES_PER_SITE ->
  (forall site, site ∈ blockedSites b -> enabled site = true ->
     Z.of_nat (length (blockPatternsOf site)) <= MAX_RULES_PER_SITE) ->
  NoDup (map rule_id
           (computeNewRules RULE_ID_BASE MAX_RULES_PER_SITE UNLOCK_PREFIX now b)).
Proof.
  intros Hm Hcap. unfold computeNewRules.
  exact (proj1 (contributions_ids (getUnlockedSiteIds UNLOCK_PREFIX now b)
                  (blockedSites b) 0 Hm Hcap)).
Qed.

End RuleIdRanges.

Lemma computeNewRules_ids_distinct_witness :
  NoDup (map rule_id (computeNewRules 1000 100 "unlock_" 0 exampleBrowser)).
Proof.
  apply computeNewRules_ids_distinct; [lia|].
  intros site Hs _. apply list_elem_of_singleton in Hs. subst site. simpl. lia.
Defined.

(** Beyond the cap the identifiers of two sites do collide. *)
Example rule_ids_collide_beyond_cap :
  let crowded := {| id := "a"; enabled := true;
                    rules := [ {| pattern := "a.com"; allow := false |};
                               {| pattern := "b.com"; allow := false |};
                               {| pattern := "c.com"; allow := false |} ] |} in
  map rule_id (createSiteRules 1000 2 crowded 0) = [1000; 1001; 1002] /\
  map rule_id (createSiteRules 1000 2 exampleSite 1) = [1002; 1003].
Proof. split; reflexivity. Qed.

(** ** Grants, relock and start-up *)

Section UnlockStoreProperties.

Variables RULE_ID_BASE MAX_RULES_PER_SITE : Z.
Variables UNLOCK_PREFIX ALARM_PREFIX : string.
Variable urlMatchesSiteRules : string -> BlockedSite -> bool.
Variable isInternalUrl : string -> bool.

Lemma isSiteUnlocked_answer now sid b :
  (isSiteUnlocked UNLOCK_PREFIX now sid b).2 =
    match session b !! (UNLOCK_PREFIX +:+ sid) with
    | Some st => now <? expiresAt st
    | None => false
    end.
Proof.
  unfold isSiteUnlocked. destruct (session b !! _) as [st|]; [|reflexivity].
  destruct (expiresAt st <=? now) eqn:E; simpl; symmetry.
  - apply Z.ltb_ge. now apply Z.leb_le.
  - apply Z.ltb_lt. now apply Z.leb_gt.
Qed.

(** X4. The targeted check and the scan agree: when every stored grant
    is keyed by its own site, a site is in [getUnlockedSiteIds] exactly
    when [isSiteUnlocked] answers true for it at that time. *)
Theorem getUnlockedSiteIds_agrees_with_isSiteUnlocked (now : Z) (sid : string) (b : Browser) :
  keyedBySite UNLOCK_PREFIX (session b) ->
  (sid ∈ getUnlockedSiteIds UNLOCK_PREFIX now b <->
   (isSiteUnlocked UNLOCK_PREFIX now sid b).2 = true).
Proof.
  intros Hk. rewrite getUnlockedSiteIds_spec, isSiteUnlocked_answer. split.
  - intros (key & st & Hl & Hp & He & <-).
    rewrite (Hk key st Hl Hp) in Hl. rewrite Hl. apply Z.ltb_lt. lia.
  - destruct (session b !! (UNLOCK_PREFIX +:+ sid)) as [st|] eqn:E; [|discriminate].
    intros Hlt%Z.ltb_lt. exists (UNLOCK_PREFIX +:+ sid), st.
    split; [exact E|]. split; [apply startsWith_append|]. split; [lia|].
    apply (append_inj_r UNLOCK_PREFIX). symmetry. apply (Hk _ _ E), startsWith_append.
Qed.

(** X5. After [grantAccess] the site counts as unlocked at every time
    before the expiry it returns, and no more from the expiry on; the
    grant lasts 60 minutes when no duration is given. *)
Theorem grantAccess_then_isSiteUnlocked
    (now nowSync later : Z) (sid : string) (d : option Z) (b : Browser) :
  let r := grantAccess RULE_ID_BASE MAX_RULES_PER_SITE UNLOCK_PREFIX ALARM_PREFIX
             now nowSync sid d b in
  r.2 = now + match d with Some m => m | None => 60 end * 60000 /\
  (isSiteUnlocked UNLOCK_PREFIX later sid r.1).2 = (later <? r.2) /\
  (keyedBySite UNLOCK_PREFIX (session b) ->
   (sid ∈ getUnlockedSiteIds UNLOCK_PREFIX later r.1 <-> later < r.2)).
Proof.
  cbv zeta.
  destruct (grantAccess_effect RULE_ID_BASE MAX_RULES_PER_SITE UNLOCK_PREFIX ALARM_PREFIX
              now nowSync sid d b) as (He & Hs & _).
  assert (Hans : (isSiteUnlocked UNLOCK_PREFIX later sid
                    (grantAccess RULE_ID_BASE MAX_RULES_PER_SITE UNLOCK_PREFIX ALARM_PREFIX
                       now nowSync sid d b).1).2
                 = (later <? (grantAccess RULE_ID_BASE MAX_RULES_PER_SITE UNLOCK_PREFIX
                                ALARM_PREFIX now nowSync sid d b).2)).
  { rewrite isSiteUnlocked_answer, Hs, lookup_insert_eq, He. reflexivity. }
  split; [|split; [exact Hans|]].
  - rewrite He. destruct d; simpl; lia.
  - intros Hk. rewrite getUnlockedSiteIds_agrees_with_isSiteUnlocked, Hans.
    + apply Z.ltb_lt.
    + now apply grantAccess_keyedBySite.
Qed.

(** X6. The grant takes effect in the provider at once: when the
    synchronisation inside [grantAccess] runs before the expiry, no
    installed rule comes from a site with the unlocked identifier. *)
Theorem grantAccess_unblocks_site
    (now nowSync : Z) (sid : string) (d : option Z) (b : Browser) (r : Rule) :
  nowSync < now + default 60 d * 60 * 1000 ->
  r ∈ dynamicRules (grantAccess RULE_ID_BASE MAX_RULES_PER_SITE UNLOCK_PREFIX ALARM_PREFIX
                      now nowSync sid d b).1 ->
  exists index site,
    blockedSites b !! index = Some site /\ enabled site = true /\ id site <> sid /\
    r ∈ createSiteRules RULE_ID_BASE MAX_RULES_PER_SITE site index.
Proof.
  intros Hlt Hr.
  set (g := {| siteId := sid; expiresAt := now + default 60 d * 60 * 1000 |}).
  set (b1 := sessionSet (UNLOCK_PREFIX +:+ sid) g b).
  change (r ∈ dynamicRules
                (syncDnrRules RULE_ID_BASE MAX_RULES_PER_SITE UNLOCK_PREFIX nowSync b1)) in Hr.
  destruct (syncDnrRules_replaces_rule_set RULE_ID_BASE MAX_RULES_PER_SITE UNLOCK_PREFIX
              nowSync b1) as (_ & Hd & _ & _ & _ & Hin).
  rewrite Hd in Hr. apply Hin in Hr as (index & site & Hl & He & Hu & Hr).
  exists index, site. split; [exact Hl|]. split; [exact He|]. split; [|exact Hr].
  intros Hid. apply Hu. rewrite Hid. apply getUnlockedSiteIds_spec.
  exists (UNLOCK_PREFIX +:+ sid), g. split; [apply lookup_insert_eq|].
  split; [apply startsWith_append|]. split; [simpl; lia | reflexivity].
Qed.

Lemma revokeAccess_effect nowSync sid b :
  let r := revokeAccess RULE_ID_BASE MAX_RULES_PER_SITE UNLOCK_PREFIX ALARM_PREFIX
             urlMatchesSiteRules isInternalUrl nowSync sid b in
  session r.1 = delete (UNLOCK_PREFIX +:+ sid) (session b) /\
  alarms r.1 = delete (ALARM_PREFIX +:+ sid) (alarms b) /\
  blockedSites r.1 = blockedSites b /\
  dynamicRules r.1
  = computeNewRules RULE_ID_BASE MAX_RULES_PER_SITE UNLOCK_PREFIX nowSync
      (alarmsClear (ALARM_PREFIX +:+ sid) (sessionRemove (UNLOCK_PREFIX +:+ sid) b)).
Proof.
  cbv zeta. repeat split. unfold revokeAccess. cbn [fst].
  apply dynamicRules_syncDnrRules.
Qed.

(** X7. [revokeAccess] removes the grant and the alarm of the site and
    nothing else from the two stores; the site is then locked at every
    time, and revoking again changes neither store nor the installed
    rules. *)
Theorem revokeAccess_relocks (nowSync : Z) (sid : string) (b : Browser) :
  let r := revokeAccess RULE_ID_BASE MAX_RULES_PER_SITE UNLOCK_PREFIX ALARM_PREFIX
             urlMatchesSiteRules isInternalUrl nowSync sid b in
  let r' := revokeAccess RULE_ID_BASE MAX_RULES_PER_SITE UNLOCK_PREFIX ALARM_PREFIX
              urlMatchesSiteRules isInternalUrl nowSync sid r.1 in
  session r.1 = delete (UNLOCK_PREFIX +:+ sid) (session b) /\
  alarms r.1 = delete (ALARM_PREFIX +:+ sid) (alarms b) /\
  (forall later, isSiteUnlocked UNLOCK_PREFIX later sid r.1 = (r.1, false)) /\
  (forall later, getUnlockState UNLOCK_PREFIX later sid r.1 = (r.1, None)) /\
  session r'.1 = session r.1 /\ alarms r'.1 = alarms r.1 /\
  dynamicRules r'.1 = dynamicRules r.1 /\ r'.2 = r.2.
Proof.
  cbv zeta.
  set (r := revokeAccess RULE_ID_BASE MAX_RULES_PER_SITE UNLOCK_PREFIX ALARM_PREFIX
              urlMatchesSiteRules isInternalUrl nowSync sid b).
  destruct (revokeAccess_effect nowSync sid b) as (Hs & Ha & Hb & Hd). fold r in Hs, Ha, Hb, Hd.
  destruct (revokeAccess_effect nowSync sid r.1) as (Hs' & Ha' & Hb' & Hd').
  assert (Hnone : session r.1 !! (UNLOCK_PREFIX +:+ sid) = None).
  { rewrite Hs. apply lookup_delete_eq. }
  assert (Hs2 : session (revokeAccess RULE_ID_BASE MAX_RULES_PER_SITE UNLOCK_PREFIX
                           ALARM_PREFIX urlMatchesSiteRules isInternalUrl nowSync sid r.1).1
                = session r.1).
  { rewrite Hs'. now apply delete_id. }
  assert (Ha2 : alarms (revokeAccess RULE_ID_BASE MAX_RULES_PER_SITE UNLOCK_PREFIX
                          ALARM_PREFIX urlMatchesSiteRules isInternalUrl nowSync sid r.1).1
                = alarms r.1).
  { rewrite Ha'. apply delete_id. rewrite Ha. apply lookup_delete_eq. }
  split; [exact Hs|]. split; [exact Ha|].
  split; [intros later; unfold isSiteUnlocked; now rewrite Hnone|].
  split; [intros later; now apply getUnlockState_absent|].
  split; [exact Hs2|]. split; [exact Ha2|].
  assert (Hrules : dynamicRules
                     (revokeAccess RULE_ID_BASE MAX_RULES_PER_SITE UNLOCK_PREFIX ALARM_PREFIX
                        urlMatchesSiteRules isInternalUrl nowSync sid r.1).1
                   = dynamicRules r.1).
  { rewrite Hd', Hd. apply computeNewRules_same_stores.
    - simpl. reflexivity.
    - simpl. rewrite delete_delete_eq. reflexivity. }
  split; [exact Hrules|].
  unfold revokeAccess. cbn [snd]. unfold findTabsOnBlockedSite. simpl. reflexivity.
Qed.

End UnlockStoreProperties.

Lemma getUnlockedSiteIds_agrees_with_isSiteUnlocked_witness :
  let b := sessionSet "unlock_site-1" {| siteId := "site-1"; expiresAt := 100 |} emptyBrowser in
  "site-1" ∈ getUnlockedSiteIds "unlock_" 50 b.
Proof.
  cbv zeta.
  apply getUnlockedSiteIds_agrees_with_isSiteUnlocked.
  - apply (keyedBySite_insert "unlock_" ∅ "site-1" 100), keyedBySite_empty.
  - rewrite isSiteUnlocked_answer.
    change (session (sessionSet "unlock_site-1" {| siteId := "site-1"; expiresAt := 100 |}
                       emptyBrowser) !! ("unlock_" +:+ "site-1"))
      with ((<["unlock_site-1" := {| siteId := "site-1"; expiresAt := 100 |}]>
               (∅ : gmap string UnlockState)) !! "unlock_site-1").
    rewrite lookup_insert_eq. reflexivity.
Defined.

Lemma grantAccess_unblocks_site_witness :
  let r := {| rule_id := 1000; priority := 1; action_type := "block";
              regexFilter := "^(https?://(www\.)?example\.com.*)$";
              resourceTypes := ["main_frame"] |} in
  exists index site,
    blockedSites twoSiteBrowser !! index = Some site /\ enabled site = true /\
    id site <> "site-2" /\ r ∈ createSiteRules 1000 100 site index.
Proof.
  cbv zeta.
  apply (grantAccess_unblocks_site 1000 100 "unlock_" "relock_" 0 1 "site-2" (Some 30)
           twoSiteBrowser).
  - simpl. lia.
  - vm_compute. left.
Defined.

Section RelockProperties.

Variables RULE_ID_BASE MAX_RULES_PER_SITE : Z.
Variables UNLOCK_PREFIX ALARM_PREFIX : string.
Variable urlMatchesSiteRules : string -> BlockedSite -> bool.
Variable isInternalUrl : string -> bool.

Lemma slice_length_app (a x : string) : slice (String.length a) (a +:+ x) = x.
Proof. induction a as [|c a IH]; simpl; [now destruct x | exact IH]. Qed.

Lemma handleRelockAlarm_prefixed nowSync sid b :
  handleRelockAlarm RULE_ID_BASE MAX_RULES_PER_SITE UNLOCK_PREFIX ALARM_PREFIX
    urlMatchesSiteRules isInternalUrl nowSync (ALARM_PREFIX +:+ sid) b
  = ((revokeAccess RULE_ID_BASE MAX_RULES_PER_SITE UNLOCK_PREFIX ALARM_PREFIX
        urlMatchesSiteRules isInternalUrl nowSync sid b).1,
     Some (sid, (revokeAccess RULE_ID_BASE MAX_RULES_PER_SITE UNLOCK_PREFIX ALARM_PREFIX
                   urlMatchesSiteRules isInternalUrl nowSync sid b).2)).
Proof.
  unfold handleRelockAlarm. rewrite startsWith_append. cbn [negb].
  cbv zeta. now rewrite slice_length_app.
Qed.

(** X8. The alarm that [grantAccess] creates for a site is read back by
    [handleRelockAlarm] as that site: handling it reports the site,
    removes its grant and its alarm, and leaves it locked; handling it
    a second time changes neither store. An alarm whose name lacks the
    prefix is ignored and changes nothing. *)
Theorem handleRelockAlarm_relocks_granted_site
    (now nowSync nowFire nowAgain : Z) (sid : string) (d : option Z) (b : Browser) :
  let g := grantAccess RULE_ID_BASE MAX_RULES_PER_SITE UNLOCK_PREFIX ALARM_PREFIX
             now nowSync sid d b in
  let name := ALARM_PREFIX +:+ sid in
  let h := handleRelockAlarm RULE_ID_BASE MAX_RULES_PER_SITE UNLOCK_PREFIX ALARM_PREFIX
             urlMatchesSiteRules isInternalUrl nowFire name g.1 in
  let h' := handleRelockAlarm RULE_ID_BASE MAX_RULES_PER_SITE UNLOCK_PREFIX ALARM_PREFIX
              urlMatchesSiteRules isInternalUrl nowAgain name h.1 in
  alarms g.1 !! name = Some g.2 /\
  (exists tabsToRedirect, h.2 = Some (sid, tabsToRedirect)) /\
  session h.1 = delete (UNLOCK_PREFIX +:+ sid) (session b) /\
  alarms h.1 = delete name (alarms b) /\
  (forall later, (isSiteUnlocked UNLOCK_PREFIX later sid h.1).2 = false) /\
  session h'.1 = session h.1 /\ alarms h'.1 = alarms h.1 /\
  (forall other, startsWith other ALARM_PREFIX = false ->
     handleRelockAlarm RULE_ID_BASE MAX_RULES_PER_SITE UNLOCK_PREFIX ALARM_PREFIX
       urlMatchesSiteRules isInternalUrl nowFire other b = (b, None)).
Proof.
  cbv zeta. rewrite !handleRelockAlarm_prefixed. cbn [fst snd].
  destruct (grantAccess_effect RULE_ID_BASE MAX_RULES_PER_SITE UNLOCK_PREFIX ALARM_PREFIX
              now nowSync sid d b) as (He & Hs & Ha).
  set (g := grantAccess RULE_ID_BASE MAX_RULES_PER_SITE UNLOCK_PREFIX ALARM_PREFIX
              now nowSync sid d b) in *.
  destruct (revokeAccess_relocks RULE_ID_BASE MAX_RULES_PER_SITE UNLOCK_PREFIX ALARM_PREFIX
              urlMatchesSiteRules isInternalUrl nowFire sid g.1)
    as (Hrs & Hra & Hlock & _).
  set (h := revokeAccess RULE_ID_BASE MAX_RULES_PER_SITE UNLOCK_PREFIX ALARM_PREFIX
              urlMatchesSiteRules isInternalUrl nowFire sid g.1) in *.
  destruct (revokeAccess_effect RULE_ID_BASE MAX_RULES_PER_SITE UNLOCK_PREFIX ALARM_PREFIX
              urlMatchesSiteRules isInternalUrl nowAgain sid h.1)
    as (Hs2 & Ha2 & _).
  split; [rewrite Ha, He; apply lookup_insert_eq|].
  split; [eexists; reflexivity|].
  split; [rewrite Hrs, Hs; apply delete_insert_eq|].
  split; [rewrite Hra, Ha; apply delete_insert_eq|].
  split; [intros later; now rewrite Hlock|].
  split; [rewrite Hs2, Hrs; apply delete_delete_eq|].
  split; [rewrite Ha2, Hra; apply delete_delete_eq|].
  intros other Ho. unfold handleRelockAlarm. now rewrite Ho.
Qed.

(** *** Start-up *)

Lemma session_pruned (now : Z) (l : list (string * UnlockState)) (acc : Browser) (k : string) :
  session (foldl (pruneExpired UNLOCK_PREFIX ALARM_PREFIX now) acc l) !! k =
    if existsb (fun e : string * UnlockState =>
                  String.eqb e.1 k && startsWith e.1 UNLOCK_PREFIX
                  && (expiresAt e.2 <=? now)) l
    then None else session acc !! k.
Proof.
  revert acc. induction l as [|[k' st] l IH]; intros acc; [reflexivity|].
  cbn [foldl existsb fst snd]. rewrite IH. clear IH.
  destruct (existsb _ l); [now rewrite orb_true_r|]. rewrite orb_false_r.
  unfold pruneExpired.
  destruct (startsWith k' UNLOCK_PREFIX); [|now rewrite andb_false_r].
  destruct (expiresAt st <=? now); [|now rewrite andb_false_r].
  rewrite !andb_true_r. simpl.
  destruct (String.eqb_spec k' k) as [->|Hne].
  - apply lookup_delete_eq.
  - now apply lookup_delete_ne.
Qed.

Lemma alarms_pruned (now : Z) (l : list (string * UnlockState)) (acc : Browser) (a : string) :
  alarms (foldl (pruneExpired UNLOCK_PREFIX ALARM_PREFIX now) acc l) !! a =
    if existsb (fun e : string * UnlockState =>
                  String.eqb (ALARM_PREFIX +:+ siteId e.2) a && startsWith e.1 UNLOCK_PREFIX
                  && (expiresAt e.2 <=? now)) l
    then None else alarms acc !! a.
Proof.
  revert acc. induction l as [|[k' st] l IH]; intros acc; [reflexivity|].
  cbn [foldl existsb fst snd]. rewrite IH. clear IH.
  destruct (existsb _ l); [now rewrite orb_true_r|]. rewrite orb_false_r.
  unfold pruneExpired.
  destruct (startsWith k' UNLOCK_PREFIX); [|now rewrite andb_false_r].
  destruct (expiresAt st <=? now); [|now rewrite andb_false_r].
  rewrite !andb_true_r. simpl.
  destruct (String.eqb_spec (ALARM_PREFIX +:+ siteId st) a) as [->|Hne].
  - apply lookup_delete_eq.
  - now apply lookup_delete_ne.
Qed.

Lemma blockedSites_pruned (now : Z) (l : list (string * UnlockState)) (acc : Browser) :
  blockedSites (foldl (pruneExpired UNLOCK_PREFIX ALARM_PREFIX now) acc l) = blockedSites acc.
Proof.
  revert acc. induction l as [|[k' st] l IH]; intros acc; [reflexivity|].
  cbn [foldl]. rewrite IH. unfold pruneExpired.
  destruct (startsWith k' UNLOCK_PREFIX); [|reflexivity].
  now destruct (expiresAt st <=? now).
Qed.

(** The grants [initializeDnr] keeps. *)
Lemma session_initializeDnr now nowSync b k :
  session (initializeDnr RULE_ID_BASE MAX_RULES_PER_SITE UNLOCK_PREFIX ALARM_PREFIX
             now nowSync b) !! k =
    match session b !! k with
    | Some st => if startsWith k UNLOCK_PREFIX && (expiresAt st <=? now)
                 then None else Some st
    | None => None
    end.
Proof.
  unfold initializeDnr. cbv zeta. rewrite session_syncDnrRules, session_pruned.
  destruct (existsb _ _) eqn:E.
  - apply existsb_exists in E as ([k' st] & Hin & Hc). simpl in Hc.
    apply andb_true_iff in Hc as [Hc He]. apply andb_true_iff in Hc as [Hk Hp].
    apply String.eqb_eq in Hk. subst k'.
    apply list_elem_of_In, elem_of_map_to_list in Hin. now rewrite Hin, Hp, He.
  - destruct (session b !! k) as [st|] eqn:El; [|reflexivity].
    destruct (startsWith k UNLOCK_PREFIX && (expiresAt st <=? now)) eqn:Ec; [|reflexivity].
    exfalso. apply not_true_iff_false in E. apply E. apply existsb_exists.
    exists (k, st). split.
    + apply list_elem_of_In, elem_of_map_to_list. exact El.
    + simpl. now rewrite String.eqb_refl.
Qed.

Lemma computeNewRules_same_unlocked now now' b b' :
  blockedSites b' = blockedSites b ->
  getUnlockedSiteIds UNLOCK_PREFIX now' b' = getUnlockedSiteIds UNLOCK_PREFIX now b ->
  computeNewRules RULE_ID_BASE MAX_RULES_PER_SITE UNLOCK_PREFIX now' b'
  = computeNewRules RULE_ID_BASE MAX_RULES_PER_SITE UNLOCK_PREFIX now b.
Proof. intros Hs Hu. unfold computeNewRules. now rewrite Hs, Hu. Qed.

(** X9. [initializeDnr] deletes from session storage exactly the grants
    under a prefixed key that have expired, together with the alarm of
    their site, and keeps every other entry. The set of unlocked sites
    at any time from [now] on is unchanged, so the rules it installs are
    those of a plain synchronisation. *)
Theorem initializeDnr_prunes_expired (now nowSync : Z) (b : Browser) :
  let b' := initializeDnr RULE_ID_BASE MAX_RULES_PER_SITE UNLOCK_PREFIX ALARM_PREFIX
              now nowSync b in
  (forall k, session b' !! k =
     match session b !! k with
     | Some st => if startsWith k UNLOCK_PREFIX && (expiresAt st <=? now)
                  then None else Some st
     | None => None
     end) /\
  (forall k st, session b !! k = Some st -> startsWith k UNLOCK_PREFIX = true ->
     expiresAt st <= now -> alarms b' !! (ALARM_PREFIX +:+ siteId st) = None) /\
  (forall later, now <= later ->
     getUnlockedSiteIds UNLOCK_PREFIX later b' = getUnlockedSiteIds UNLOCK_PREFIX later b) /\
  (now <= nowSync ->
     dynamicRules b'
     = dynamicRules (syncDnrRules RULE_ID_BASE MAX_RULES_PER_SITE UNLOCK_PREFIX nowSync b)).
Proof.
  cbv zeta.
  assert (Hunl : forall later, now <= later ->
            getUnlockedSiteIds UNLOCK_PREFIX later
              (initializeDnr RULE_ID_BASE MAX_RULES_PER_SITE UNLOCK_PREFIX ALARM_PREFIX
                 now nowSync b)
            = getUnlockedSiteIds UNLOCK_PREFIX later b).
  { intros later Hl. apply set_eq. intros sid. rewrite !getUnlockedSiteIds_spec. split.
    - intros (k & st & Hk & Hp & He & Hs). exists k, st. split; [|auto].
      rewrite session_initializeDnr in Hk.
      destruct (session b !! k) as [st'|]; [|discriminate].
      destruct (_ && _); [discriminate | exact Hk].
    - intros (k & st & Hk & Hp & He & Hs). exists k, st. split; [|auto].
      rewrite session_initializeDnr, Hk, Hp. cbn [andb].
      assert ((expiresAt st <=? now) = false) as -> by (apply Z.leb_gt; lia).
      reflexivity. }
  split; [intros k; apply session_initializeDnr|].
  split; [|split; [exact Hunl|]].
  - intros k st Hk Hp He. unfold initializeDnr. cbv zeta.
    rewrite alarms_syncDnrRules, alarms_pruned.
    destruct (existsb _ _) eqn:E; [reflexivity|].
    exfalso. apply not_true_iff_false in E. apply E. apply existsb_exists.
    exists (k, st). split.
    + apply list_elem_of_In, elem_of_map_to_list. exact Hk.
    + simpl. rewrite String.eqb_refl, Hp. simpl. now apply Z.leb_le.
  - intros Hle. specialize (Hunl nowSync Hle).
    unfold initializeDnr in *. cbv zeta in *.
    rewrite !dynamicRules_syncDnrRules.
    apply computeNewRules_same_unlocked.
    + apply blockedSites_pruned.
    + exact Hunl.
Qed.

(** X10. [clearAllRules] leaves no dynamic rule and touches neither
    store; the next synchronisation installs what it would have
    installed without it. *)
Theorem clearAllRules_then_sync (now : Z) (b : Browser) :
  dynamicRules (clearAllRules b) = [] /\
  session (clearAllRules b) = session b /\
  alarms (clearAllRules b) = alarms b /\
  dynamicRules (syncDnrRules RULE_ID_BASE MAX_RULES_PER_SITE UNLOCK_PREFIX now
                  (clearAllRules b))
  = dynamicRules (syncDnrRules RULE_ID_BASE MAX_RULES_PER_SITE UNLOCK_PREFIX now b).
Proof.
  split; [apply updateDynamicRules_remove_all|].
  split; [reflexivity|]. split; [reflexivity|].
  now apply syncDnrRules_declarative.
Qed.

(** X11. [findTabsOnBlockedSite] lists the identifiers of the open tabs
    whose identifier and URL are set, whose URL is not internal and
    matches the rules of the first stored site with the given
    identifier; for an identifier no stored site has it lists none. *)
Theorem findTabsOnBlockedSite_spec (sid : string) (b : Browser) :
  ((forall s, s ∈ blockedSites b -> id s <> sid) ->
     findTabsOnBlockedSite urlMatchesSiteRules isInternalUrl sid b = []) /\
  (forall i, i ∈ findTabsOnBlockedSite urlMatchesSiteRules isInternalUrl sid b <->
     exists site tab url,
       List.find (fun s => String.eqb (id s) sid) (blockedSites b) = Some site /\
       tab ∈ tabs b /\ tab_id tab = Some i /\ i <> 0 /\
       tab_url tab = Some url /\ url <> "" /\
       isInternalUrl url = false /\ urlMatchesSiteRules url site = true).
Proof.
  split.
  - intros Hno. unfold findTabsOnBlockedSite.
    destruct (List.find _ (blockedSites b)) as [site|] eqn:E; [|reflexivity].
    apply find_some in E as [Hin He]. apply String.eqb_eq in He.
    exfalso. apply (Hno site); [now apply list_elem_of_In | exact He].
  - intros i. unfold findTabsOnBlockedSite.
    destruct (List.find _ (blockedSites b)) as [site|] eqn:E.
    + rewrite list_elem_of_omap. split.
      * intros (tab & Hin & Ht).
        destruct (tab_id tab) as [j|] eqn:Ej; [|discriminate].
        destruct (tab_url tab) as [url|] eqn:Eu; [|discriminate].
        destruct (Z.eqb_spec j 0) as [->|Hj]; [discriminate|].
        destruct (String.eqb_spec url "") as [->|Hu]; [discriminate|]. simpl in Ht.
        destruct (isInternalUrl url) eqn:Ei; [discriminate|].
        destruct (urlMatchesSiteRules url site) eqn:Em; [|discriminate].
        inversion Ht; subst j. exists site, tab, url. auto 10.
      * intros (site' & tab & url & [= <-] & Hin & Hi & Hne & Hu & Hue & Hint & Hm).
        exists tab. split; [exact Hin|]. rewrite Hi, Hu.
        destruct (Z.eqb_spec i 0) as [->|_]; [contradiction|].
        destruct (String.eqb_spec url "") as [->|_]; [contradiction|].
        simpl. now rewrite Hint, Hm.
    + split; [intros H; inversion H|].
      intros (site & _ & _ & [=] & _).
Qed.

End RelockProperties.

(** ** GuardCheck, in full *)

Section GuardCheckMore.

Variable Payload : Type.
Variable getAiAgentStatus : string -> option AgentStatus.
Variable parseAiAgentStateMessage : Payload -> option AgentStatus.

(** X12. [check] fails only when the status request does. Otherwise its
    answer is active exactly when the server reports an agent at work,
    or reports an agent waiting for input and the settings allow that;
    and every answer that is not active carries a message. *)
Theorem claudeCheck_active_exactly_when (settings : option AiAgentSettings) :
  match getAiAgentStatus (serverUrlOf settings) with
  | None => claudeCheck getAiAgentStatus settings = None
  | Some result =>
      exists st, claudeCheck getAiAgentStatus settings = Some st /\
        active st = st_active result
                    || ((st_waitingForInput result >? 0) && allowsWaiting settings) /\
        (active st = false -> message st <> None)
  end.
Proof.
  unfold claudeCheck. destruct (getAiAgentStatus (serverUrlOf settings)) as [result|];
    [|reflexivity].
  destruct (st_active result) eqn:Ea, (st_waitingForInput result >? 0) eqn:Ew,
    (allowsWaiting settings) eqn:El; simpl;
    eexists; (split; [reflexivity|]); simpl; (split; [reflexivity|]);
    try discriminate; intros _; destruct (st_reason result) as [[]|]; discriminate.
Qed.

(** X13. The poll and the stream read one status alike: for the same
    status, [check] and [parseWebSocketMessage] give states with the
    same [active] and the same [reason]. *)
Theorem claudeCheck_agrees_with_stream
    (settings : option AiAgentSettings) (payload : Payload) (result : AgentStatus) :
  getAiAgentStatus (serverUrlOf settings) = Some result ->
  parseAiAgentStateMessage payload = Some result ->
  exists c p,
    claudeCheck getAiAgentStatus settings = Some c /\
    claudeParseWebSocketMessage Payload parseAiAgentStateMessage payload settings = Some p /\
    active c = active p /\ reason c = reason p.
Proof.
  intros Hc Hp. unfold claudeCheck, claudeParseWebSocketMessage. rewrite Hc, Hp.
  destruct (negb (st_active result) && (st_waitingForInput result >? 0)
            && allowsWaiting settings);
    [do 2 eexists; repeat split|].
  destruct ((st_waitingForInput result >? 0) && negb (st_active result));
    do 2 eexists; repeat split.
Qed.

End GuardCheckMore.

Lemma claudeCheck_agrees_with_stream_witness :
  exists c p,
    claudeCheck (fun _ => Some exampleStatus) exampleSettings = Some c /\
    claudeParseWebSocketMessage unit (fun _ => Some exampleStatus) tt exampleSettings = Some p /\
    active c = active p /\ reason c = reason p.
Proof.
  apply (claudeCheck_agrees_with_stream unit (fun _ => Some exampleStatus)
           (fun _ => Some exampleStatus) exampleSettings tt exampleStatus); reflexivity.
Defined.

(** ** GuardWatcher: what the consumer sees *)

Ltac session_cases s :=
  open_session s; repeat (case_match; simpl in *; subst); try done.

Section WatcherTraces.

Variables Settings Payload : Type.
Variable guard : UnlockGuardDefinition Settings Payload.
Variable settings : Settings.
Variable heartbeatMs : Z.
Variable pollIntervalMsOption : option Z.
Variable jsonParse : string -> option Payload.

Lemma quiet_refl s : quiet s s.
Proof. unfold quiet. auto. Qed.

Lemma quiet_trans s1 s2 s3 : quiet s1 s2 -> quiet s2 s3 -> quiet s1 s3.
Proof.
  unfold quiet. intros (E1 & L1 & S1) (E2 & L2 & S2).
  rewrite E2, E1, L2, L1. auto.
Qed.

Lemma quiet_stop s : quiet s (stop s).
Proof.
  unfold quiet. rewrite emitted_stop, lastState_stop, stopped_stop.
  split; [reflexivity|]. split; [reflexivity | discriminate].
Qed.

Lemma quiet_scheduleReconnect s : quiet s (scheduleReconnect s).
Proof.
  unfold scheduleReconnect. destruct (stopped (vars s)) eqn:Hs; [apply quiet_refl|].
  destruct (reconnectTimer (vars s)); [apply quiet_refl|].
  unfold quiet. simpl. auto.
Qed.

Lemma emitted_close k r : emitted (Rt.close k r) = emitted r.
Proof. unfold Rt.close. now destruct (readyState r k). Qed.

Lemma quiet_connect s : quiet s (connect s).
Proof.
  unfold connect. destruct (stopped (vars s)) eqn:Hs; [apply quiet_refl|].
  unfold quiet. destruct (socket (vars s)); simpl; rewrite ?emitted_close; auto.
Qed.

Lemma quiet_pingTick s : quiet s (pingTick s).
Proof.
  unfold pingTick. destruct (stopped (vars s)); [apply quiet_refl|].
  destruct (socket (vars s)) as [k|]; [|apply quiet_refl].
  destruct (readyState (rt s) k); first [apply quiet_refl | unfold quiet; simpl; auto].
Qed.

Lemma emissionOrder_quiet s s' : quiet s s' -> emissionOrder s -> emissionOrder s'.
Proof.
  unfold quiet, emissionOrder. intros (-> & -> & Hs) (H1 & H2 & H3). auto.
Qed.

Lemma allActive_snoc l st : allActive l -> active st = true -> allActive (l ++ [st]).
Proof. intros Hl Hs. apply Forall_app. split; [exact Hl|]. now constructor. Qed.

(** [emitState] on a running session, for a state that is active or
    followed by [stop]. *)
Lemma emissionOrder_emit st s :
  emissionOrder s -> stopped (vars s) = false ->
  emitted (rt (emitState st s)) = emitted (rt s) ++ [st] /\
  lastState (vars (emitState st s)) = Some st /\
  stopped (vars (emitState st s)) = false /\
  allActive (removelast (emitted (rt (emitState st s)))).
Proof.
  intros (H1 & H2 & H3) Hs. unfold emitState. rewrite Hs. simpl.
  repeat split; [exact Hs|]. rewrite removelast_last. auto.
Qed.

Lemma emissionOrder_emit_active st s :
  emissionOrder s -> active st = true -> emissionOrder (emitState st s).
Proof.
  intros Ho Ha. destruct (stopped (vars s)) eqn:Hs.
  - now rewrite emitState_when_stopped.
  - destruct (emissionOrder_emit st s Ho Hs) as (He & Hl & _ & Hr).
    destruct Ho as (_ & H2 & _).
    split; [exact Hr|]. split.
    + intros _. rewrite He. apply allActive_snoc; auto.
    + rewrite Hl, He. symmetry. apply last_snoc.
Qed.

Lemma emissionOrder_handleGuardState st s :
  emissionOrder s -> emissionOrder (handleGuardState st s).
Proof.
  intros Ho. destruct (stopped (vars s)) eqn:Hs.
  - now rewrite handleGuardState_when_stopped.
  - unfold handleGuardState. destruct (active st) eqn:Ha; simpl.
    + now apply emissionOrder_emit_active.
    + destruct (emissionOrder_emit st s Ho Hs) as (He & Hl & _ & Hr).
      split; [now rewrite emitted_stop|]. split.
      * rewrite stopped_stop. discriminate.
      * rewrite lastState_stop, emitted_stop, Hl, He. symmetry. apply last_snoc.
Qed.

Lemma emissionOrder_runCallback c s :
  emissionOrder s -> emissionOrder (runCallback guard settings jsonParse c s).
Proof.
  intros Ho. destruct c; cbn [runCallback].
  - refine (emissionOrder_quiet _ _ _ Ho). unfold quiet. simpl. auto.
  - unfold heartbeatTick. destruct (lastState (vars s)) as [l|]; [|exact Ho].
    destruct (active l) eqn:Ha; [|exact Ho]. now apply emissionOrder_emit_active.
  - exact (emissionOrder_quiet _ _ (quiet_pingTick s) Ho).
  - unfold reconnectFired. refine (emissionOrder_quiet _ _ (quiet_connect _) _).
    refine (emissionOrder_quiet _ _ _ Ho). unfold quiet. simpl. auto.
  - refine (emissionOrder_quiet _ _ _ Ho). unfold quiet. simpl. auto.
  - unfold messageListener. destruct (jsonParse data); [|exact Ho].
    destruct (parseWebSocketMessage guard) as [parse|]; [|exact Ho].
    destruct (parse _ _); [|exact Ho]. now apply emissionOrder_handleGuardState.
  - exact (emissionOrder_quiet _ _ (quiet_scheduleReconnect s) Ho).
  - exact (emissionOrder_quiet _ _ (quiet_scheduleReconnect s) Ho).
  - unfold checkSettled. destruct outcome; now apply emissionOrder_handleGuardState.
  - exact (emissionOrder_quiet _ _ (quiet_stop s) Ho).
Qed.

Lemma emissionOrder_onRt f s :
  (forall r, emitted (f r) = emitted r) ->
  emissionOrder s -> emissionOrder (onRt f s).
Proof.
  intros Hf. apply emissionOrder_quiet. unfold quiet. simpl. rewrite Hf. auto.
Qed.

Lemma emissionOrder_step e s :
  emissionOrder s -> emissionOrder (step guard settings jsonParse e s).
Proof.
  intros Ho. destruct e; cbn [step];
    repeat case_match; try exact Ho;
    apply emissionOrder_runCallback; try exact Ho;
    apply emissionOrder_onRt; try exact Ho; reflexivity.
Qed.

Lemma emitted_startSession :
  emitted (rt (startSession guard settings heartbeatMs pollIntervalMsOption)) = [] /\
  lastState (vars (startSession guard settings heartbeatMs pollIntervalMsOption)) = None /\
  stopped (vars (startSession guard settings heartbeatMs pollIntervalMsOption)) = false.
Proof. unfold startSession. destruct (wsUrlOf guard settings); cbn; auto. Qed.

Lemma emissionOrder_run es s :
  emissionOrder s -> emissionOrder (run guard settings jsonParse es s).
Proof.
  revert s. induction es as [|e es IH]; intros s Ho; [exact Ho|].
  rewrite run_cons. apply IH. now apply emissionOrder_step.
Qed.

(** X14. In every session of a started watcher the consumer has been
    handed active states only, but possibly the last one; a state that
    is not active is the last one handed over, and the session is then
    stopped. [lastState] is the last state handed over. *)
Theorem emissions_end_at_first_inactive (s : Session) :
  reachable guard settings heartbeatMs pollIntervalMsOption jsonParse s ->
  allActive (removelast (emitted (rt s))) /\
  (forall st, last (emitted (rt s)) = Some st -> active st = false ->
     stopped (vars s) = true) /\
  lastState (vars s) = last (emitted (rt s)).
Proof.
  intros [es ->].
  assert (Ho : emissionOrder
                 (run guard settings jsonParse es
                    (startSession guard settings heartbeatMs pollIntervalMsOption))).
  { apply emissionOrder_run. destruct emitted_startSession as (He & Hl & Hs).
    unfold emissionOrder. rewrite He, Hl. repeat split; constructor. }
  destruct Ho as (H1 & H2 & H3). split; [exact H1|]. split; [|exact H3].
  intros st Hlast Ha.
  destruct (stopped (vars _)) eqn:Hs; [reflexivity|].
  specialize (H2 eq_refl). apply last_Some in Hlast as [l Hl]. rewrite Hl in H2.
  apply Forall_app in H2 as [_ H2]. inversion H2; subst. congruence.
Qed.

End WatcherTraces.

(** ** GuardWatcher: after [stop], backoff, and polling alone *)

Section WatcherLifecycle.

Variables Settings Payload : Type.
Variable guard : UnlockGuardDefinition Settings Payload.
Variable settings : Settings.
Variable heartbeatMs : Z.
Variable pollIntervalMsOption : option Z.
Variable jsonParse : string -> option Payload.

Lemma frozen_refl s : stopped (vars s) = true -> frozen s s.
Proof. unfold frozen. auto. Qed.

Lemma frozen_trans s1 s2 s3 : frozen s1 s2 -> frozen s2 s3 -> frozen s1 s3.
Proof.
  unfold frozen. intros (_ & E1 & T1 & I1 & P1) (S2 & E2 & T2 & I2 & P2).
  rewrite E2, T2, I2, P2. auto.
Qed.

Lemma runCallback_frozen c s :
  stopped (vars s) = true -> frozen s (runCallback guard settings jsonParse c s).
Proof.
  intros H. destruct c; cbn [runCallback].
  - unfold frozen. simpl. auto.
  - unfold heartbeatTick. destruct (lastState (vars s)) as [l|]; [|now apply frozen_refl].
    destruct (active l); [|now apply frozen_refl].
    rewrite emitState_when_stopped by exact H. now apply frozen_refl.
  - unfold pingTick. rewrite H. now apply frozen_refl.
  - unfold reconnectFired, connect. simpl. rewrite H. unfold frozen. simpl. auto.
  - unfold frozen. simpl. auto.
  - unfold messageListener. destruct (jsonParse data); [|now apply frozen_refl].
    destruct (parseWebSocketMessage guard) as [parse|]; [|now apply frozen_refl].
    destruct (parse _ _); [|now apply frozen_refl].
    rewrite handleGuardState_when_stopped by exact H. now apply frozen_refl.
  - unfold scheduleReconnect. rewrite H. now apply frozen_refl.
  - unfold scheduleReconnect. rewrite H. now apply frozen_refl.
  - unfold checkSettled.
    destruct outcome; rewrite handleGuardState_when_stopped by exact H;
      now apply frozen_refl.
  - rewrite stop_when_stopped by exact H. now apply frozen_refl.
Qed.

Lemma frozen_onRt f s :
  stopped (vars s) = true ->
  (forall r, emitted (f r) = emitted r /\ timeouts (f r) = timeouts r /\
             intervals (f r) = intervals r /\ sent (f r) = sent r) ->
  frozen s (onRt f s).
Proof.
  intros H Hf. destruct (Hf (rt s)) as (E & T & I & P). unfold frozen. simpl. auto.
Qed.

Lemma step_frozen e s :
  stopped (vars s) = true -> frozen s (step guard settings jsonParse e s).
Proof.
  intros H. destruct e; cbn [step]; repeat case_match;
    try (now apply frozen_refl); try (now apply runCallback_frozen).
  - eapply frozen_trans; [|apply runCallback_frozen; exact H].
    apply frozen_onRt; [exact H | intros r; repeat split].
  - eapply frozen_trans; [|apply runCallback_frozen; exact H].
    apply frozen_onRt; [exact H | intros r; repeat split].
  - eapply frozen_trans; [|apply runCallback_frozen; exact H].
    apply frozen_onRt; [exact H | intros r; repeat split].
  - eapply frozen_trans; [|apply runCallback_frozen; exact H].
    apply frozen_onRt; [exact H | intros r; repeat split].
  - eapply frozen_trans; [|apply runCallback_frozen; exact H].
    apply frozen_onRt; [exact H | intros r; repeat split].
  - eapply frozen_trans; [|apply runCallback_frozen; exact H].
    apply frozen_onRt; [exact H | intros r; repeat split].
Qed.

Lemma run_frozen es s :
  stopped (vars s) = true -> frozen s (run guard settings jsonParse es s).
Proof.
  revert s. induction es as [|e es IH]; intros s H; [now apply frozen_refl|].
  rewrite run_cons. pose proof (step_frozen e s H) as Hf.
  eapply frozen_trans; [exact Hf|]. apply IH. now destruct Hf.
Qed.

(** X15. A stopped session of a started watcher stays inert whatever
    the event loop brings: it stays stopped, no timer becomes live, no
    socket is created or opened, no reconnect is scheduled, no ping is
    sent and nothing is emitted. Nothing resurrects the watcher. *)
Theorem stopped_session_stays_inert (s : Session) (es : list event) :
  reachable guard settings heartbeatMs pollIntervalMsOption jsonParse s ->
  stopped (vars s) = true ->
  let s' := run guard settings jsonParse es s in
  stopped (vars s') = true /\
  liveTimers (rt s') = [] /\
  socket (vars s') = None /\
  (forall k, Rt.isActive (readyState (rt s') k) = false) /\
  emitted (rt s') = emitted (rt s) /\
  timeouts (rt s') = timeouts (rt s) /\
  intervals (rt s') = intervals (rt s) /\
  sent (rt s') = sent (rt s).
Proof.
  intros Hr Hs. cbv zeta.
  destruct (run_frozen es s Hs) as (Hs' & He & Ht & Hi & Hp).
  pose proof (tracked_run _ _ guard settings jsonParse es s
                (reachable_tracked _ _ _ _ _ _ _ s Hr)) as Htr.
  unfold tracked in Htr. rewrite Hs' in Htr. destruct Htr as (Hl & Hk & Ha).
  auto 10.
Qed.

(** *** Backoff *)

Lemma backoffMs_bounds n : 0 <= n -> 1000 <= backoffMs (n + 1) <= 10000.
Proof.
  intros H. split; [apply backoffMs_at_least_1000; lia|].
  unfold backoffMs. apply Z.le_min_l.
Qed.

Lemma backoffBounded_same s s' :
  reconnectAttempts (vars s') = reconnectAttempts (vars s) ->
  timeouts (rt s') = timeouts (rt s) ->
  backoffBounded s -> backoffBounded s'.
Proof. unfold backoffBounded. now intros -> ->. Qed.

Lemma timeouts_close k r : timeouts (Rt.close k r) = timeouts r.
Proof. unfold Rt.close. now destruct (readyState r k). Qed.

Lemma backoff_stop s :
  reconnectAttempts (vars (stop s)) = reconnectAttempts (vars s) /\
  timeouts (rt (stop s)) = timeouts (rt s).
Proof.
  unfold stop. destruct (stopped (vars s)); [auto|]. cbv zeta.
  rewrite !vars_clearIfSet.
  assert (Hc : forall o x, timeouts (rt (clearIfSet o x)) = timeouts (rt x))
    by (intros [] x; reflexivity).
  destruct (socket _); simpl; rewrite ?timeouts_close, ?vars_clearIfSet, !Hc; auto.
Qed.

Lemma backoff_handleGuardState st s :
  reconnectAttempts (vars (handleGuardState st s)) = reconnectAttempts (vars s) /\
  timeouts (rt (handleGuardState st s)) = timeouts (rt s).
Proof.
  unfold handleGuardState.
  assert (He : reconnectAttempts (vars (emitState st s)) = reconnectAttempts (vars s) /\
               timeouts (rt (emitState st s)) = timeouts (rt s)).
  { unfold emitState. destruct (stopped (vars s)); auto. }
  destruct (negb (active st)); [|exact He].
  destruct (backoff_stop (emitState st s)) as [-> ->]. exact He.
Qed.

Lemma backoffBounded_scheduleReconnect s :
  backoffBounded s -> backoffBounded (scheduleReconnect s).
Proof.
  intros [Ha Ht]. unfold scheduleReconnect.
  destruct (stopped (vars s)); [now split|].
  destruct (reconnectTimer (vars s)); [now split|].
  unfold backoffBounded. simpl. split; [lia|].
  apply Forall_app. split; [exact Ht|]. constructor; [|constructor].
  now apply backoffMs_bounds.
Qed.

Lemma backoffBounded_connect s : backoffBounded s -> backoffBounded (connect s).
Proof.
  apply backoffBounded_same; unfold connect;
    destruct (stopped (vars s)); try reflexivity;
    destruct (socket (vars s)); simpl; rewrite ?timeouts_close; reflexivity.
Qed.

Lemma backoffBounded_runCallback c s :
  backoffBounded s -> backoffBounded (runCallback guard settings jsonParse c s).
Proof.
  intros Hb. destruct c; cbn [runCallback].
  - exact Hb.
  - unfold heartbeatTick. destruct (lastState (vars s)) as [l|]; [|exact Hb].
    destruct (active l); [|exact Hb]. unfold emitState.
    destruct (stopped (vars s)); exact Hb.
  - unfold pingTick. destruct (stopped (vars s)); [exact Hb|].
    destruct (socket (vars s)) as [k|]; [|exact Hb].
    destruct (readyState (rt s) k); exact Hb.
  - unfold reconnectFired. apply backoffBounded_connect. exact Hb.
  - destruct Hb as [_ Ht]. split; [simpl; lia | exact Ht].
  - unfold messageListener. destruct (jsonParse data); [|exact Hb].
    destruct (parseWebSocketMessage guard) as [parse|]; [|exact Hb].
    destruct (parse _ _) as [st|]; [|exact Hb].
    destruct (backoff_handleGuardState st s) as [Ha Ht].
    exact (backoffBounded_same _ _ Ha Ht Hb).
  - now apply backoffBounded_scheduleReconnect.
  - now apply backoffBounded_scheduleReconnect.
  - unfold checkSettled.
    destruct outcome as [st|];
      [destruct (backoff_handleGuardState st s) as [Ha Ht]
      |destruct (backoff_handleGuardState offlineState s) as [Ha Ht]];
      exact (backoffBounded_same _ _ Ha Ht Hb).
  - destruct (backoff_stop s) as [Ha Ht]. exact (backoffBounded_same _ _ Ha Ht Hb).
Qed.

Lemma backoffBounded_step e s :
  backoffBounded s -> backoffBounded (step guard settings jsonParse e s).
Proof.
  intros Hb. destruct e; cbn [step]; repeat case_match; try exact Hb;
    apply backoffBounded_runCallback; exact Hb.
Qed.

(** X16. In every session of a started watcher, each reconnect was
    scheduled with a delay of at least one second and at most ten. *)
Theorem reconnect_delays_bounded (s : Session) :
  reachable guard settings heartbeatMs pollIntervalMsOption jsonParse s ->
  Forall (fun d => 1000 <= d <= 10000) (timeouts (rt s)).
Proof.
  intros [es ->].
  enough (Hb : backoffBounded
                 (run guard settings jsonParse es
                    (startSession guard settings heartbeatMs pollIntervalMsOption)))
    by exact (proj2 Hb).
  assert (H0 : backoffBounded (startSession guard settings heartbeatMs pollIntervalMsOption)).
  { unfold startSession, backoffBounded. destruct (wsUrlOf guard settings); cbn;
      (split; [lia | constructor]). }
  revert H0.
  generalize (startSession guard settings heartbeatMs pollIntervalMsOption).
  induction es as [|e es IH]; intros s Hb; [exact Hb|].
  rewrite run_cons. apply IH. now apply backoffBounded_step.
Qed.

End WatcherLifecycle.

Section WatcherModes.

Variables Settings Payload : Type.
Variable guard : UnlockGuardDefinition Settings Payload.
Variable settings : Settings.
Variable heartbeatMs : Z.
Variable pollIntervalMsOption : option Z.
Variable jsonParse : string -> option Payload.

Lemma pollOnly_same s s' :
  socket (vars s') = socket (vars s) ->
  heartbeatTimer (vars s') = heartbeatTimer (vars s) ->
  wsPingTimer (vars s') = wsPingTimer (vars s) ->
  reconnectTimer (vars s') = reconnectTimer (vars s) ->
  readyState (rt s') = readyState (rt s) ->
  timeouts (rt s') = timeouts (rt s) ->
  sent (rt s') = sent (rt s) ->
  intervals (rt s') = intervals (rt s) ->
  pollOnly s -> pollOnly s'.
Proof. unfold pollOnly. now intros -> -> -> -> -> -> -> ->. Qed.

Lemma pollOnly_emitState st s : pollOnly s -> pollOnly (emitState st s).
Proof.
  apply pollOnly_same; unfold emitState; destruct (stopped (vars s)); reflexivity.
Qed.

Lemma pollOnly_stop s : pollOnly s -> pollOnly (stop s).
Proof.
  intros Hp. unfold stop. destruct (stopped (vars s)); [exact Hp|]. cbv zeta.
  destruct Hp as (Hso & Hh & Hw & Hr & Hrs & Ht & Hse & Hi).
  rewrite !vars_clearIfSet. simpl. rewrite Hso, Hh, Hw, Hr.
  unfold pollOnly. destruct (pollTimer (vars s)); simpl; auto 10.
Qed.

Lemma pollOnly_handleGuardState st s : pollOnly s -> pollOnly (handleGuardState st s).
Proof.
  intros Hp. unfold handleGuardState.
  destruct (negb (active st)); [apply pollOnly_stop|]; now apply pollOnly_emitState.
Qed.

Lemma pollOnly_step e s : pollOnly s -> pollOnly (step guard settings jsonParse e s).
Proof.
  intros Hp. pose proof Hp as (Hso & Hh & Hw & Hr & Hrs & Ht & Hse & Hi).
  destruct e; cbn [step]; rewrite ?Hh, ?Hw, ?Hr, ?Hrs; cbn [timerIsLive]; try exact Hp.
  - destruct (timerIsLive _ s); [|exact Hp]. cbn [runCallback].
    revert Hp. apply pollOnly_same; reflexivity.
  - destruct (inflight (rt s)) as [|n]; [exact Hp|]. cbn [runCallback].
    assert (Hp' : pollOnly (onRt (Rt.setInflight n) s))
      by (revert Hp; apply pollOnly_same; reflexivity).
    unfold checkSettled. destruct outcome; now apply pollOnly_handleGuardState.
  - cbn [runCallback]. now apply pollOnly_stop.
Qed.

(** X17. Started for a guard that offers no stream, the watcher only
    polls: in every session it has no socket, no heartbeat, ping or
    reconnect timer, it has set one interval and no timeout, and it has
    sent nothing; the heartbeat never re-emits in this mode. *)
Theorem watcher_without_stream_only_polls (s : Session) :
  wsUrlOf guard settings = None ->
  reachable guard settings heartbeatMs pollIntervalMsOption jsonParse s ->
  pollOnly s /\
  step guard settings jsonParse HeartbeatTick s = s /\
  step guard settings jsonParse PingTick s = s /\
  step guard settings jsonParse ReconnectTimeout s = s.
Proof.
  intros Hws [es ->].
  assert (Hp : pollOnly (run guard settings jsonParse es
                           (startSession guard settings heartbeatMs pollIntervalMsOption))).
  { assert (H0 : pollOnly (startSession guard settings heartbeatMs pollIntervalMsOption)).
    { unfold startSession. rewrite Hws. unfold pollOnly. cbn. auto 10. }
    revert H0. generalize (startSession guard settings heartbeatMs pollIntervalMsOption).
    induction es as [|e es IH]; intros s Hp; [exact Hp|].
    rewrite run_cons. apply IH. now apply pollOnly_step. }
  split; [exact Hp|].
  destruct Hp as (Hso & Hh & Hw & Hr & _).
  cbn [step]. now rewrite Hh, Hw, Hr.
Qed.

(** *** One reconnect at a time *)

Lemma scheduleReconnect_pending s :
  stopped (vars s) = true \/ reconnectTimer (vars s) <> None ->
  scheduleReconnect s = s.
Proof.
  intros [H|H]; unfold scheduleReconnect.
  - now rewrite H.
  - destruct (stopped (vars s)); [reflexivity|].
    now destruct (reconnectTimer (vars s)).
Qed.

Lemma scheduleReconnect_makes_pending s :
  stopped (vars (scheduleReconnect s)) = true \/
  reconnectTimer (vars (scheduleReconnect s)) <> None.
Proof.
  unfold scheduleReconnect. destruct (stopped (vars s)) eqn:Hs; [now left|].
  destruct (reconnectTimer (vars s)) eqn:Hr; right; [now rewrite Hr | discriminate].
Qed.

Lemma scheduleReconnect_idempotent s :
  scheduleReconnect (scheduleReconnect s) = scheduleReconnect s.
Proof. apply scheduleReconnect_pending, scheduleReconnect_makes_pending. Qed.

(** X18. While a reconnect is pending, or once the session is stopped,
    a close or an error of any socket schedules nothing; so the error
    and the close of one socket, in this order, schedule one reconnect
    at most. *)
Theorem one_reconnect_at_a_time (s : Session) (k : nat) :
  (stopped (vars s) = true \/ reconnectTimer (vars s) <> None ->
     timeouts (rt (step guard settings jsonParse (SocketClose k) s)) = timeouts (rt s) /\
     timeouts (rt (step guard settings jsonParse (SocketError k) s)) = timeouts (rt s)) /\
  timeouts (rt (step guard settings jsonParse (SocketClose k)
                  (step guard settings jsonParse (SocketError k) s)))
  = timeouts (rt (step guard settings jsonParse (SocketError k) s)).
Proof.
  assert (Hpend : forall x, stopped (vars x) = true \/ reconnectTimer (vars x) <> None ->
            timeouts (rt (step guard settings jsonParse (SocketClose k) x)) = timeouts (rt x) /\
            timeouts (rt (step guard settings jsonParse (SocketError k) x)) = timeouts (rt x)).
  { intros x Hx. cbn [step runCallback].
    split; destruct (readyState (rt x) k); try reflexivity;
      now rewrite scheduleReconnect_pending. }
  split; [apply Hpend|].
  destruct (readyState (rt s) k) eqn:Ek.
  - assert (E : step guard settings jsonParse (SocketError k) s = scheduleReconnect s)
      by (cbn [step runCallback]; now rewrite Ek).
    rewrite E. apply Hpend, scheduleReconnect_makes_pending.
  - assert (E : step guard settings jsonParse (SocketError k) s = scheduleReconnect s)
      by (cbn [step runCallback]; now rewrite Ek).
    rewrite E. apply Hpend, scheduleReconnect_makes_pending.
  - assert (E : step guard settings jsonParse (SocketError k) s = scheduleReconnect s)
      by (cbn [step runCallback]; now rewrite Ek).
    rewrite E. apply Hpend, scheduleReconnect_makes_pending.
  - assert (E : step guard settings jsonParse (SocketError k) s = s)
      by (cbn [step]; now rewrite Ek).
    rewrite E. cbn [step]. now rewrite Ek.
Qed.

End WatcherModes.

Lemma watcher_without_stream_only_polls_witness :
  let s := run examplePollGuard exampleSettings (fun _ => Some tt) [PollTick; HeartbeatTick]
             (startSession examplePollGuard exampleSettings 5000 None) in
  timeouts (rt s) = [] /\ socket (vars s) = None.
Proof.
  cbv zeta.
  destruct (watcher_without_stream_only_polls _ _ examplePollGuard
              exampleSettings 5000 None (fun _ => Some tt)
              (run examplePollGuard exampleSettings (fun _ => Some tt)
                 [PollTick; HeartbeatTick]
                 (startSession examplePollGuard exampleSettings 5000 None)))
    as ((Hso & _ & _ & _ & _ & Ht & _) & _).
  - reflexivity.
  - eexists. reflexivity.
  - split; [exact Ht | exact Hso].
Defined.

Lemma emissions_end_at_first_inactive_witness :
  let s := run exampleGuard exampleSettings (fun _ => Some tt)
             [CheckSettled (Some {| active := true; reason := None; message := None |});
              HeartbeatTick; CheckSettled None; PollTick; CheckSettled None]
             exampleSession in
  allActive (removelast (emitted (rt s))) /\ lastState (vars s) = last (emitted (rt s)).
Proof.
  cbv zeta.
  destruct (emissions_end_at_first_inactive _ _ exampleGuard exampleSettings 5000 None
              (fun _ => Some tt)
              (run exampleGuard exampleSettings (fun _ => Some tt)
                 [CheckSettled (Some {| active := true; reason := None; message := None |});
                  HeartbeatTick; CheckSettled None; PollTick; CheckSettled None]
                 exampleSession))
    as (H1 & _ & H3).
  - eexists. reflexivity.
  - split; [exact H1 | exact H3].
Defined.

Lemma stopped_session_stays_inert_witness :
  let s := step exampleGuard exampleSettings (fun _ => Some tt) StopCalled exampleSession in
  let s' := run exampleGuard exampleSettings (fun _ => Some tt)
              [SocketClose 2; PollTick; CheckSettled None; ReconnectTimeout] s in
  liveTimers (rt s') = [] /\ emitted (rt s') = [] /\ timeouts (rt s') = [].
Proof.
  cbv zeta.
  destruct (stopped_session_stays_inert _ _ exampleGuard exampleSettings 5000 None
              (fun _ => Some tt)
              (step exampleGuard exampleSettings (fun _ => Some tt) StopCalled exampleSession)
              [SocketClose 2; PollTick; CheckSettled None; ReconnectTimeout])
    as (_ & Hl & _ & _ & He & Ht & _).
  - exists [StopCalled]. reflexivity.
  - reflexivity.
  - split; [exact Hl|]. split; [rewrite He | rewrite Ht]; reflexivity.
Defined.

Lemma reconnect_delays_bounded_witness :
  Forall (fun d => 1000 <= d <= 10000)
    (timeouts (rt (run exampleGuard exampleSettings (fun _ => Some tt) fiveCloses
                     exampleSession))).
Proof.
  apply (reconnect_delays_bounded _ _ exampleGuard exampleSettings 5000 None
           (fun _ => Some tt)).
  exists fiveCloses. reflexivity.
Defined.

(** ** The OpenCode plugin *)

Section OpenCodeProperties.

Variable ToolInput : Type.

Lemma truthy_Some (o : option string) :
  truthy o = true -> o = Some (default "" o) /\ default "" o <> "".
Proof.
  destruct o as [x|]; [|discriminate]. simpl.
  destruct (String.eqb_spec x ""); [discriminate | auto].
Qed.

Lemma freshSessionId_nonempty now : freshSessionId now <> "".
Proof. discriminate. Qed.

(** X19. [getSessionId] never answers the empty string, posts nothing,
    and leaves its answer in [currentSessionId]: the identifier of the
    event when it has one, else the current one, else a fresh one made
    from the time. *)
Theorem getSessionId_spec (now : Z) (event : PluginEvent) (st : PluginState ToolInput) :
  let r := getSessionId now event st in
  r.1 <> "" /\
  currentSessionId r.2 = Some r.1 /\
  hooks r.2 = hooks st /\
  r.1 = (if truthy (ev_sessionId event) then default "" (ev_sessionId event)
         else if truthy (currentSessionId st) then default "" (currentSessionId st)
         else freshSessionId now).
Proof.
  cbv zeta. unfold getSessionId.
  destruct (truthy (ev_sessionId event)) eqn:E1.
  - destruct (truthy_Some _ E1) as [He Hn]. simpl. auto.
  - destruct (truthy (currentSessionId st)) eqn:E2.
    + destruct (truthy_Some _ E2) as [He Hn]. simpl. auto.
    + simpl. repeat split. apply freshSessionId_nonempty.
Qed.

(** X20. One event posts one hook at most, under the session identifier
    [getSessionId] answers, which is never empty; afterwards that
    identifier is the current one, except after [session.deleted],
    which clears it. *)
Theorem onEvent_spec (directory : string) (now : Z) (event : PluginEvent)
    (st : PluginState ToolInput) :
  let sessionId := (getSessionId now event st).1 in
  let st' := onEvent directory now event st in
  (hooks st' = hooks st \/
   exists name, hooks st' = hooks st ++ [sessionHook ToolInput sessionId name directory]) /\
  sessionId <> "" /\
  currentSessionId st' =
    (if String.eqb (ev_type event) "session.deleted" then None else Some sessionId).
Proof.
  cbv zeta. destruct (getSessionId_spec now event st) as (Hne & Hcur & Hh & _).
  unfold onEvent. destruct (getSessionId now event st) as [sid st1]. simpl in *.
  split; [|split; [exact Hne|]].
  - rewrite <- Hh.
    destruct (String.eqb (ev_type event) "session.created"); [right; eexists; reflexivity|].
    destruct (String.eqb (ev_type event) "session.deleted"); [right; eexists; reflexivity|].
    destruct (String.eqb (ev_type event) "session.idle"); [right; eexists; reflexivity|].
    destruct (String.eqb (ev_type event) "session.status"); [|now left].
    destruct (ev_status event) as [status|]; [|now left].
    destruct (String.eqb status "running" || String.eqb status "active");
      [right; eexists; reflexivity | now left].
  - destruct (String.eqb_spec (ev_type event) "session.created") as [->|_]; [exact Hcur|].
    destruct (String.eqb (ev_type event) "session.deleted"); [reflexivity|].
    destruct (String.eqb (ev_type event) "session.idle"); [exact Hcur|].
    destruct (String.eqb (ev_type event) "session.status"); [|exact Hcur].
    destruct (ev_status event) as [status|]; [|exact Hcur].
    destruct (String.eqb status "running" || String.eqb status "active"); exact Hcur.
Qed.

(** X21. The tool hook never changes [currentSessionId] and posts one
    [PreToolUse] hook. After an event other than [session.deleted] it
    carries the session identifier of that event; after
    [session.deleted] it carries a fresh identifier made from its own
    time, which it does not keep. *)
Theorem onToolExecuteBefore_uses_event_session
    (directory tool : string) (args : ToolInput) (now later : Z)
    (event : PluginEvent) (st : PluginState ToolInput) :
  let st1 := onEvent directory now event st in
  let st2 := onToolExecuteBefore later tool args st1 in
  currentSessionId st2 = currentSessionId st1 /\
  exists h, hooks st2 = hooks st1 ++ [h] /\
    hook_event_name h = PreToolUse /\ tool_name h = Some tool /\
    session_id h =
      (if String.eqb (ev_type event) "session.deleted" then freshSessionId later
       else (getSessionId now event st).1).
Proof.
  cbv zeta. destruct (onEvent_spec directory now event st) as (_ & Hne & Hcur).
  split; [reflexivity|]. eexists. split; [reflexivity|].
  split; [reflexivity|]. split; [reflexivity|]. simpl. rewrite Hcur.
  destruct (String.eqb (ev_type event) "session.deleted"); [reflexivity|].
  simpl. destruct (String.eqb_spec (getSessionId now event st).1 ""); [contradiction|].
  reflexivity.
Qed.

End OpenCodeProperties.

(** ** The regular expression of a rule *)

Section RegexFacts.

Import Regex RegexSem.

Lemma items_pushAll l f : items (pushAll l f) = rev l ++ items f.
Proof.
  revert f. induction l as [|r l IH]; intros f; [reflexivity|].
  simpl. rewrite IH. simpl. now rewrite <- app_assoc.
Qed.

Lemma alts_pushAll l f : alts (pushAll l f) = alts f.
Proof. revert f. induction l as [|r l IH]; intros f; [reflexivity|]. simpl. now rewrite IH. Qed.

Lemma seqOf_rev l : seqOf (rev l) = sequence l.
Proof.
  unfold seqOf, sequence. induction l as [|a l IH]; [reflexivity|].
  simpl. rewrite fold_left_app. simpl. now rewrite IH.
Qed.

Lemma string_app_cons c (x r : string) : String c x +:+ r = String c (x +:+ r).
Proof. reflexivity. Qed.

(** Reading the translation of a filter body: each character becomes
    one item, whatever the character. *)
Lemma parseFrom_body (d rest : string) (top : frame) (stack : list frame) :
  parseFrom (expandWildcards (escapeSpecials d) +:+ rest) top stack
  = parseFrom rest (pushAll (itemsOf d) top) stack.
Proof.
  revert top. induction d as [|c d IH]; intros top; [reflexivity|].
  destruct c as [[] [] [] [] [] [] [] []];
    cbn [escapeSpecials expandWildcards isRegexSpecial Ascii.eqb Bool.eqb];
    rewrite ?string_app_cons; cbn [parseFrom isEscapable postfix push items alts];
    rewrite IH; reflexivity.
Qed.

Lemma parse_urlFilterToRegex (f : string) :
  parse (urlFilterToRegex f) = Some (regexOfBody (removePrefix "||" f)).
Proof.
  unfold urlFilterToRegex, parse. cbv zeta.
  generalize (removePrefix "||" f). intros d.
  rewrite !string_app_cons. change ("" +:+ ?x) with x.
  cbn [parseFrom isEscapable postfix push items alts emptyFrame].
  rewrite parseFrom_body.
  cbn [parseFrom isEscapable postfix push items alts emptyFrame].
  unfold closeFrame. cbn [alts items]. rewrite !alts_pushAll, !items_pushAll.
  unfold regexOfBody.
  rewrite <- (seqOf_rev (urlPrefixItems ++ itemsOf d ++ [Star Dot])).
  rewrite !rev_app_distr.
  generalize (rev (itemsOf d)). intros X. reflexivity.
Qed.

(** *** The matcher finds what the expression matches *)

Lemma flagIfEmpty_nil f : flagIfEmpty f "" = f.
Proof. reflexivity. Qed.

Lemma flagIfEmpty_false w : flagIfEmpty false w = false.
Proof. now destruct w. Qed.

Lemma flagIfEmpty_app f u v : flagIfEmpty (flagIfEmpty f u) v = flagIfEmpty f (u +:+ v).
Proof. destruct u; simpl; [reflexivity | apply flagIfEmpty_false]. Qed.

Lemma flagIfEmpty_app_comm f u v : flagIfEmpty (flagIfEmpty f v) u = flagIfEmpty f (u +:+ v).
Proof. destruct u; simpl; [reflexivity|]. now destruct v. Qed.

Lemma string_app_nil_r (w : string) : w +:+ "" = w.
Proof. induction w as [|c w IH]; [reflexivity|]. now rewrite string_app_cons, IH. Qed.

Lemma string_app_assoc (u v w : string) : (u +:+ v) +:+ w = u +:+ (v +:+ w).
Proof. induction u as [|c u IH]; [reflexivity|]. now rewrite !string_app_cons, IH. Qed.

Lemma string_app_eq_nil (u v : string) : u +:+ v = "" -> u = "" /\ v = "".
Proof. destruct u; simpl; [auto | discriminate]. Qed.

Lemma sem_nullable r s e w : Sem r s e w -> w = "" -> nullable s e r = true.
Proof.
  induction 1 as [| | | | | |a b s e w1 w2 Ha IHa Hb IHb| | | |]; intros Hw;
    try discriminate; try reflexivity.
  - apply string_app_eq_nil in Hw as [-> ->]. simpl in *.
    now rewrite IHa, IHb.
  - simpl. now rewrite IHSem.
  - simpl. rewrite IHSem by assumption. apply orb_true_r.
Qed.

Lemma sem_mkCat a b s e w : Sem (Cat a b) s e w -> Sem (mkCat a b) s e w.
Proof.
  intros H.
  assert (Hfa : a = Fail -> False).
  { intros ->. inversion H; subst. match goal with X : Sem Fail _ _ _ |- _ => inversion X end. }
  assert (Hfb : b = Fail -> False).
  { intros ->. inversion H; subst. match goal with X : Sem Fail _ _ _ |- _ => inversion X end. }
  assert (He : a = Eps -> Sem b s e w).
  { intros ->. inversion H; subst.
    match goal with X : Sem Eps _ _ _ |- _ => inversion X; subst end.
    simpl in *. assumption. }
  destruct a; try (exfalso; now apply Hfa);
    destruct b; try (exfalso; now apply Hfb); simpl;
    first [ exact H | now apply He ].
Qed.

Lemma sem_mkAlt a b s e w : Sem (Alt a b) s e w -> Sem (mkAlt a b) s e w.
Proof.
  intros H.
  assert (Hl : b = Fail -> Sem a s e w).
  { intros ->. inversion H; subst; [assumption|].
    match goal with X : Sem Fail _ _ _ |- _ => inversion X end. }
  assert (Hr : a = Fail -> Sem b s e w).
  { intros ->. inversion H; subst; [|assumption].
    match goal with X : Sem Fail _ _ _ |- _ => inversion X end. }
  destruct a; try (now apply Hr);
    destruct b; simpl; first [ exact H | now apply Hl ].
Qed.

Lemma sem_deriv r s e w0 :
  Sem r s e w0 -> forall ch wt, w0 = String ch wt -> Sem (deriv s ch r) false e wt.
Proof.
  induction 1 as [| | | | | |a b s e w1 w2 Ha IHa Hb IHb
                  |a b s e w Ha IHa|a b s e w Hb IHb
                  | |a s e c0 w1 w2 Ha IHa Hs IHs]; intros ch wt Hw;
    try discriminate.
  - inversion Hw; subst. simpl. rewrite Ascii.eqb_refl. constructor.
  - inversion Hw; subst. simpl.
    match goal with X : isNewline _ = false |- _ => rewrite X end. constructor.
  - inversion Hw; subst. simpl. constructor.
  - cbn [deriv]. apply sem_mkAlt. destruct w1 as [|c1 w1].
    + change ("" +:+ w2) with w2 in Hw. subst w2. simpl in Ha, Hb.
      rewrite (sem_nullable _ _ _ _ Ha eq_refl).
      apply SemAltR. exact (IHb ch wt eq_refl).
    + rewrite string_app_cons in Hw. inversion Hw; subst. apply SemAltL, sem_mkCat.
      constructor.
      * exact (IHa ch w1 eq_refl).
      * simpl in Hb. now rewrite flagIfEmpty_false.
  - cbn [deriv]. apply sem_mkAlt, SemAltL. exact (IHa ch wt Hw).
  - cbn [deriv]. apply sem_mkAlt, SemAltR. exact (IHb ch wt Hw).
  - rewrite string_app_cons in Hw. inversion Hw; subst. cbn [deriv]. apply sem_mkCat.
    constructor.
    + exact (IHa ch w1 eq_refl).
    + now rewrite flagIfEmpty_false.
Qed.

Lemma sem_matchFrom w : forall r s, Sem r s true w -> matchFrom s r w = true.
Proof.
  induction w as [|c w IH]; intros r s H.
  - exact (sem_nullable _ _ _ _ H eq_refl).
  - simpl. apply IH. exact (sem_deriv _ _ _ _ H c w eq_refl).
Qed.

Lemma sem_cat a b s e w1 w2 w :
  w = w1 +:+ w2 ->
  Sem a s (flagIfEmpty e w2) w1 -> Sem b (flagIfEmpty s w1) e w2 ->
  Sem (Cat a b) s e w.
Proof. intros ->. apply SemCat. Qed.

Lemma sem_star_cons a s e c w :
  Sem a s (flagIfEmpty e w) (String c "") -> Sem (Star a) false e w ->
  Sem (Star a) s e (String c w).
Proof. intros Ha Hs. exact (SemStarCons a s e c "" w Ha Hs). Qed.

Lemma sem_search r w : Sem r true true w -> search r w = true.
Proof.
  intros H. unfold search. apply sem_matchFrom.
  apply (sem_cat _ _ _ _ "" w); [reflexivity | apply SemStarNil |].
  apply (sem_cat _ _ _ _ w ""); [symmetry; apply string_app_nil_r | exact H |].
  apply SemStarNil.
Qed.

(** *** Sequences *)

Lemma sem_sequence_app l1 l2 s e w1 w2 :
  Sem (sequence l1) s (flagIfEmpty e w2) w1 ->
  Sem (sequence l2) (flagIfEmpty s w1) e w2 ->
  Sem (sequence (l1 ++ l2)) s e (w1 +:+ w2).
Proof.
  revert s w1. induction l1 as [|x l1 IH]; intros s w1 H1 H2.
  - inversion H1; subst. exact H2.
  - change (sequence (x :: l1)) with (Cat x (sequence l1)) in H1.
    inversion H1 as [| | | | | |a b s' e' u v Hx Hrest| | | |]; subst.
    change (sequence ((x :: l1) ++ l2)) with (Cat x (sequence (l1 ++ l2))).
    apply (sem_cat _ _ _ _ u (v +:+ w2)); [apply string_app_assoc | |].
    + rewrite <- flagIfEmpty_app_comm. exact Hx.
    + apply IH; [exact Hrest|]. rewrite flagIfEmpty_app. exact H2.
Qed.

Lemma sem_sequence_one x s e w : Sem x s e w -> Sem (sequence [x]) s e w.
Proof.
  intros H. change (sequence [x]) with (Cat x Eps).
  apply (sem_cat _ _ _ _ w ""); [symmetry; apply string_app_nil_r | exact H |].
  apply SemEps.
Qed.

Lemma sem_literal d s e : Sem (sequence (literal d)) s e d.
Proof.
  revert s. induction d as [|c d IH]; intros s; [apply SemEps|].
  change (sequence (literal (String c d))) with (Cat (Chr c) (sequence (literal d))).
  apply (sem_cat _ _ _ _ (String c "") d); [reflexivity | apply SemChr | apply IH].
Qed.

Lemma itemsOf_noStar d : noStar d = true -> itemsOf d = literal d.
Proof.
  induction d as [|c d IH]; [reflexivity|]. simpl.
  intros [Hc Hd]%andb_true_iff. unfold itemOf.
  apply negb_true_iff in Hc. rewrite Hc. now rewrite IH.
Qed.

Lemma sem_star_dot w s e : noNewline w = true -> Sem (Star Dot) s e w.
Proof.
  revert s. induction w as [|c w IH]; intros s; [intros _; apply SemStarNil|].
  simpl. intros [Hc Hw]%andb_true_iff. apply negb_true_iff in Hc.
  apply sem_star_cons; [now apply SemDot | now apply IH].
Qed.

Lemma sem_urlPrefix (secure www : bool) s e :
  Sem (sequence urlPrefixItems) s e (urlPrefixText secure www).
Proof.
  unfold urlPrefixItems, urlPrefixText.
  apply sem_sequence_app; [apply sem_literal|].
  apply sem_sequence_app.
  { apply sem_sequence_one. destruct secure; [apply SemAltL, SemChr | apply SemAltR, SemEps]. }
  apply sem_sequence_app; [apply sem_literal|].
  apply sem_sequence_one.
  destruct www; [apply SemAltL, sem_literal | apply SemAltR, SemEps].
Qed.

(** The expression of a filter body without [*] matches every URL made
    of a scheme, an optional [www.], the body, and a rest without line
    break. *)
Lemma sem_regexOfBody (secure www : bool) (d rest : string) :
  noStar d = true -> noNewline rest = true ->
  Sem (regexOfBody d) true true (urlPrefixText secure www +:+ (d +:+ rest)).
Proof.
  intros Hd Hr. unfold regexOfBody.
  set (url := urlPrefixText secure www +:+ (d +:+ rest)).
  apply (sem_cat _ _ _ _ "" url); [reflexivity | apply SemBol |].
  apply (sem_cat _ _ _ _ url ""); [symmetry; apply string_app_nil_r | |].
  - unfold url. apply sem_sequence_app; [apply sem_urlPrefix|].
    apply sem_sequence_app; [rewrite (itemsOf_noStar d Hd); apply sem_literal|].
    apply sem_sequence_one. now apply sem_star_dot.
  - apply (sem_cat _ _ _ _ "" ""); [reflexivity | apply SemEol | apply SemEps].
Qed.

End RegexFacts.

(** X22. Whatever characters a pattern contains, the regular expression
    of its rule is well formed: every rule [createSiteRules] makes has a
    [regexFilter] that reads as an expression, so that it gives an
    answer on every URL. *)
Theorem createSiteRules_regex_well_formed
    (RULE_ID_BASE MAX_RULES_PER_SITE : Z) (site : BlockedSite) (index : nat)
    (r : Rule) (url : string) :
  r ∈ createSiteRules RULE_ID_BASE MAX_RULES_PER_SITE site index ->
  exists p answer,
    p ∈ blockPatternsOf site /\
    regexFilter r = urlFilterToRegex (patternToDnrFilter (pattern p)) /\
    Regex.parse (regexFilter r) = Some (RegexSem.regexOfBody (filterBody (pattern p))) /\
    Regex.test (regexFilter r) url = Some answer.
Proof.
  intros Hr. unfold createSiteRules in Hr.
  destruct (enabled site); simpl in Hr; [|inversion Hr].
  apply elem_of_lookup_imap in Hr as (k & p & -> & Hk).
  exists p. eexists. split; [|split; [reflexivity|]].
  - apply list_elem_of_lookup. eauto.
  - cbn [regexFilter]. unfold Regex.test. rewrite parse_urlFilterToRegex.
    split; reflexivity.
Qed.

Lemma createSiteRules_regex_well_formed_witness :
  exists answer,
    Regex.test "^(https?://(www\.)?example\.com.*)$" "https://example.com/" = Some answer.
Proof.
  destruct (createSiteRules_regex_well_formed 1000 100 exampleSite 0
              {| rule_id := 1000; priority := 1; action_type := "block";
                 regexFilter := "^(https?://(www\.)?example\.com.*)$";
                 resourceTypes := ["main_frame"] |} "https://example.com/")
    as (p & answer & _ & _ & _ & H).
  - left.
  - exists answer. exact H.
Defined.

(** X23. The rule of a pattern blocks the site: when the body of the
    filter of the pattern has no [*], the regular expression of the rule
    matches every URL made of [http://] or [https://], an optional
    [www.], that body, and any rest without a line break. *)
Theorem rule_matches_its_domain (p rest : string) (secure www : bool) :
  RegexSem.noStar (filterBody p) = true ->
  RegexSem.noNewline rest = true ->
  Regex.test (urlFilterToRegex (patternToDnrFilter p))
    (RegexSem.urlPrefixText secure www +:+ (filterBody p +:+ rest)) = Some true.
Proof.
  intros Hd Hr. unfold Regex.test. rewrite parse_urlFilterToRegex. f_equal.
  apply sem_search. now apply sem_regexOfBody.
Qed.

Lemma rule_matches_its_domain_witness :
  Regex.test (urlFilterToRegex (patternToDnrFilter " HTTPS://WWW.Example.com/shop "))
    "http://www.example.com/shop/cart?id=1" = Some true.
Proof.
  apply (rule_matches_its_domain " HTTPS://WWW.Example.com/shop " "/cart?id=1" false true);
    reflexivity.
Defined.

Section Heartbeat.

Variables Settings Payload : Type.
Variable guard : UnlockGuardDefinition Settings Payload.
Variable settings : Settings.
Variable heartbeatMs : Z.
Variable pollIntervalMsOption : option Z.
Variable jsonParse : string -> option Payload.

(** X24. A heartbeat tick hands over no new state: either it emits
    nothing, or the session runs, the last state handed over is active,
    and the tick hands that same state over once more. *)
Theorem heartbeat_repeats_last_active (s : Session) :
  reachable guard settings heartbeatMs pollIntervalMsOption jsonParse s ->
  let s' := step guard settings jsonParse HeartbeatTick s in
  emitted (rt s') = emitted (rt s) \/
  exists l, last (emitted (rt s)) = Some l /\ active l = true /\
            stopped (vars s) = false /\ stopped (vars s') = false /\
            emitted (rt s') = emitted (rt s) ++ [l].
Proof.
  intros Hr. cbv zeta.
  destruct (emissions_end_at_first_inactive _ _ _ _ _ _ _ s Hr) as (_ & _ & Hlast).
  cbn [step runCallback]. destruct (timerIsLive _ s); [|now left].
  unfold heartbeatTick. rewrite Hlast.
  destruct (last (emitted (rt s))) as [l|]; [|now left].
  destruct (active l) eqn:Ha; [|now left].
  unfold emitState. destruct (stopped (vars s)) eqn:Hs; [now left|].
  right. exists l. auto.
Qed.

End Heartbeat.

Lemma heartbeat_repeats_last_active_witness :
  let st := {| active := true; reason := None; message := None |} in
  let s := step exampleGuard exampleSettings (fun _ => Some tt) (CheckSettled (Some st))
             exampleSession in
  emitted (rt (step exampleGuard exampleSettings (fun _ => Some tt) HeartbeatTick s))
  = [st; st].
Proof.
  cbv zeta.
  destruct (heartbeat_repeats_last_active _ _ exampleGuard exampleSettings 5000 None
              (fun _ => Some tt)
              (step exampleGuard exampleSettings (fun _ => Some tt)
                 (CheckSettled (Some {| active := true; reason := None; message := None |}))
                 exampleSession))
    as [H|(l & Hl & _ & _ & _ & H)].
  - exists [CheckSettled (Some {| active := true; reason := None; message := None |})].
    reflexivity.
  - reflexivity.
  - rewrite H. inversion Hl. reflexivity.
Defined.
